(** * QWish: yearly notifications at a local wall-clock time

    A shallow embedding of the correctness core of the qwish repository:
    the time resolver ([computeNotifyUtc], utils/notify.ts), the queue
    producer ([enqueueGreeterMessage], queues/greeter.ts), the scheduler
    sweep (handlers/scheduler.ts), the sender state machine
    (handlers/sender.ts), the DLQ processor (handlers/dlqProcessor.ts,
    lib/sqs.ts), the health monitor (handlers/healthCheck.ts) and the
    handlers of the HTTP API that create and delete what the pipeline
    reads (handlers/createUser.ts, addUserEvent.ts, deleteUser.ts).

    Conventions of the embedding
    - instants (ISO-8601 strings in the code, produced by [toISOString]
      and read back by [new Date] / [dayjs]) are [Z] milliseconds since
      the epoch; printing and parsing such a string is the identity;
    - a 'YYYY-MM-DD' string is a [CivilDate], an 'HH:mm' string a
      [LocalTime];
    - the host zone of the process is UTC, so that [dayjs().year()] and
      [new Date().getFullYear()] are the UTC year of the instant;
    - every call that leaves the process (DynamoDB, SQS, fetch) is a
      primitive of the monad [M]: it consults the environment [Env] for
      faults and replies, acts on the [World] and records an [Effect]
      (the calls that only the HTTP API makes are not recorded);
    - the services are modelled as far as the properties need them: an
      SQS queue keeps every message it accepts (the five-minute
      deduplication of a FIFO queue is not modelled, and what the
      producers do is stated on the calls they make), and a Query of the
      events index is not cut at 1 MB (which records the monitor finds
      is stated on the page its query returns). *)

From stdpp Require Import base option list strings gmap pretty sorting.
From Stdlib Require Import ZArith Lia.

#[local] Open Scope Z_scope.

(** ** Calendar arithmetic (what [Date] and dayjs compute) *)

Module Calendar.

Record CivilDate := mkDate { year : Z; month : Z; day : Z }.

Record LocalTime := mkTime { hour : Z; minute : Z }.

Definition isLeapYear (y : Z) : bool :=
  ((y mod 4 =? 0) && negb (y mod 100 =? 0)) || (y mod 400 =? 0).

Definition daysInMonth (y m : Z) : Z :=
  if m =? 2 then (if isLeapYear y then 29 else 28)
  else if (m =? 4) || (m =? 6) || (m =? 9) || (m =? 11) then 30
  else 31.

(** Days since 1970-01-01 of a proleptic Gregorian date. *)
Definition daysFromCivil (y m d : Z) : Z :=
  let y' := if m <=? 2 then y - 1 else y in
  let era := y' / 400 in
  let yoe := y' - era * 400 in
  let mp := if 2 <? m then m - 3 else m + 9 in
  let doy := (153 * mp + 2) / 5 + d - 1 in
  let doe := yoe * 365 + yoe / 4 - yoe / 100 + doy in
  era * 146097 + doe - 719468.

(** The Gregorian year that contains a given day number. *)
Definition yearOfDays (z : Z) : Z :=
  let z' := z + 719468 in
  let era := z' / 146097 in
  let doe := z' - era * 146097 in
  let yoe := (doe - doe / 1460 + doe / 36524 - doe / 146096) / 365 in
  let doy := doe - (365 * yoe + yoe / 4 - yoe / 100) in
  let mp := (5 * doy + 2) / 153 in
  let m := if mp <? 10 then mp + 3 else mp - 9 in
  yoe + era * 400 + (if m <=? 2 then 1 else 0).

Definition msPerDay : Z := 86400000.

(** [dayjs(t).year()] in a UTC host. *)
Definition yearOfInstant (t : Z) : Z := yearOfDays (t / msPerDay).

(** [dayjs(date).year(y)]: the year is replaced and the day of the month
    is clamped to the length of the month in the new year (Feb 29 becomes
    Feb 28 outside leap years). *)
Definition setYear (date : CivilDate) (y : Z) : CivilDate :=
  mkDate y (month date) (Z.min (day date) (daysInMonth y (month date))).

(** The wall-clock reading `${date}T${time}` as milliseconds, before any
    zone is applied. *)
Definition wallClockMs (date : CivilDate) (time : LocalTime) : Z :=
  daysFromCivil (year date) (month date) (day date) * msPerDay
  + hour time * 3600000 + minute time * 60000.

End Calendar.

Export Calendar.

(** ** Time resolver: utils/notify.ts *)

Section TimeResolver.

(** The IANA zone database of the host: [tzdb tz wall] is the UTC instant
    at which the clocks of zone [tz] read [wall]
    ([dayjs.tz(wall, tz).utc()]). *)
Variable tzdb : string → Z → Z.

(** `dayjs.tz(`${dayjs(date).year(y).format('YYYY-MM-DD')}T${time}`, tz)
      .utc().toISOString()`, for a [date] of the calendar (dayjs rolls
    a date off the calendar over before it sets the year). *)
Definition notifyUtcInYear (date : CivilDate) (y : Z) (tz : string)
    (time : LocalTime) : Z :=
  tzdb tz (wallClockMs (setYear date y) time).

(** [referenceTimeIso] is [None] when the argument is omitted (or empty),
    [Some None] when it is given but does not parse to a valid date and
    [Some (Some t)] when it parses to the instant [t]. [clockNow] is what
    [dayjs()] reads. *)
Definition computeNotifyUtc (birthday : CivilDate) (tz : string)
    (notifyLocalTime : LocalTime) (referenceTimeIso : option (option Z))
    (clockNow : Z) : Z :=
  let referenceTime :=
    match referenceTimeIso with
    | Some parsed => parsed
    | None => Some clockNow
    end in
  let now := match referenceTime with Some t => t | None => clockNow end in
  let year := yearOfInstant now in
  let notifyUtc := notifyUtcInYear birthday year tz notifyLocalTime in
  if notifyUtc <? now (* isBefore *)
  then notifyUtcInYear birthday (year + 1) tz notifyLocalTime
  else notifyUtc.

End TimeResolver.

(** Two zones without daylight saving, enough to run the resolver:
    UTC and Pacific/Kiritimati (UTC+14 all year). *)
Definition fixedZones (tz : string) (wall : Z) : Z :=
  if String.eqb tz "Pacific/Kiritimati" then wall - 14 * 3600000 else wall.

(** ** Data model: types.ts, constants/userEventNames.ts *)

Inductive UserEventName := birthday | anniversary.

Definition eventNameString (t : UserEventName) : string :=
  match t with birthday => "birthday" | anniversary => "anniversary" end.

Inductive MessageSendingStatus := pending | sending | completed | failed.

#[export] Instance MessageSendingStatus_eq_dec : EqDecision MessageSendingStatus.
Proof. solve_decision. Defined.

#[export] Instance UserEventName_eq_dec : EqDecision UserEventName.
Proof. solve_decision. Defined.

Module User.
Record t := mk {
  id : string;
  firstName : string;
  lastName : string;
  timezone : string;
  createdAt : Z;
  updatedAt : Z }.
End User.

Module UserEvent.
Record t := mk {
  type : UserEventName;
  date : CivilDate;
  notifyLocalTime : LocalTime;
  notifyUtc : Z;
  createdAt : Z;
  updatedAt : Z;
  lastSentYear : Z;
  label : option string }.
End UserEvent.

(** A stored DynamoDB item (without its key): the union of the attributes
    of the two shapes of [DynamoDBUserItem]. DynamoDB has no schema, so
    each attribute may be absent; the types are those of types.ts. *)
Module Item.
Record t := mk {
  data : option User.t;
  GSI1PK : option string;
  type : option UserEventName;
  date : option CivilDate;
  notifyLocalTime : option LocalTime;
  notifyUtc : option Z;
  lastSentYear : option Z;
  label : option string;
  sendingStatus : option MessageSendingStatus;
  sendingAttemptedAt : option Z;
  sendingCompletedAt : option Z;
  markedFailedAt : option Z;
  failureReason : option string;
  webhookResponseCode : option Z;
  webhookDeliveredAt : option Z;
  createdAt : option Z;
  updatedAt : option Z }.

Definition empty : t :=
  mk None None None None None None None None None None None None None None
     None None None.
End Item.

(** The primary key (PK, SK). *)
Abbreviation Key := (string * string)%type.

(** ** utils/flattenUserToDynamoDBItems.ts *)

Definition userPK (userId : string) : string := "USER#" +:+ userId.

Definition eventSK (ty : UserEventName) : string :=
  "EVENT#" +:+ eventNameString ty.

Definition metadataItem (user : User.t) : Key * Item.t :=
  ((userPK (User.id user), "METADATA"),
   Item.mk (Some user) None None None None None None None None None None
           None None None None None None).

Definition eventItem (user : User.t) (event : UserEvent.t) : Key * Item.t :=
  ((userPK (User.id user), eventSK (UserEvent.type event)),
   Item.mk None (Some "EVENT") (Some (UserEvent.type event))
     (Some (UserEvent.date event)) (Some (UserEvent.notifyLocalTime event))
     (Some (UserEvent.notifyUtc event)) (Some (UserEvent.lastSentYear event))
     (match UserEvent.label event with
      | Some l => if String.eqb l "" then None else Some l
      | None => None
      end)
     (Some pending) None None None None None None
     (Some (UserEvent.createdAt event)) (Some (UserEvent.updatedAt event))).

Definition flattenUserToDynamoDBItems (user : User.t)
    (events : list UserEvent.t) : list (Key * Item.t) :=
  metadataItem user :: map (eventItem user) events.

(** ** DynamoDB commands *)

(** One assignment of a `SET a = :v, ...` update expression. *)
Inductive SetAction :=
  | SetSendingStatus (s : MessageSendingStatus)
  | SetSendingAttemptedAt (t : Z)
  | SetSendingCompletedAt (t : Z)
  | SetMarkedFailedAt (t : Z)
  | SetFailureReason (r : string)
  | SetLastSentYear (y : Z)
  | SetNotifyUtc (t : Z)
  | SetWebhookResponseCode (c : Z)
  | SetWebhookDeliveredAt (t : Z)
  | SetUpdatedAt (t : Z).

(** The condition expressions the handlers use. *)
Inductive Condition :=
  | LastSentYearEq (y : Z)                               (* lastSentYear = :y *)
  | SendingStatusNotExists           (* attribute_not_exists(sendingStatus) *)
  | SendingStatusIn (l : list MessageSendingStatus) (* sendingStatus IN (..) *)
  | CondAnd (a b : Condition)
  | CondOr (a b : Condition).

Record UpdateInput := mkUpdate {
  updKey : Key;
  UpdateExpression : list SetAction;
  ConditionExpression : option Condition }.

Definition applySet (it : Item.t) (a : SetAction) : Item.t :=
  let '(Item.mk da gs ty dt nl nu ls lb st sa sc mf fr wc wd ca ua) := it in
  match a with
  | SetSendingStatus s => Item.mk da gs ty dt nl nu ls lb (Some s) sa sc mf fr wc wd ca ua
  | SetSendingAttemptedAt t => Item.mk da gs ty dt nl nu ls lb st (Some t) sc mf fr wc wd ca ua
  | SetSendingCompletedAt t => Item.mk da gs ty dt nl nu ls lb st sa (Some t) mf fr wc wd ca ua
  | SetMarkedFailedAt t => Item.mk da gs ty dt nl nu ls lb st sa sc (Some t) fr wc wd ca ua
  | SetFailureReason r => Item.mk da gs ty dt nl nu ls lb st sa sc mf (Some r) wc wd ca ua
  | SetLastSentYear y => Item.mk da gs ty dt nl nu (Some y) lb st sa sc mf fr wc wd ca ua
  | SetNotifyUtc t => Item.mk da gs ty dt nl (Some t) ls lb st sa sc mf fr wc wd ca ua
  | SetWebhookResponseCode c => Item.mk da gs ty dt nl nu ls lb st sa sc mf fr (Some c) wd ca ua
  | SetWebhookDeliveredAt t => Item.mk da gs ty dt nl nu ls lb st sa sc mf fr wc (Some t) ca ua
  | SetUpdatedAt t => Item.mk da gs ty dt nl nu ls lb st sa sc mf fr wc wd ca (Some t)
  end.

Definition applySets (it : Item.t) (l : list SetAction) : Item.t :=
  foldl applySet it l.

(** A condition is evaluated on the stored item; an absent attribute
    satisfies no comparison. *)
Fixpoint evalCondition (c : Condition) (it : Item.t) : bool :=
  match c with
  | LastSentYearEq y =>
      match Item.lastSentYear it with Some s => s =? y | None => false end
  | SendingStatusNotExists =>
      match Item.sendingStatus it with Some _ => false | None => true end
  | SendingStatusIn l =>
      match Item.sendingStatus it with
      | Some s => bool_decide (s ∈ l)
      | None => false
      end
  | CondAnd a b => evalCondition a it && evalCondition b it
  | CondOr a b => evalCondition a it || evalCondition b it
  end.

(** A row of the secondary index AllEventsIndex (GSI1PK, notifyUtc), with
    projection ALL: the event items of the shape of types.ts. *)
Module EventRow.
Record t := mk {
  PK : string;
  SK : string;
  type : UserEventName;
  date : CivilDate;
  notifyLocalTime : LocalTime;
  notifyUtc : Z;
  lastSentYear : option Z;
  sendingStatus : option MessageSendingStatus;
  sendingAttemptedAt : option Z }.
End EventRow.

Definition toEventRow (kv : Key * Item.t) : option EventRow.t :=
  let '((pk, sk), it) := kv in
  match Item.GSI1PK it, Item.type it, Item.date it,
        Item.notifyLocalTime it, Item.notifyUtc it with
  | Some gsi, Some ty, Some dt, Some nl, Some nu =>
      if String.eqb gsi "EVENT"
      then Some (EventRow.mk pk sk ty dt nl nu (Item.lastSentYear it)
                   (Item.sendingStatus it) (Item.sendingAttemptedAt it))
      else None
  | _, _, _, _, _ => None
  end.

Definition notifyUtc_le (a b : EventRow.t) : Prop :=
  EventRow.notifyUtc a ≤ EventRow.notifyUtc b.

#[export] Instance notifyUtc_le_dec : RelDecision notifyUtc_le.
Proof. intros a b. unfold notifyUtc_le. apply _. Defined.

(** The index partition "EVENT", ordered by its range key notifyUtc. *)
Definition indexView (table : gmap Key Item.t) : list EventRow.t :=
  merge_sort notifyUtc_le (omap toEventRow (map_to_list table)).

Inductive KeyCondition :=
  | NotifyUtcLe (now : Z)             (* GSI1PK = :pk AND notifyUtc <= :now *)
  | NotifyUtcBetween (lo hi : Z)  (* ... AND notifyUtc BETWEEN :lo AND :hi *)
  | WholePartition.                                       (* GSI1PK = :pk *)

Inductive FilterExpression :=
  (* attribute_not_exists(lastSentYear) OR lastSentYear < :year *)
  | NotSentIn (year : Z)
  (* (attribute_not_exists(lastSentYear) OR lastSentYear < :year) AND
     (attribute_not_exists(sendingStatus) OR sendingStatus <> :completed) *)
  | NotSentNotCompleted (year : Z)
  (* sendingStatus = :sending AND attribute_exists(sendingAttemptedAt) *)
  | SendingWithAttempt.

Record QueryInput := mkQuery {
  KeyConditionExpression : KeyCondition;
  qFilterExpression : FilterExpression;
  Limit : option nat;
  ExclusiveStartKey : option nat }.

Record QueryOutput := mkQueryOutput {
  Items : list EventRow.t;
  LastEvaluatedKey : option nat }.

Definition evalKeyCondition (k : KeyCondition) (r : EventRow.t) : bool :=
  match k with
  | NotifyUtcLe now => EventRow.notifyUtc r <=? now
  | NotifyUtcBetween lo hi =>
      (lo <=? EventRow.notifyUtc r) && (EventRow.notifyUtc r <=? hi)
  | WholePartition => true
  end.

Definition notSentIn (year : Z) (r : EventRow.t) : bool :=
  match EventRow.lastSentYear r with Some y => y <? year | None => true end.

Definition evalFilter (f : FilterExpression) (r : EventRow.t) : bool :=
  match f with
  | NotSentIn year => notSentIn year r
  | NotSentNotCompleted year =>
      notSentIn year r &&
      match EventRow.sendingStatus r with
      | Some s => negb (bool_decide (s = completed))
      | None => true
      end
  | SendingWithAttempt =>
      match EventRow.sendingStatus r, EventRow.sendingAttemptedAt r with
      | Some s, Some _ => bool_decide (s = sending)
      | _, _ => false
      end
  end.

(** Query semantics: the key condition selects a range of the index, the
    cursor and the limit cut a page out of it, the filter is applied to
    the page; a cursor is returned when the limit stopped the read. The
    cursor (a key in DynamoDB) is the position in the selected range.
    (A page also ends where 1 MB has been read; that bound is not
    modelled, so that a query without a limit returns its whole
    range.) *)
Definition runQuery (table : gmap Key Item.t) (q : QueryInput) : QueryOutput :=
  let range := filter (λ r, evalKeyCondition (KeyConditionExpression q) r = true)
                 (indexView table) in
  let start := default 0%nat (ExclusiveStartKey q) in
  let rest := drop start range in
  match Limit q with
  | Some n =>
      mkQueryOutput
        (filter (λ r, evalFilter (qFilterExpression q) r = true) (take n rest))
        (if (n <=? length rest)%nat then Some (start + n)%nat else None)
  | None =>
      mkQueryOutput
        (filter (λ r, evalFilter (qFilterExpression q) r = true) rest) None
  end.

(** ** Queue messages: queues/greeter.ts *)

(** [GreeterMessage = User & {...}]; the JSON body of a queue message is
    kept as the record it serialises. *)
Module GreeterMessage.
Record t := mk {
  user : User.t;
  pk : string;
  sk : string;
  eventType : UserEventName;
  eventDate : CivilDate;
  notifyLocalTime : LocalTime;
  lastSentYear : Z;
  yearNow : Z }.
End GreeterMessage.

(** A message held by an SQS FIFO queue, as [ReceiveMessage] returns it. *)
Module SqsMessage.
Record t := mk {
  Body : GreeterMessage.t;
  ReceiptHandle : string;
  MessageGroupId : option string;
  MessageDeduplicationId : option string }.
End SqsMessage.

Record SendMessageInput := mkSend {
  QueueUrl : string;
  MessageBody : GreeterMessage.t;
  sendMessageGroupId : string;
  sendMessageDeduplicationId : string }.

(** ** Outbound HTTP *)

Inductive HttpBody :=
  | GreetingBody (message : string)
  | HealthPingBody (message : string) (timestamp : Z) (test : bool).

Record HttpRequest := mkRequest {
  url : string;
  method : string;
  headers : list (string * string);
  body : HttpBody }.

(** ** Effects, environment, world *)

(** What a handler does to the outside, in the order it does it. *)
Inductive Effect :=
  | DdbGet (k : Key)
  | DdbQuery (q : QueryInput)
  | DdbUpdate (u : UpdateInput)
  | SqsGetQueueUrl (queueName : string)
  | SqsGetQueueAttributes (queueUrl : string)
  | SqsReceiveMessage (queueUrl : string) (maxNumberOfMessages : Z)
  | SqsSendMessage (m : SendMessageInput)
  | SqsDeleteMessage (queueUrl : string) (receiptHandle : string)
  | Fetch (r : HttpRequest).

Inductive Exn :=
  | ConditionalCheckFailedException
  | ServiceException (message : string)   (* throttling, timeouts, ... *)
  | NetworkError (message : string)       (* fetch rejected *)
  | Error (message : string).             (* new Error(message) *)

(** What the handlers do not control. The oracles are indexed by the
    number of interactions the process has made so far ([ops]). *)
Record Env := mkEnv {
  HOOKBIN_URL : string;
  GREETER_QUEUE_NAME : string;
  DLQ_QUEUE_NAME : string;
  clock : nat → Z;                       (* Date.now() *)
  random : nat → string;                 (* Math.random(), printed *)
  tzdb : string → Z → Z;                 (* the IANA zones, see above *)
  ddbFault : nat → option string;        (* DynamoDB call rejected *)
  sqsFault : nat → option string;        (* SQS call rejected *)
  queueUrlOf : string → option string;   (* SQS name resolution *)
  hookbin : nat → option Z }.            (* reply status; None: no reply *)

Record World := mkWorld {
  table : gmap Key Item.t;                    (* USERS_TABLE *)
  queues : gmap string (list SqsMessage.t);   (* by queue URL *)
  cachedQueueUrls : gmap string string;       (* lib/sqs.ts *)
  ops : nat }.

Definition bump (w : World) : World :=
  mkWorld (table w) (queues w) (cachedQueueUrls w) (S (ops w)).

Definition setTable (t : gmap Key Item.t) (w : World) : World :=
  mkWorld t (queues w) (cachedQueueUrls w) (ops w).

Definition setQueues (q : gmap string (list SqsMessage.t)) (w : World) : World :=
  mkWorld (table w) q (cachedQueueUrls w) (ops w).

Definition setCachedQueueUrls (c : gmap string string) (w : World) : World :=
  mkWorld (table w) (queues w) c (ops w).

(** ** The monad of handlers: state, exceptions, effect log *)

Inductive Res (A : Type) :=
  | Ok (a : A)
  | Throw (e : Exn).
Arguments Ok {A} a.
Arguments Throw {A} e.

Record Run (A : Type) := mkRun {
  result : Res A;
  final : World;
  effects : list Effect }.
Arguments mkRun {A} _ _ _.
Arguments result {A} _.
Arguments final {A} _.
Arguments effects {A} _.

Definition M (A : Type) : Type := World → Run A.

#[export] Instance M_ret : MRet M := λ A a w, mkRun (Ok a) w [].

#[export] Instance M_bind : MBind M := λ A B f m w,
  let r := m w in
  match result r with
  | Ok a =>
      let r' := f a (final r) in
      mkRun (result r') (final r') (effects r ++ effects r')
  | Throw e => mkRun (Throw e) (final r) (effects r)
  end.

Definition throw {A} (e : Exn) : M A := λ w, mkRun (Throw e) w [].

(** [try { m } catch (e) { h e }] *)
Definition tryCatch {A} (m : M A) (h : Exn → M A) : M A := λ w,
  let r := m w in
  match result r with
  | Ok a => r
  | Throw e =>
      let r' := h e (final r) in
      mkRun (result r') (final r') (effects r ++ effects r')
  end.

(** [try { m } catch (e) { console.error(e) }] *)
Definition bestEffort {A} (m : M A) : M unit :=
  tryCatch (_ ← m; mret tt) (λ _, mret tt).

Section Primitives.

Variable env : Env.

(** [Date.now()], [new Date()], [dayjs()] *)
Definition dateNow : M Z := λ w, mkRun (Ok (clock env (ops w))) (bump w) [].

(** [new Date().getFullYear()] *)
Definition getFullYear : M Z := t ← dateNow; mret (yearOfInstant t).

Definition mathRandom : M string :=
  λ w, mkRun (Ok (random env (ops w))) (bump w) [].

(** [dynamoClient.send(new GetCommand({ Key }))], giving [Item] *)
Definition ddbGetItem (k : Key) : M (option Item.t) := λ w,
  match ddbFault env (ops w) with
  | Some msg => mkRun (Throw (ServiceException msg)) (bump w) [DdbGet k]
  | None => mkRun (Ok (table w !! k)) (bump w) [DdbGet k]
  end.

(** [dynamoClient.send(new QueryCommand(q))] *)
Definition ddbQuery (q : QueryInput) : M QueryOutput := λ w,
  match ddbFault env (ops w) with
  | Some msg => mkRun (Throw (ServiceException msg)) (bump w) [DdbQuery q]
  | None => mkRun (Ok (runQuery (table w) q)) (bump w) [DdbQuery q]
  end.

(** [dynamoClient.send(new UpdateCommand(u))]: the condition is checked
    against the stored item (an item that does not exist has no
    attribute) and the assignments are applied in the same step; the new
    item is returned. *)
Definition ddbUpdateItem (u : UpdateInput) : M Item.t := λ w,
  match ddbFault env (ops w) with
  | Some msg => mkRun (Throw (ServiceException msg)) (bump w) [DdbUpdate u]
  | None =>
      let stored := default Item.empty (table w !! updKey u) in
      if match ConditionExpression u with
         | Some c => evalCondition c stored
         | None => true
         end
      then
        let new := applySets stored (UpdateExpression u) in
        mkRun (Ok new) (bump (setTable (<[updKey u := new]> (table w)) w))
              [DdbUpdate u]
      else mkRun (Throw ConditionalCheckFailedException) (bump w) [DdbUpdate u]
  end.

(** [sqsClient.send(new GetQueueUrlCommand({ QueueName }))] *)
Definition sqsGetQueueUrl (queueName : string) : M string := λ w,
  match sqsFault env (ops w) with
  | Some msg =>
      mkRun (Throw (ServiceException msg)) (bump w) [SqsGetQueueUrl queueName]
  | None =>
      match queueUrlOf env queueName with
      | Some u => mkRun (Ok u) (bump w) [SqsGetQueueUrl queueName]
      | None => mkRun (Throw (ServiceException "QueueDoesNotExist")) (bump w)
                      [SqsGetQueueUrl queueName]
      end
  end.

(** [GetQueueAttributesCommand] for ApproximateNumberOfMessages: the
    attribute, when the queue exists. *)
Definition sqsGetQueueAttributes (queueUrl : string) : M (option nat) := λ w,
  match sqsFault env (ops w) with
  | Some msg => mkRun (Throw (ServiceException msg)) (bump w)
                      [SqsGetQueueAttributes queueUrl]
  | None =>
      match queues w !! queueUrl with
      | Some q => mkRun (Ok (Some (length q))) (bump w)
                        [SqsGetQueueAttributes queueUrl]
      | None => mkRun (Throw (ServiceException "QueueDoesNotExist")) (bump w)
                      [SqsGetQueueAttributes queueUrl]
      end
  end.

(** [ReceiveMessageCommand]: up to [maxNumberOfMessages] messages from the
    head of the queue; they stay in the queue until deleted. *)
Definition sqsReceiveMessage (queueUrl : string) (maxNumberOfMessages : Z)
    : M (list SqsMessage.t) := λ w,
  match sqsFault env (ops w) with
  | Some msg => mkRun (Throw (ServiceException msg)) (bump w)
                      [SqsReceiveMessage queueUrl maxNumberOfMessages]
  | None =>
      match queues w !! queueUrl with
      | Some q => mkRun (Ok (take (Z.to_nat maxNumberOfMessages) q)) (bump w)
                        [SqsReceiveMessage queueUrl maxNumberOfMessages]
      | None => mkRun (Throw (ServiceException "QueueDoesNotExist")) (bump w)
                      [SqsReceiveMessage queueUrl maxNumberOfMessages]
      end
  end.

(** [SendMessageCommand]: the message joins the tail of the queue, with a
    fresh receipt handle. (The deduplication window of the transport is
    not modelled: both copies are kept.) *)
Definition sqsSendMessage (m : SendMessageInput) : M unit := λ w,
  match sqsFault env (ops w) with
  | Some msg => mkRun (Throw (ServiceException msg)) (bump w) [SqsSendMessage m]
  | None =>
      match queues w !! QueueUrl m with
      | Some q =>
          let stored :=
            SqsMessage.mk (MessageBody m) ("rh-" +:+ pretty (ops w))
              (Some (sendMessageGroupId m))
              (Some (sendMessageDeduplicationId m)) in
          mkRun (Ok tt)
                (bump (setQueues (<[QueueUrl m := q ++ [stored]]> (queues w)) w))
                [SqsSendMessage m]
      | None => mkRun (Throw (ServiceException "QueueDoesNotExist")) (bump w)
                      [SqsSendMessage m]
      end
  end.

(** [DeleteMessageCommand] *)
Definition sqsDeleteMessage (queueUrl receiptHandle : string) : M unit := λ w,
  match sqsFault env (ops w) with
  | Some msg => mkRun (Throw (ServiceException msg)) (bump w)
                      [SqsDeleteMessage queueUrl receiptHandle]
  | None =>
      match queues w !! queueUrl with
      | Some q =>
          let kept :=
            filter (λ m, SqsMessage.ReceiptHandle m ≠ receiptHandle) q in
          mkRun (Ok tt) (bump (setQueues (<[queueUrl := kept]> (queues w)) w))
                [SqsDeleteMessage queueUrl receiptHandle]
      | None => mkRun (Throw (ServiceException "QueueDoesNotExist")) (bump w)
                      [SqsDeleteMessage queueUrl receiptHandle]
      end
  end.

(** [fetch(url, {...})], giving [response.status] *)
Definition fetch (r : HttpRequest) : M Z := λ w,
  match hookbin env (ops w) with
  | Some status => mkRun (Ok status) (bump w) [Fetch r]
  | None => mkRun (Throw (NetworkError "fetch failed")) (bump w) [Fetch r]
  end.

End Primitives.

Section Handlers.

Variable env : Env.

(** ** lib/sqs.ts *)

(** [cachedQueueUrls.get(queueName)] and [cachedQueueUrls.set(..)] *)
Definition cacheGet (queueName : string) : M (option string) :=
  λ w, mkRun (Ok (cachedQueueUrls w !! queueName)) w [].

Definition cacheSet (queueName resolvedUrl : string) : M unit :=
  λ w, mkRun (Ok tt)
         (setCachedQueueUrls (<[queueName := resolvedUrl]> (cachedQueueUrls w)) w)
         [].

Definition resolveQueueUrl (queueName : string) : M string :=
  resolvedUrl ← sqsGetQueueUrl env queueName;
  _ ← cacheSet queueName resolvedUrl;
  mret resolvedUrl.

Definition getQueueUrl (queueName : string) : M string :=
  cached ← cacheGet queueName;
  match cached with
  | Some u => if negb (String.eqb u "") then mret u else resolveQueueUrl queueName
  | None => resolveQueueUrl queueName
  end.

(** [parseInt(result.Attributes?.ApproximateNumberOfMessages || '0')] *)
Definition parseCount (attribute : option nat) : Z :=
  match attribute with Some n => Z.of_nat n | None => 0 end.

(** The [try] block of [getMessageCount]. *)
Definition queryMessageCount (queueName : string) : M Z :=
  queueUrl ← getQueueUrl queueName;
  attribute ← sqsGetQueueAttributes env queueUrl;
  mret (parseCount attribute).

Definition getMessageCount (queueName : string) : M Z :=
  tryCatch (queryMessageCount queueName) (λ _, mret 0).

(** ** queues/greeter.ts *)

Record EnqueueEvent := mkEnqueueEvent {
  evPk : string;
  evSk : string;
  evType : UserEventName;
  evDate : CivilDate;
  evNotifyLocalTime : LocalTime;
  evLastSentYear : option Z }.

(** `${user.id}-${event.type}-${yearNow}` *)
Definition messageDeduplicationId (user : User.t) (ty : UserEventName)
    (yearNow : Z) : string :=
  User.id user +:+ "-" +:+ eventNameString ty +:+ "-" +:+ pretty yearNow.

Definition greeterMessage (user : User.t) (event : EnqueueEvent) (yearNow : Z)
    : GreeterMessage.t :=
  GreeterMessage.mk user (evPk event) (evSk event) (evType event)
    (evDate event) (evNotifyLocalTime event)
    (default 0 (evLastSentYear event)) yearNow.

Definition greeterSend (queueUrl : string) (user : User.t)
    (event : EnqueueEvent) (yearNow : Z) : SendMessageInput :=
  mkSend queueUrl (greeterMessage user event yearNow)
         (eventNameString (evType event))
         (messageDeduplicationId user (evType event) yearNow).

Definition enqueueGreeterMessage (user : User.t) (event : EnqueueEvent)
    : M unit :=
  yearNow ← getFullYear env;
  queueUrl ← getQueueUrl (GREETER_QUEUE_NAME env);
  sqsSendMessage env (greeterSend queueUrl user event yearNow).

(** ** handlers/sender.ts *)

(** [STUCK_TIMEOUT_MS] of sender.ts: 5 minutes. *)
Definition STUCK_TIMEOUT_MS : Z := 5 * 60 * 1000.

(** How the loop body left a record: the [continue] it took, or the end
    of the body. *)
Inductive RecordOutcome :=
  | EventNotFound        (* "not found in database, skipping" *)
  | AlreadyCompleted     (* "already sent and completed ... Skipping duplicate." *)
  | BeingProcessed       (* "currently being processed by another Lambda" *)
  | ClaimLost            (* "Failed to claim message ... Another process already claimed it" *)
  | DuplicatePrevented   (* outer catch: "Duplicate message prevented" *)
  | Sent.                (* the end of the body is reached *)

Definition fullName (message : GreeterMessage.t) : string :=
  User.firstName (GreeterMessage.user message) +:+ " " +:+
  User.lastName (GreeterMessage.user message).

Definition messageKey (message : GreeterMessage.t) : Key :=
  (GreeterMessage.pk message, GreeterMessage.sk message).

Definition stuckFailureReason : string :=
  "Stuck in sending state - likely webhook timeout or Lambda crash".

Definition markStuckUpdate (message : GreeterMessage.t) (now : Z) : UpdateInput :=
  mkUpdate (messageKey message)
    [SetSendingStatus failed; SetMarkedFailedAt now;
     SetFailureReason stuckFailureReason; SetUpdatedAt now]
    None.

(** "lastSentYear = :currentLastSentYear AND
     (attribute_not_exists(sendingStatus) OR sendingStatus IN (:pending, :failed))" *)
Definition claimCondition (currentLastSentYear : Z) : Condition :=
  CondAnd (LastSentYearEq currentLastSentYear)
          (CondOr SendingStatusNotExists (SendingStatusIn [pending; failed])).

Definition claimUpdate (message : GreeterMessage.t) (currentLastSentYear : Z)
    (nextNotifyUtc now : Z) : UpdateInput :=
  mkUpdate (messageKey message)
    [SetSendingStatus sending; SetSendingAttemptedAt now;
     SetLastSentYear (GreeterMessage.yearNow message);
     SetNotifyUtc nextNotifyUtc; SetUpdatedAt now]
    (Some (claimCondition currentLastSentYear)).

Definition webhookFailedUpdate (message : GreeterMessage.t) (now : Z) : UpdateInput :=
  mkUpdate (messageKey message) [SetSendingStatus failed; SetUpdatedAt now] None.

Definition completedUpdate (message : GreeterMessage.t) (status now deliveredAt : Z)
    : UpdateInput :=
  mkUpdate (messageKey message)
    [SetSendingStatus completed; SetSendingCompletedAt now;
     SetWebhookResponseCode status; SetWebhookDeliveredAt deliveredAt;
     SetUpdatedAt now]
    None.

(** `${pk}-${eventType}-${yearNow}` *)
Definition idempotencyKey (message : GreeterMessage.t) : string :=
  GreeterMessage.pk message +:+ "-" +:+
  eventNameString (GreeterMessage.eventType message) +:+ "-" +:+
  pretty (GreeterMessage.yearNow message).

Definition webhookRequest (message : GreeterMessage.t) : HttpRequest :=
  mkRequest (HOOKBIN_URL env) "POST"
    [("Content-Type", "application/json");
     ("Idempotency-Key", idempotencyKey message)]
    (GreetingBody ("Hey " +:+ fullName message +:+ ", it's your " +:+
                   eventNameString (GreeterMessage.eventType message) +:+ "!")).

(** Next year's notification instant, computed before the claim. *)
Definition nextNotifyUtc (message : GreeterMessage.t) : Z :=
  notifyUtcInYear (tzdb env) (GreeterMessage.eventDate message)
    (GreeterMessage.yearNow message + 1)
    (User.timezone (GreeterMessage.user message))
    (GreeterMessage.notifyLocalTime message).

(** The stuck check (sender.ts, "Check if stuck in 'sending' state"):
    [true] when the body leaves by [continue]. *)
Definition stuckCheck (message : GreeterMessage.t)
    (currentSendingStatus : option MessageSendingStatus)
    (sendingAttemptedAt : option Z) : M bool :=
  match currentSendingStatus, sendingAttemptedAt with
  | Some sending, Some attemptedAt =>
      nowMs ← dateNow env;
      let elapsedMs := nowMs - attemptedAt in
      if elapsedMs <? STUCK_TIMEOUT_MS then mret true
      else
        _ ← bestEffort (now ← dateNow env;
                        ddbUpdateItem env (markStuckUpdate message now));
        mret false
  | _, _ => mret false
  end.

(** PHASE 1: [true] when the claim was written, [false] when the
    condition failed; any other failure is rethrown. *)
Definition claimPhase (message : GreeterMessage.t) (currentLastSentYear : Z)
    : M bool :=
  tryCatch
    (now ← dateNow env;
     _ ← ddbUpdateItem env
           (claimUpdate message currentLastSentYear (nextNotifyUtc message) now);
     mret true)
    (λ claimError,
       match claimError with
       | ConditionalCheckFailedException => mret false
       | _ => throw claimError
       end).

(** PHASE 2 and PHASE 3 *)
Definition deliverPhase (message : GreeterMessage.t) : M RecordOutcome :=
  status ← fetch env (webhookRequest message);
  if negb (status =? 200) then
    _ ← bestEffort (now ← dateNow env;
                    ddbUpdateItem env (webhookFailedUpdate message now));
    throw (Error ("Failed to send message to Hookbin for user " +:+ fullName message))
  else
    _ ← bestEffort (now ← dateNow env;
                    deliveredAt ← dateNow env;
                    ddbUpdateItem env (completedUpdate message status now deliveredAt));
    mret Sent.

(** The three phases in sequence: what the body does once the checks of
    the loaded record let it through. *)
Definition claimAndDeliver (message : GreeterMessage.t)
    (currentLastSentYear : Z) : M RecordOutcome :=
  claimed ← claimPhase message currentLastSentYear;
  if claimed : bool then deliverPhase message
  else mret ClaimLost.

(** The body of [for (const record of event.Records)]. *)
Definition senderRecord (message : GreeterMessage.t) : M RecordOutcome :=
  tryCatch
    (getEventResult ← ddbGetItem env (messageKey message);
     match getEventResult with
     | None => mret EventNotFound
     | Some currentEvent =>
         let currentLastSentYear := default 0 (Item.lastSentYear currentEvent) in
         let currentSendingStatus := Item.sendingStatus currentEvent in
         let sendingAttemptedAt := Item.sendingAttemptedAt currentEvent in
         if (GreeterMessage.yearNow message <=? currentLastSentYear)
            && bool_decide (currentSendingStatus = Some completed)
         then mret AlreadyCompleted
         else
           skip ← stuckCheck message currentSendingStatus sendingAttemptedAt;
           if skip : bool then mret BeingProcessed
           else claimAndDeliver message currentLastSentYear
     end)
    (λ err,
       match err with
       | ConditionalCheckFailedException => mret DuplicatePrevented
       | _ => throw err
       end).

Fixpoint sender (records : list GreeterMessage.t) : M (list RecordOutcome) :=
  match records with
  | [] => mret []
  | record :: rest =>
      outcome ← senderRecord record;
      outcomes ← sender rest;
      mret (outcome :: outcomes)
  end.

(** ** handlers/scheduler.ts *)

Record SchedulerCounters := mkCounters {
  totalUsersProcessed : Z;
  totalEnqueueFailures : Z;
  totalPages : Z }.

Record SchedulerResponse := mkSchedulerResponse {
  schedStatusCode : Z;
  schedMessage : string;
  totalUsers : Z;
  respTotalPages : Z;
  enqueueFailures : Z }.

Definition dueQuery (nowUtc currentYear : Z) (lastEvaluatedKey : option nat)
    : QueryInput :=
  mkQuery (NotifyUtcLe nowUtc) (NotSentIn currentYear) (Some 100%nat)
          lastEvaluatedKey.

(** The body of the inner [try]: [false] when the user metadata is
    missing and the item is skipped by [continue]. *)
Definition scheduleItem (eventItem : EventRow.t) : M bool :=
  metadataResult ← ddbGetItem env (EventRow.PK eventItem, "METADATA");
  match metadataResult ≫= Item.data with
  | None => mret false
  | Some userData =>
      _ ← enqueueGreeterMessage userData
            (mkEnqueueEvent (EventRow.PK eventItem) (EventRow.SK eventItem)
               (EventRow.type eventItem) (EventRow.date eventItem)
               (EventRow.notifyLocalTime eventItem)
               (Some (default 0 (EventRow.lastSentYear eventItem))));
      mret true
  end.

Fixpoint schedulePage (events : list EventRow.t) (c : SchedulerCounters)
    : M SchedulerCounters :=
  match events with
  | [] => mret c
  | eventItem :: rest =>
      c' ← tryCatch
             (enqueued ← scheduleItem eventItem;
              mret (if enqueued : bool
                    then mkCounters (totalUsersProcessed c + 1)
                           (totalEnqueueFailures c) (totalPages c)
                    else c))
             (λ _, mret (mkCounters (totalUsersProcessed c)
                           (totalEnqueueFailures c + 1) (totalPages c)));
      schedulePage rest c'
  end.

(** The [do { ... } while (lastEvaluatedKey)] loop; [fuel] bounds the
    number of pages and [None] is returned when it runs out. A failed
    page read is rethrown; the handler of the second [try] is never
    entered, since processing a page does not throw. *)
Fixpoint schedulerLoop (fuel : nat) (nowUtc currentYear : Z)
    (lastEvaluatedKey : option nat) (c : SchedulerCounters)
    : M (option SchedulerCounters) :=
  match fuel with
  | O => mret None
  | S fuel' =>
      let c1 := mkCounters (totalUsersProcessed c) (totalEnqueueFailures c)
                           (totalPages c + 1) in
      result ← tryCatch (ddbQuery env (dueQuery nowUtc currentYear lastEvaluatedKey))
                        (λ err, throw err);
      c2 ← tryCatch (schedulePage (Items result) c1) (λ _, mret c1);
      match LastEvaluatedKey result with
      | Some k => schedulerLoop fuel' nowUtc currentYear (Some k) c2
      | None => mret (Some c2)
      end
  end.

Definition schedulerFrom (fuel : nat) : M (option SchedulerResponse) :=
  nowUtc ← dateNow env;
  currentYear ← getFullYear env;
  finished ← schedulerLoop fuel nowUtc currentYear None (mkCounters 0 0 0);
  mret (c ← finished;
        Some (mkSchedulerResponse 200 "Scheduler finished"
                (totalUsersProcessed c) (totalPages c) (totalEnqueueFailures c))).

(** One sweep. Every page but the last reads 100 rows of the index, so
    one more page than there are rows is always enough. *)
Definition scheduler : M (option SchedulerResponse) :=
  λ w, schedulerFrom (S (length (indexView (table w)))) w.

(** ** handlers/dlqProcessor.ts *)

Record DLQStats := mkStats {
  messagesInDLQ : Z;
  messagesProcessed : Z;
  messagesRedriven : Z;
  messagesFailed : Z;
  isServiceHealthy : bool }.

Record DlqResponse := mkDlqResponse {
  dlqStatusCode : Z;
  dlqMessage : string;
  dlqError : option string;
  dlqStats : DLQStats }.

Definition healthPing (timestamp : Z) : HttpRequest :=
  mkRequest (HOOKBIN_URL env) "POST" [("Content-Type", "application/json")]
    (HealthPingBody "Health check from DLQ processor" timestamp true).

Definition checkServiceHealth : M bool :=
  tryCatch
    (timestamp ← dateNow env;
     status ← fetch env (healthPing timestamp);
     mret (status =? 200))
    (λ _, mret false).

(** [s || fallback] on an optional string: absent and empty are falsy. *)
Definition truthy (s : option string) : option string :=
  match s with
  | Some v => if String.eqb v "" then None else Some v
  | None => None
  end.

Definition redriveOne (dlqUrl greeterQueueUrl : string) (message : SqsMessage.t)
    : M unit :=
  let group := default "birthday" (truthy (SqsMessage.MessageGroupId message)) in
  dedup ← match truthy (SqsMessage.MessageDeduplicationId message) with
          | Some d => mret d
          | None =>
              t ← dateNow env;
              r ← mathRandom env;
              mret ("redrive-" +:+ pretty t +:+ "-" +:+ r)
          end;
  _ ← sqsSendMessage env
        (mkSend greeterQueueUrl (SqsMessage.Body message) group dedup);
  sqsDeleteMessage env dlqUrl (SqsMessage.ReceiptHandle message).

Fixpoint redriveLoop (dlqUrl greeterQueueUrl : string)
    (messages : list SqsMessage.t) (redrivenCount failedCount : Z)
    : M (Z * Z) :=
  match messages with
  | [] => mret (redrivenCount, failedCount)
  | message :: rest =>
      ok ← tryCatch (_ ← redriveOne dlqUrl greeterQueueUrl message; mret true)
                    (λ _, mret false);
      if ok : bool
      then redriveLoop dlqUrl greeterQueueUrl rest (redrivenCount + 1) failedCount
      else redriveLoop dlqUrl greeterQueueUrl rest redrivenCount (failedCount + 1)
  end.

(** The handler of the outer [try] is entered only before the loop
    starts (the loop body catches its own failures), with both counters
    still 0. *)
Definition redriveMessages (maxMessages : Z) : M (Z * Z) :=
  tryCatch
    (dlqUrl ← getQueueUrl (DLQ_QUEUE_NAME env);
     greeterQueueUrl ← getQueueUrl (GREETER_QUEUE_NAME env);
     messages ← sqsReceiveMessage env dlqUrl maxMessages;
     redriveLoop dlqUrl greeterQueueUrl messages 0 0)
    (λ _, mret (0, 0)).

(** The [try] block of [dlqProcessor]. *)
Definition dlqProcess : M DlqResponse :=
  count ← getMessageCount (DLQ_QUEUE_NAME env);
  if count =? 0 then
    mret (mkDlqResponse 200 "DLQ is empty" None (mkStats count 0 0 0 false))
  else
    healthy ← checkServiceHealth;
    if negb healthy then
      mret (mkDlqResponse 200 "Service unhealthy, redrive skipped" None
              (mkStats count 0 0 0 healthy))
    else
      let maxMessagesToProcess := Z.min count 10 in
      '(redriven, failedCount) ← redriveMessages maxMessagesToProcess;
      mret (mkDlqResponse 200 "DLQ processing completed" None
              (mkStats count (redriven + failedCount) redriven failedCount
                 healthy)).

(** The handler is never entered (none of the three steps throws); the
    statistics it would report are those gathered so far. *)
Definition dlqProcessor : M DlqResponse :=
  tryCatch dlqProcess
    (λ error,
       mret (mkDlqResponse 500 "DLQ Processor failed"
               (Some match error with
                     | ServiceException m | NetworkError m | Error m => m
                     | ConditionalCheckFailedException =>
                         "The conditional request failed"
                     end)
               (mkStats 0 0 0 0 false))).

(** ** handlers/healthCheck.ts *)

(** [STUCK_TIMEOUT_MS] of healthCheck.ts: 10 minutes, longer than the
    sender's 5. *)
Definition MONITOR_STUCK_TIMEOUT_MS : Z := 10 * 60 * 1000.

Record MissedEvent := mkMissed {
  missedUserId : string;
  missedEventType : UserEventName;
  missedEventDate : CivilDate;
  scheduledNotifyUtc : Z;
  missedLastSentYear : Z;
  hoursOverdueTenths : Z;       (* Math.round(hoursOverdue * 10), in tenths *)
  missedSendingStatus : option MessageSendingStatus }.

Inductive StuckAction := monitoring | marked_failed_for_retry.

Record StuckEvent := mkStuck {
  stuckUserId : string;
  stuckEventType : UserEventName;
  stuckEventDate : CivilDate;
  stuckSendingStatus : MessageSendingStatus;
  stuckSendingAttemptedAt : option Z;
  minutesStuck : option Z;      (* None: NaN *)
  action : StuckAction }.

Inductive HealthStatus := healthy | warning | critical.

Record HealthCheckResult := mkHealth {
  status : HealthStatus;
  missedEventsCount : nat;
  stuckEventsCount : nat;
  missedEvents : list MissedEvent;
  stuckEvents : list StuckEvent;
  timestamp : Z }.

Inductive HealthBody :=
  | HealthReport (r : HealthCheckResult)
  | HealthError (message : string) (timestamp : Z).   (* status: 'error' *)

Record HealthResponse := mkHealthResponse {
  healthStatusCode : Z;
  healthBody : HealthBody }.

(** [Math.round(n / d)] for a positive [d]: halves round up. *)
Definition roundDiv (n d : Z) : Z := (2 * n + d) / (2 * d).

Definition toMissedEvent (now : Z) (event : EventRow.t) : MissedEvent :=
  mkMissed (EventRow.PK event) (EventRow.type event) (EventRow.date event)
    (EventRow.notifyUtc event) (default 0 (EventRow.lastSentYear event))
    (roundDiv (now - EventRow.notifyUtc event) 360000)
    (EventRow.sendingStatus event).

Definition stuckFailureReasonMonitor : string :=
  "Stuck in sending state detected by health check - likely webhook timeout or Lambda crash".

Definition monitorFailedUpdate (event : EventRow.t) (nowIso : Z) : UpdateInput :=
  mkUpdate (EventRow.PK event, EventRow.SK event)
    [SetSendingStatus failed; SetMarkedFailedAt nowIso;
     SetFailureReason stuckFailureReasonMonitor; SetUpdatedAt nowIso]
    None.

Definition stuckEventOf (event : EventRow.t) (nowMs : Z) (a : StuckAction)
    : StuckEvent :=
  mkStuck (EventRow.PK event) (EventRow.type event) (EventRow.date event)
    sending (EventRow.sendingAttemptedAt event)
    (attemptedAt ← EventRow.sendingAttemptedAt event;
     Some (roundDiv (nowMs - attemptedAt) 60000))
    a.

Fixpoint checkStuck (events : list EventRow.t) (nowMs : Z)
    (stuckEvents : list StuckEvent) : M (list StuckEvent) :=
  match events with
  | [] => mret stuckEvents
  | event :: rest =>
      let tooLong :=
        match EventRow.sendingAttemptedAt event with
        | Some attemptedAt => MONITOR_STUCK_TIMEOUT_MS <? nowMs - attemptedAt
        | None => false
        end in
      a ← (if tooLong
           then tryCatch
                  (_ ← ddbUpdateItem env (monitorFailedUpdate event nowMs);
                   mret marked_failed_for_retry)
                  (λ _, mret monitoring)
           else mret monitoring);
      checkStuck rest nowMs (stuckEvents ++ [stuckEventOf event nowMs a])
  end.

Definition classify (totalIssues : nat) : HealthStatus :=
  if ((0 <? totalIssues) && (totalIssues <? 5))%nat then warning
  else if (5 <=? totalIssues)%nat then critical
  else healthy.

Definition missedQuery (now currentYear : Z) : QueryInput :=
  mkQuery (NotifyUtcBetween (now - 24 * 3600000) now)
          (NotSentNotCompleted currentYear) None None.

Definition stuckQuery : QueryInput :=
  mkQuery WholePartition SendingWithAttempt None None.

(** The [try] block of [healthCheck]: the two checks and the report. *)
Definition healthReport (currentYear now : Z) : M HealthResponse :=
  missedResult ← ddbQuery env (missedQuery now currentYear);
  let missed := map (toMissedEvent now) (Items missedResult) in
  stuckResult ← ddbQuery env stuckQuery;
  stuck ← checkStuck (Items stuckResult) now [];
  let missedCount := length missed in
  let stuckCount := length stuck in
  let totalIssues := (missedCount + stuckCount)%nat in
  let status := classify totalIssues in
  mret (mkHealthResponse
          (match status with healthy => 200 | warning => 207 | critical => 500 end)
          (HealthReport (mkHealth status missedCount stuckCount missed stuck now))).

Definition healthCheck : M HealthResponse :=
  currentYear ← getFullYear env;
  now ← dateNow env;
  tryCatch
    (healthReport currentYear now)
    (λ error,
       mret (mkHealthResponse 500
               (HealthError match error with
                            | ServiceException m | NetworkError m | Error m => m
                            | ConditionalCheckFailedException =>
                                "The conditional request failed"
                            end now))).

End Handlers.

(** ** Concrete environments and worlds (scenario S1 of the design) *)

Module Scenario.

(** 2026-06-15T09:00:00.000Z *)
Definition t0 : Z := 1781514000000.

Definition greeterUrl : string := "https://sqs.test/GreeterQueue.fifo".
Definition dlqUrl : string := "https://sqs.test/GreeterDLQ.fifo".

(** No fault anywhere; the webhook answers [reply]; the clock advances by
    one millisecond per interaction. *)
Definition envWith (reply : option Z) : Env :=
  mkEnv "https://hookbin.test" "GreeterQueue.fifo" "GreeterDLQ.fifo"
    (λ n, t0 + Z.of_nat n) (λ _, "0.5") fixedZones
    (λ _, None) (λ _, None)
    (λ name, Some ("https://sqs.test/" +:+ name))
    (λ _, reply).

Definition calm : Env := envWith (Some 200).

(** The same, with the second interaction rejected by SQS: in a run of
    the DLQ processor that is the GetQueueAttributes call. *)
Definition attributesDown : Env :=
  mkEnv "https://hookbin.test" "GreeterQueue.fifo" "GreeterDLQ.fifo"
    (λ n, t0 + Z.of_nat n) (λ _, "0.5") fixedZones
    (λ _, None)
    (λ n, if (n =? 1)%nat then Some "ServiceUnavailable" else None)
    (λ name, Some ("https://sqs.test/" +:+ name))
    (λ _, Some 200).

Definition ada : User.t := User.mk "u1" "Ada" "Lovelace" "UTC" 0 0.

Definition adaBirthday : UserEvent.t :=
  UserEvent.mk birthday (mkDate 1990 6 15) (mkTime 9 0) t0 0 0 0 None.

Definition worldOf (items : list (Key * Item.t))
    (dlq : list SqsMessage.t) : World :=
  mkWorld (list_to_map items)
          (<[greeterUrl := []]> (<[dlqUrl := dlq]> ∅)) ∅ 0.

Definition world0 : World :=
  worldOf (flattenUserToDynamoDBItems ada [adaBirthday]) [].

Definition adaMessage (yearNow : Z) : GreeterMessage.t :=
  GreeterMessage.mk ada "USER#u1" "EVENT#birthday" birthday (mkDate 1990 6 15)
    (mkTime 9 0) 0 yearNow.

Definition deadLetter : SqsMessage.t :=
  SqsMessage.mk (adaMessage 2026) "rh-dead" (Some "birthday")
    (Some "u1-birthday-2026").

(** The record of S1 after a completed delivery in 2026. *)
Definition sentItem : Item.t :=
  Item.mk None (Some "EVENT") (Some birthday) (Some (mkDate 1990 6 15))
    (Some (mkTime 9 0)) (Some 1813050000000) (Some 2026) None (Some completed)
    (Some t0) (Some t0) None None (Some 200) (Some t0) (Some 0) (Some t0).

Definition worldSent : World :=
  worldOf [metadataItem ada; (("USER#u1", "EVENT#birthday"), sentItem)] [].

(** The record of S4: claimed for 2026 six minutes before [t0], then
    abandoned in the sending state. *)
Definition stuckItem : Item.t :=
  Item.mk None (Some "EVENT") (Some birthday) (Some (mkDate 1990 6 15))
    (Some (mkTime 9 0)) (Some 1813050000000) (Some 2026) None (Some sending)
    (Some (t0 - 360000)) None None None None None (Some 0) (Some (t0 - 360000)).

Definition worldStuck : World :=
  worldOf [metadataItem ada; (("USER#u1", "EVENT#birthday"), stuckItem)] [].

End Scenario.

(** ** Vocabulary of the properties *)

(** 2026-01-14T10:00:00.000Z, the reference of the boundary test of
    notify.ts ("birthday exactly at current time in UTC"). *)
Definition boundaryReference : Z := 1768384800000.

(** [prepend es r]: the run [r], after the effects [es]. *)
Definition prepend {A} (es : list Effect) (r : Run A) : Run A :=
  mkRun (result r) (final r) (es ++ effects r).

(** The stored record can be claimed for [currentLastSentYear]: it
    exists, its lastSentYear is that year, and its sendingStatus is
    absent or neither sending nor completed. *)
Definition claimable (currentLastSentYear : Z) (stored : option Item.t) : Prop :=
  ∃ it, stored = Some it
        ∧ Item.lastSentYear it = Some currentLastSentYear
        ∧ (Item.sendingStatus it = None
           ∨ (Item.sendingStatus it ≠ Some sending
              ∧ Item.sendingStatus it ≠ Some completed)).

(** The condition an effect carries, when it is a conditional write. *)
Definition conditionOf (e : Effect) : option Condition :=
  match e with DdbUpdate u => ConditionExpression u | _ => None end.

(** Whether an effect writes a failure reason to the table. *)
Definition writesFailureReason (e : Effect) : bool :=
  match e with
  | DdbUpdate u =>
      existsb (λ a, match a with SetFailureReason _ => true | _ => false end)
              (UpdateExpression u)
  | _ => false
  end.

(** [m] leaves the table as it finds it and has only effects in [P]. *)
Definition readsOnly {A} (P : Effect → Prop) (m : M A) : Prop :=
  ∀ w, table (final (m w)) = table w ∧ Forall P (effects (m w)).

(** The effects of a sweep: queries of the index, reads of user
    metadata, and what an enqueue does (resolving the name of the
    greeter queue, sending a message to it). *)
Definition sweepEffect (env : Env) (e : Effect) : Prop :=
  match e with
  | DdbQuery q =>
      ∃ nowUtc currentYear lastEvaluatedKey,
        q = dueQuery nowUtc currentYear lastEvaluatedKey
  | DdbGet k => k.2 = "METADATA"
  | SqsGetQueueUrl queueName => queueName = GREETER_QUEUE_NAME env
  | SqsSendMessage m =>
      ∃ queueUrl user event yearNow, m = greeterSend queueUrl user event yearNow
  | _ => False
  end.

(** The rows of the index that the key condition of the due query
    selects. *)
Definition dueRange (table : gmap Key Item.t) (nowUtc : Z) : list EventRow.t :=
  filter (λ r, evalKeyCondition (NotifyUtcLe nowUtc) r = true) (indexView table).

Definition isFetch (e : Effect) : bool :=
  match e with Fetch _ => true | _ => false end.

(** Receiving from a queue, sending to one, deleting from one. *)
Definition isRedriveEffect (e : Effect) : bool :=
  match e with
  | SqsReceiveMessage _ _ | SqsSendMessage _ | SqsDeleteMessage _ _ => true
  | _ => false
  end.

(** What the depth query does outside the process. *)
Definition depthEffect (e : Effect) : Prop :=
  match e with
  | SqsGetQueueUrl _ | SqsGetQueueAttributes _ => True
  | _ => False
  end.

(** The report of the monitor in scenario S1 before any delivery: the
    event is due, not sent, and counts as one missed event. *)
Definition reportS1 : HealthCheckResult :=
  mkHealth warning 1 0
    [mkMissed "USER#u1" birthday (mkDate 1990 6 15) Scenario.t0 0 0 (Some pending)]
    [] (Scenario.t0 + 1).

(** ** Vocabulary of the further properties *)

(** The SendMessage call of a redrive of [message]: the same body, the
    group of the original (or "birthday"), and the deduplication id
    [dedup]. *)
Definition redriveSend (greeterQueueUrl : string) (message : SqsMessage.t)
    (dedup : string) : SendMessageInput :=
  mkSend greeterQueueUrl (SqsMessage.Body message)
    (default "birthday" (truthy (SqsMessage.MessageGroupId message))) dedup.

(** In the calls [es], the DeleteMessage of [message] on the dead-letter
    queue comes directly after the SendMessage of its copy to the
    greeter queue, under the deduplication id of the original when it
    has one. *)
Definition deletedAfterSend (dlqUrl greeterQueueUrl : string)
    (es : list Effect) (message : SqsMessage.t) : Prop :=
  ∃ before dedup after,
    es = before
         ++ SqsSendMessage (redriveSend greeterQueueUrl message dedup)
         :: SqsDeleteMessage dlqUrl (SqsMessage.ReceiptHandle message)
         :: after
    ∧ (∀ d, truthy (SqsMessage.MessageDeduplicationId message) = Some d →
            dedup = d).

Definition isSend (e : Effect) : bool :=
  match e with SqsSendMessage _ => true | _ => false end.

(** [m] changes no item of the table outside the keys [K], no queue and
    no cached URL. *)
Definition touchesOnly {A} (K : Key → Prop) (m : M A) : Prop :=
  ∀ w, (∀ k, ¬ K k → table (final (m w)) !! k = table w !! k)
       ∧ queues (final (m w)) = queues w
       ∧ cachedQueueUrls (final (m w)) = cachedQueueUrls w.

(** The stored record carries the claim of [message]: it was last sent
    in the year of the message and is scheduled for the year after. *)
Definition claimedFor (env : Env) (message : GreeterMessage.t) (it : Item.t)
    : Prop :=
  Item.lastSentYear it = Some (GreeterMessage.yearNow message)
  ∧ Item.notifyUtc it = Some (nextNotifyUtc env message).

(** How a run that posted to the webhook can end, and the state it
    leaves the record in. *)
Definition postedOutcome (r : Res RecordOutcome) (it : Item.t) : Prop :=
  match r with
  | Ok Sent =>
      (Item.sendingStatus it = Some completed
       ∧ Item.webhookResponseCode it = Some 200)
      ∨ Item.sendingStatus it = Some sending
  | Ok _ => False
  | Throw _ =>
      Item.sendingStatus it = Some failed ∨ Item.sendingStatus it = Some sending
  end.

(** The keys a run read with GetItem, in order. *)
Definition itemReads (es : list Effect) : list Key :=
  omap (λ e, match e with DdbGet k => Some k | _ => None end) es.

(** The (pk, sk) of the messages a run handed to SendMessage, in order. *)
Definition enqueuedKeys (es : list Effect) : list Key :=
  omap (λ e, match e with
             | SqsSendMessage m => Some (messageKey (MessageBody m))
             | _ => None
             end) es.

(** The rows a sweep at [nowUtc] in [currentYear] has to enqueue: due,
    and not yet sent this year; in the order of the index. *)
Definition dueUnsent (table : gmap Key Item.t) (nowUtc currentYear : Z)
    : list EventRow.t :=
  filter (λ r, notSentIn currentYear r = true) (dueRange table nowUtc).

(** The row has a user: the metadata item of its partition exists and
    carries the user data. *)
Definition hasUser (table : gmap Key Item.t) (row : EventRow.t) : Prop :=
  ∃ it user, table !! (EventRow.PK row, "METADATA") = Some it
             ∧ Item.data it = Some user.

Definition rowKey (row : EventRow.t) : Key := (EventRow.PK row, EventRow.SK row).

(** What the monitor assigns to a record it gives up on. *)
Definition monitorSets (now : Z) : list SetAction :=
  [SetSendingStatus failed; SetMarkedFailedAt now;
   SetFailureReason stuckFailureReasonMonitor; SetUpdatedAt now].

(** The record has been in the sending state for more than the
    monitor's ten minutes at [now]. *)
Definition stuckTooLong (now : Z) (it : Item.t) : Prop :=
  Item.sendingStatus it = Some sending
  ∧ ∃ attemptedAt, Item.sendingAttemptedAt it = Some attemptedAt
                   ∧ MONITOR_STUCK_TIMEOUT_MS < now - attemptedAt.

(** The only change the monitor makes to a record: none, or the
    promotion of a record stuck too long to failed. *)
Definition promotedBy (now : Z) (before after : option Item.t) : Prop :=
  after = before
  ∨ ∃ it, before = Some it ∧ stuckTooLong now it
          ∧ after = Some (applySets it (monitorSets now)).

(** The action the monitor reports for a row when no write fails. *)
Definition monitorAction (now : Z) (row : EventRow.t) : StuckAction :=
  match EventRow.sendingAttemptedAt row with
  | Some attemptedAt =>
      if MONITOR_STUCK_TIMEOUT_MS <? now - attemptedAt
      then marked_failed_for_retry else monitoring
  | None => monitoring
  end.

(** The row is the index entry of a record of [t0] in the sending
    state. *)
Definition stuckRowOf (t0 : gmap Key Item.t) (row : EventRow.t) : Prop :=
  ∃ it, t0 !! rowKey row = Some it
        ∧ Item.sendingStatus it = Some sending
        ∧ Item.sendingAttemptedAt it = EventRow.sendingAttemptedAt row.

(** The calm environment, [minutes] minutes after [Scenario.t0]. *)
Definition calmLater (minutes : Z) : Env :=
  mkEnv "https://hookbin.test" "GreeterQueue.fifo" "GreeterDLQ.fifo"
    (λ n, Scenario.t0 + minutes * 60000 + Z.of_nat n) (λ _, "0.5") fixedZones
    (λ _, None) (λ _, None)
    (λ name, Some ("https://sqs.test/" +:+ name))
    (λ _, Some 200).

(** The index row of the record of [Scenario.worldStuck]. *)
Definition stuckRow : EventRow.t :=
  EventRow.mk "USER#u1" "EVENT#birthday" birthday (mkDate 1990 6 15) (mkTime 9 0)
    1813050000000 (Some 2026) (Some sending) (Some (Scenario.t0 - 360000)).

(** The index row of a freshly stored event of a user. *)
Definition freshRow (user : User.t) (event : UserEvent.t) : EventRow.t :=
  EventRow.mk (userPK (User.id user)) (eventSK (UserEvent.type event))
    (UserEvent.type event) (UserEvent.date event)
    (UserEvent.notifyLocalTime event) (UserEvent.notifyUtc event)
    (Some (UserEvent.lastSentYear event)) (Some pending) None.

(** ** The HTTP API: what dayjs does to the date of a payload *)

(** The civil date of a day number (the inverse of [daysFromCivil]). *)
Definition civilFromDays (z : Z) : CivilDate :=
  let z' := z + 719468 in
  let era := z' / 146097 in
  let doe := z' - era * 146097 in
  let yoe := (doe - doe / 1460 + doe / 36524 - doe / 146096) / 365 in
  let doy := doe - (365 * yoe + yoe / 4 - yoe / 100) in
  let mp := (5 * doy + 2) / 153 in
  let m := if mp <? 10 then mp + 3 else mp - 9 in
  mkDate (yoe + era * 400 + (if m <=? 2 then 1 else 0)) m
    (doy - (153 * mp + 2) / 5 + 1).

(** [dayjs(date).format('YYYY-MM-DD')] for a string 'YYYY-MM-DD' of
    four, two and two digits, in a UTC host. dayjs hands the three
    numbers to [new Date(y, m - 1, d)], which reads a year from 0 to 99
    as 1900 + y, counts the months beyond December into the following
    years and the days beyond the end of the month into the following
    months, and backwards below 1: 1990-02-30 is read as 1990-03-02,
    1990-13-01 as 1991-01-01, 1990-06-00 as 1990-05-31. *)
Definition dayjsFormat (date : CivilDate) : CivilDate :=
  let y := if (0 <=? year date) && (year date <=? 99)
           then 1900 + year date else year date in
  let months := y * 12 + (month date - 1) in
  civilFromDays (daysFromCivil (months / 12) (months mod 12 + 1) 1
                 + (day date - 1)).

(** A date of the calendar, with a year that [Date] does not reread. *)
Definition calendarDate (date : CivilDate) : Prop :=
  100 ≤ year date
  ∧ 1 ≤ month date ≤ 12
  ∧ 1 ≤ day date ≤ daysInMonth (year date) (month date).

(** ** The HTTP API: DynamoDB calls on the base table

    The calls of the API handlers that the pipeline does not make. They
    consult the environment and act on the world like the primitives
    above; they are not recorded in the effect log, which serves the
    properties of the pipeline. *)

(** What the API handlers do not control, beside [Env]: like its
    oracles, these are indexed by the number of interactions so far. *)
Record ApiEnv := mkApiEnv {
  uuidv4 : nat → string;            (* uuidv4() *)
  pageItems : nat → nat;            (* items after the first that fit the
                                       1 MB page of a Query *)
  unprocessed : nat → Key → bool }. (* BatchWriteItem hands the request
                                       for the key back in
                                       UnprocessedItems *)

(** The order of the range key SK within a partition. *)
Definition SK_le (a b : Key * Item.t) : Prop := String.leb a.1.2 b.1.2 = true.

#[export] Instance SK_le_dec : RelDecision SK_le.
Proof. intros a b. unfold SK_le. apply _. Defined.

(** The items of the partition [pk], ordered by SK. *)
Definition partitionOf (table : gmap Key Item.t) (pk : string)
    : list (Key * Item.t) :=
  merge_sort SK_le (filter (λ kv, kv.1.1 = pk) (map_to_list table)).

Inductive WriteRequest :=
  | PutRequest (k : Key) (it : Item.t)
  | DeleteRequest (k : Key).

Definition requestKey (r : WriteRequest) : Key :=
  match r with PutRequest k _ => k | DeleteRequest k => k end.

Definition applyWrite (table : gmap Key Item.t) (r : WriteRequest)
    : gmap Key Item.t :=
  match r with
  | PutRequest k it => <[k := it]> table
  | DeleteRequest k => delete k table
  end.

(** What the key of a request holds once the request is processed. *)
Definition writeResult (r : WriteRequest) : option Item.t :=
  match r with PutRequest _ it => Some it | DeleteRequest _ => None end.

Section ApiPrimitives.

Variable env : Env.
Variable api : ApiEnv.

(** [QueryCommand({ KeyConditionExpression: 'PK = :pk' })] on the base
    table, giving [Items]: the first page of the partition, which ends
    where 1 MB of items has been read. An item is at most 400 KB, so
    the page of a partition that is not empty holds at least one item.
    (The handler reads one page and does not follow
    [LastEvaluatedKey].) *)
Definition ddbQueryPartition (pk : string) : M (list (Key * Item.t)) := λ w,
  match ddbFault env (ops w) with
  | Some msg => mkRun (Throw (ServiceException msg)) (bump w) []
  | None =>
      mkRun (Ok (take (S (pageItems api (ops w))) (partitionOf (table w) pk)))
            (bump w) []
  end.

(** [PutCommand({ Item, ConditionExpression:
      'attribute_not_exists(PK) AND attribute_not_exists(SK)' })]:
    the condition holds when no item is stored under the key. *)
Definition ddbPutIfAbsent (k : Key) (it : Item.t) : M unit := λ w,
  match ddbFault env (ops w) with
  | Some msg => mkRun (Throw (ServiceException msg)) (bump w) []
  | None =>
      match table w !! k with
      | Some _ => mkRun (Throw ConditionalCheckFailedException) (bump w) []
      | None => mkRun (Ok tt) (bump (setTable (<[k := it]> (table w)) w)) []
      end
  end.

(** [BatchWriteCommand({ RequestItems: { [USERS_TABLE]: requests } })].
    When the service answers, it rejects a batch that is empty, that
    holds more than 25 requests or that names a key twice
    (ValidationException). Of a batch it accepts, it processes each
    request or hands it back in [UnprocessedItems]; the call returns in
    both cases, and the handlers do not read what it returns. *)
Definition ddbBatchWrite (requests : list WriteRequest) : M unit := λ w,
  match ddbFault env (ops w) with
  | Some msg => mkRun (Throw (ServiceException msg)) (bump w) []
  | None =>
      if (length requests =? 0)%nat || (25 <? length requests)%nat
         || negb (bool_decide (NoDup (requestKey <$> requests)))
      then mkRun (Throw (ServiceException "ValidationException")) (bump w) []
      else
        let processed :=
          filter (λ r, unprocessed api (ops w) (requestKey r) = false) requests in
        mkRun (Ok tt) (bump (setTable (foldl applyWrite (table w) processed) w)) []
  end.

End ApiPrimitives.

(** ** The HTTP API: handlers/createUser.ts, addUserEvent.ts, deleteUser.ts *)

Inductive ApiBody :=
  | ErrorBody (error : string)                      (* { error: '...' } *)
  | ValidationErrorBody                          (* { error: <ZodError> } *)
  | MessageOnly (message : string)                 (* { message: '...' } *)
  | CreatedUser (user : User.t) (events : list UserEvent.t)
  | CreatedEvent (data : UserEvent.t) (message : string).

Record ApiResponse := mkResponse {
  statusCode : Z;
  responseBody : ApiBody }.

(** The body of a request, as [JSON.parse] and the schema's [safeParse]
    see it: text that is not JSON ([JSON.parse] throws a SyntaxError
    with the message), JSON that the schema refuses, or JSON that the
    schema accepts, with the data it returns. An absent body is read as
    'null' by createUser and as '{}' by addUserEvent; the schemas refuse
    both. *)
Inductive RequestBody (A : Type) :=
  | NotJson (message : string)
  | SchemaFails
  | SchemaPasses (data : A).
Arguments NotJson {A} message.
Arguments SchemaFails {A}.
Arguments SchemaPasses {A} data.

(** What [userEventSchema.safeParse] returns on success: the type is one
    of the event names, the local time matches HH:mm or was absent and
    is now '09:00'. Of the date the schema asks only that it is a string
    that is not empty; the model covers the strings 'YYYY-MM-DD' of
    four, two and two digits, on or off the calendar. *)
Record EventPayload := mkEventPayload {
  payloadType : UserEventName;
  payloadDate : CivilDate;
  payloadNotifyLocalTime : LocalTime;
  payloadLabel : option string }.

(** What [createUserPayload.safeParse] returns on success. *)
Record CreateUserPayload := mkCreateUserPayload {
  payloadFirstName : string;
  payloadLastName : string;
  payloadTimezone : string;
  payloadEvents : list EventPayload }.

Section ApiHandlers.

Variable env : Env.
Variable api : ApiEnv.

Definition newUuid : M string :=
  λ w, mkRun (Ok (uuidv4 api (ops w))) (bump w) [].

(** The loop
    [for (let i = 0; i < items.length; i += chunkSize) { ... }]
    with [chunkSize = 25], sending [items.slice(i, i + chunkSize)] as
    one batch of the requests [request]. [fuel] bounds the number of
    batches. *)
Fixpoint writeChunksFrom {X} (fuel : nat) (request : X → WriteRequest)
    (items : list X) (i : nat) : M unit :=
  match fuel with
  | O => mret tt
  | S fuel' =>
      if (i <? length items)%nat then
        let chunk := take 25 (drop i items) in
        _ ← ddbBatchWrite env api (request <$> chunk);
        writeChunksFrom fuel' request items (i + 25)
      else mret tt
  end.

(** Each batch advances [i] by 25, so one unit of fuel per item is
    enough. *)
Definition writeChunks {X} (request : X → WriteRequest) (items : list X)
    : M unit :=
  writeChunksFrom (length items) request items 0.

(** The event of createUser.ts: the date is normalised by dayjs, and
    [now] is the reference of the resolver, so that [dayjs()] is not
    read. *)
Definition newEvent (timezone : string) (now : Z) (event : EventPayload)
    : UserEvent.t :=
  let normalizedDate := dayjsFormat (payloadDate event) in
  UserEvent.mk (payloadType event) normalizedDate
    (payloadNotifyLocalTime event)
    (computeNotifyUtc (tzdb env) normalizedDate timezone
       (payloadNotifyLocalTime event) (Some (Some now)) now)
    now now 0 (payloadLabel event).

Definition createUser (body : RequestBody CreateUserPayload) : M ApiResponse :=
  match body with
  | NotJson message => throw (Error message)
  | SchemaFails => mret (mkResponse 400 ValidationErrorBody)
  | SchemaPasses data =>
      id ← newUuid;
      now ← dateNow env;
      let baseUser :=
        User.mk id (payloadFirstName data) (payloadLastName data)
          (payloadTimezone data) now now in
      let events := newEvent (payloadTimezone data) now <$> payloadEvents data in
      let dynamoItems := flattenUserToDynamoDBItems baseUser events in
      _ ← writeChunks (λ item : Key * Item.t, PutRequest item.1 item.2) dynamoItems;
      mret (mkResponse 201 (CreatedUser baseUser events))
  end.

(** The event of addUserEvent.ts: the date is normalised by dayjs, and
    a label is kept when it is not empty. *)
Definition addedEvent (timezone : string) (now : Z) (incomingEvent : EventPayload)
    : UserEvent.t :=
  let normalizedDate := dayjsFormat (payloadDate incomingEvent) in
  UserEvent.mk (payloadType incomingEvent) normalizedDate
    (payloadNotifyLocalTime incomingEvent)
    (computeNotifyUtc (tzdb env) normalizedDate timezone
       (payloadNotifyLocalTime incomingEvent) (Some (Some now)) now)
    now now 0 (truthy (payloadLabel incomingEvent)).

(** The item of addUserEvent.ts: no sendingStatus is written. *)
Definition addedItem (event : UserEvent.t) : Item.t :=
  Item.mk None (Some "EVENT") (Some (UserEvent.type event))
    (Some (UserEvent.date event)) (Some (UserEvent.notifyLocalTime event))
    (Some (UserEvent.notifyUtc event)) (Some (UserEvent.lastSentYear event))
    (UserEvent.label event) None None None None None None None
    (Some (UserEvent.createdAt event)) (Some (UserEvent.updatedAt event)).

(** [userId]: [event.pathParameters?.id]. The body is parsed after the
    id is checked and before the [try]. *)
Definition addUserEvent (userId : option string) (body : RequestBody EventPayload)
    : M ApiResponse :=
  match truthy userId with
  | None => mret (mkResponse 400 (ErrorBody "User id is required"))
  | Some userId =>
      match body with
      | NotJson message => throw (Error message)
      | SchemaFails => mret (mkResponse 400 ValidationErrorBody)
      | SchemaPasses incomingEvent =>
          let eventType := eventNameString (payloadType incomingEvent) in
          tryCatch
            (userResult ← ddbGetItem env (userPK userId, "METADATA");
             match userResult ≫= Item.data with
             | None =>
                 mret (mkResponse 404
                         (ErrorBody ("User " +:+ userId +:+ " not found")))
             | Some user =>
                 existingEvent ←
                   ddbGetItem env (userPK userId, eventSK (payloadType incomingEvent));
                 match existingEvent with
                 | Some _ =>
                     mret (mkResponse 409
                             (ErrorBody ("Event " +:+ eventType +:+
                                         " already exists for user " +:+
                                         User.firstName user +:+ " " +:+
                                         User.lastName user)))
                 | None =>
                     now ← dateNow env;
                     let eventItem :=
                       addedEvent (User.timezone user) now incomingEvent in
                     _ ← ddbPutIfAbsent env
                           (userPK userId, eventSK (payloadType incomingEvent))
                           (addedItem eventItem);
                     mret (mkResponse 201
                             (CreatedEvent eventItem "Event added successfully"))
                 end
             end)
            (λ err,
               match err with
               | ConditionalCheckFailedException =>
                   mret (mkResponse 409
                           (ErrorBody ("Error adding event " +:+ eventType +:+
                                       " for user " +:+ userId)))
               | _ => throw err
               end)
      end
  end.

(** [id]: [event.pathParameters?.id]. *)
Definition deleteUser (id : option string) : M ApiResponse :=
  match truthy id with
  | None => mret (mkResponse 400 (ErrorBody "ID is required"))
  | Some id =>
      tryCatch
        (items ← ddbQueryPartition env api (userPK id);
         if (length items =? 0)%nat
         then throw ConditionalCheckFailedException
         else
           _ ← writeChunks (λ item : Key * Item.t, DeleteRequest item.1) items;
           mret (mkResponse 200 (MessageOnly "User deleted successfully")))
        (λ error,
           match error with
           | ConditionalCheckFailedException =>
               mret (mkResponse 404
                       (ErrorBody ("User with id " +:+ id +:+ " not found")))
           | _ => throw error
           end)
  end.

End ApiHandlers.

(** An API environment in which every page holds the partition and
    every request of a batch is processed. *)
Definition calmApi : ApiEnv := mkApiEnv (λ _, "u2") (λ _, 99%nat) (λ _ _, false).

(** The same, with the request for the birthday of u1 handed back
    unprocessed by every batch. *)
Definition throttledApi : ApiEnv :=
  mkApiEnv (λ _, "u2") (λ _, 99%nat)
    (λ _ k, bool_decide (k = ("USER#u1", "EVENT#birthday"))).

(** * Properties *)

(** ** Time resolver *)

(** C1, counterexample. With the event on January 14 at 10:00 in UTC and
    the reference 2026-01-14T10:00:00.000Z, the candidate of the
    reference's year is the reference itself, and [computeNotifyUtc]
    returns it: the result is not strictly later than the reference and
    is not the instant of the following year. *)
Lemma computeNotifyUtc_at_reference_not_advanced :
  notifyUtcInYear fixedZones (mkDate 1990 1 14) (yearOfInstant boundaryReference)
    "UTC" (mkTime 10 0) = boundaryReference
  ∧ computeNotifyUtc fixedZones (mkDate 1990 1 14) "UTC" (mkTime 10 0)
      (Some (Some boundaryReference)) 0 = boundaryReference
  ∧ ¬ (boundaryReference <
       computeNotifyUtc fixedZones (mkDate 1990 1 14) "UTC" (mkTime 10 0)
         (Some (Some boundaryReference)) 0)
  ∧ computeNotifyUtc fixedZones (mkDate 1990 1 14) "UTC" (mkTime 10 0)
      (Some (Some boundaryReference)) 0
    ≠ notifyUtcInYear fixedZones (mkDate 1990 1 14)
        (yearOfInstant boundaryReference + 1) "UTC" (mkTime 10 0).
Proof. vm_compute. repeat split; congruence. Qed.

(** C1, amended. For every event date, zone, local time and reference
    instant, [computeNotifyUtc] moves to the following year exactly when
    the candidate of the reference's year is strictly before the
    reference; a candidate equal to the reference, or after it, is
    returned as it is, so that the result is then not before the
    reference. *)
Theorem computeNotifyUtc_advances_iff_before
    (tzdb : string → Z → Z) (birthday : CivilDate) (tz : string)
    (notifyLocalTime : LocalTime) (reference clockNow : Z) :
  (notifyUtcInYear tzdb birthday (yearOfInstant reference) tz notifyLocalTime
     < reference
   ∧ computeNotifyUtc tzdb birthday tz notifyLocalTime (Some (Some reference))
       clockNow
     = notifyUtcInYear tzdb birthday (yearOfInstant reference + 1) tz
         notifyLocalTime)
  ∨ (reference
       ≤ notifyUtcInYear tzdb birthday (yearOfInstant reference) tz
           notifyLocalTime
     ∧ computeNotifyUtc tzdb birthday tz notifyLocalTime
         (Some (Some reference)) clockNow
       = notifyUtcInYear tzdb birthday (yearOfInstant reference) tz
           notifyLocalTime
     ∧ reference
       ≤ computeNotifyUtc tzdb birthday tz notifyLocalTime
           (Some (Some reference)) clockNow).
Proof.
  unfold computeNotifyUtc.
  destruct (Z.ltb_spec
              (notifyUtcInYear tzdb birthday (yearOfInstant reference) tz
                 notifyLocalTime) reference) as [Hlt | Hge].
  - left. split; [exact Hlt | reflexivity].
  - right. repeat split; assumption.
Qed.

(** After the advance the result can still lie before the reference: an
    event on January 1 at 00:00 in Pacific/Kiritimati (UTC+14), resolved
    at 2026-12-31T23:00:00.000Z, gets 2026-12-31T10:00:00.000Z. *)
Example computeNotifyUtc_advanced_result_in_the_past :
  computeNotifyUtc fixedZones (mkDate 1990 1 1) "Pacific/Kiritimati"
    (mkTime 0 0) (Some (Some 1798758000000)) 0 = 1798711200000.
Proof. reflexivity. Qed.

(** ** Deduplication id and idempotency key *)

Lemma length_append (s1 s2 : string) :
  String.length (s1 +:+ s2) = (String.length s1 + String.length s2)%nat.
Proof.
  induction s1 as [| a s1 IH]; [reflexivity |].
  change (String a s1 +:+ s2) with (String a (s1 +:+ s2)).
  simpl. by rewrite IH.
Qed.

Lemma prefixed_string_differs (p s : string) : p ≠ "" → p +:+ s ≠ s.
Proof.
  intros Hp Heq.
  assert (Hlen : String.length (p +:+ s) = String.length s) by (by rewrite Heq).
  rewrite length_append in Hlen.
  destruct p; [done | simpl in Hlen; lia].
Qed.

Lemma append_assoc (s1 s2 s3 : string) :
  (s1 +:+ s2) +:+ s3 = s1 +:+ (s2 +:+ s3).
Proof.
  induction s1 as [| a s1 IH]; [reflexivity |].
  change ((String a s1 +:+ s2) +:+ s3) with (String a ((s1 +:+ s2) +:+ s3)).
  change (String a s1 +:+ s2 +:+ s3) with (String a (s1 +:+ s2 +:+ s3)).
  by rewrite IH.
Qed.

(** Items written by [flattenUserToDynamoDBItems] all carry the key
    PK = USER#<id> of their user. *)
Lemma flatten_keys (user : User.t) (events : list UserEvent.t) (k : Key) (it : Item.t) :
  (k, it) ∈ flattenUserToDynamoDBItems user events → k.1 = userPK (User.id user).
Proof.
  unfold flattenUserToDynamoDBItems. intros Hin.
  apply elem_of_cons in Hin as [Heq | Hin].
  - by inversion Heq.
  - apply list_elem_of_fmap in Hin as (event & Heq & _). by inversion Heq.
Qed.

(** C6, counterexample. In scenario S1 the scheduler enqueues the message
    of user u1 with MessageDeduplicationId "u1-birthday-2026", and the
    sender, run on the body of that very message, posts the header
    Idempotency-Key "USER#u1-birthday-2026": the two strings differ. *)
Lemma dedup_id_is_not_the_idempotency_key :
  ∃ (m : SendMessageInput) (r : HttpRequest),
    SqsSendMessage m ∈ effects (scheduler Scenario.calm Scenario.world0)
    ∧ Fetch r ∈ effects (sender Scenario.calm [MessageBody m] Scenario.world0)
    ∧ sendMessageDeduplicationId m = "u1-birthday-2026"
    ∧ headers r = [("Content-Type", "application/json");
                   ("Idempotency-Key", "USER#u1-birthday-2026")]
    ∧ ¬ (headers r = [("Content-Type", "application/json");
                      ("Idempotency-Key", sendMessageDeduplicationId m)]).
Proof.
  exists (greeterSend Scenario.greeterUrl Scenario.ada
            (mkEnqueueEvent "USER#u1" "EVENT#birthday" birthday
               (mkDate 1990 6 15) (mkTime 9 0) (Some 0)) 2026).
  exists (webhookRequest Scenario.calm (Scenario.adaMessage 2026)).
  split; [| split; [| split; [| split]]].
  - vm_compute. do 3 apply list_elem_of_further. apply list_elem_of_here.
  - vm_compute. do 2 apply list_elem_of_further. apply list_elem_of_here.
  - reflexivity.
  - reflexivity.
  - vm_compute. congruence.
Qed.

(** C6, amended. For a user and an event stored under that user's key
    PK = USER#<id>, the producer sets MessageDeduplicationId to
    <id>-<eventType>-<yearNow> and the sender, on the message so
    produced, sends Idempotency-Key <pk>-<eventType>-<yearNow>: the
    header is the deduplication id prefixed with USER#, built from the
    same event type and the same year, and is never the same string. *)
Theorem idempotency_key_is_prefixed_dedup_id
    (env : Env) (queueUrl : string) (user : User.t) (event : EnqueueEvent)
    (yearNow : Z) :
  evPk event = userPK (User.id user) →
  sendMessageDeduplicationId (greeterSend queueUrl user event yearNow)
    = User.id user +:+ "-" +:+ eventNameString (evType event) +:+ "-" +:+
      pretty yearNow
  ∧ headers (webhookRequest env (MessageBody (greeterSend queueUrl user event yearNow)))
    = [("Content-Type", "application/json");
       ("Idempotency-Key",
        "USER#" +:+
        sendMessageDeduplicationId (greeterSend queueUrl user event yearNow))]
  ∧ idempotencyKey (MessageBody (greeterSend queueUrl user event yearNow))
    ≠ sendMessageDeduplicationId (greeterSend queueUrl user event yearNow).
Proof.
  intros Hpk.
  assert (Hkey : idempotencyKey (MessageBody (greeterSend queueUrl user event yearNow))
                 = "USER#" +:+
                   sendMessageDeduplicationId (greeterSend queueUrl user event yearNow)).
  { unfold idempotencyKey, greeterSend, greeterMessage, messageDeduplicationId.
    simpl. rewrite Hpk. unfold userPK. by rewrite append_assoc. }
  split; [reflexivity |]. split.
  - unfold webhookRequest. cbn [headers]. by rewrite Hkey.
  - rewrite Hkey. by apply prefixed_string_differs.
Qed.

Lemma idempotency_key_is_prefixed_dedup_id_witness :
  idempotencyKey
    (MessageBody (greeterSend Scenario.greeterUrl Scenario.ada
                    (mkEnqueueEvent "USER#u1" "EVENT#birthday" birthday
                       (mkDate 1990 6 15) (mkTime 9 0) (Some 0)) 2026))
  ≠ sendMessageDeduplicationId
      (greeterSend Scenario.greeterUrl Scenario.ada
         (mkEnqueueEvent "USER#u1" "EVENT#birthday" birthday
            (mkDate 1990 6 15) (mkTime 9 0) (Some 0)) 2026).
Proof.
  apply (idempotency_key_is_prefixed_dedup_id Scenario.calm Scenario.greeterUrl
           Scenario.ada
           (mkEnqueueEvent "USER#u1" "EVENT#birthday" birthday
              (mkDate 1990 6 15) (mkTime 9 0) (Some 0)) 2026).
  reflexivity.
Defined.

(** ** Running the monad *)

Lemma bind_run {A B} (m : M A) (f : A → M B) (w : World) :
  (m ≫= f) w =
  match result (m w) with
  | Ok a => prepend (effects (m w)) (f a (final (m w)))
  | Throw e => mkRun (Throw e) (final (m w)) (effects (m w))
  end.
Proof. reflexivity. Qed.

Lemma tryCatch_run {A} (m : M A) (h : Exn → M A) (w : World) :
  tryCatch m h w =
  match result (m w) with
  | Ok a => m w
  | Throw e => prepend (effects (m w)) (h e (final (m w)))
  end.
Proof. reflexivity. Qed.

Lemma tryCatch_ok {A} (m : M A) (h : Exn → M A) (w : World) (a : A) :
  result (m w) = Ok a → tryCatch m h w = m w.
Proof. intros H. by rewrite tryCatch_run, H. Qed.

Lemma prepend_nil {A} (r : Run A) : prepend [] r = r.
Proof. by destruct r. Qed.

Lemma prepend_ret {A} (es : list Effect) (a : A) (w : World) :
  prepend es ((mret a : M A) w) = mkRun (Ok a) w es.
Proof. unfold prepend, mret, M_ret. cbn. by rewrite app_nil_r. Qed.

Lemma run_eta {A} (r : Run A) : mkRun (result r) (final r) (effects r) = r.
Proof. by destruct r. Qed.

(** A DynamoDB update always issues its one command, whatever the reply. *)
Lemma ddbUpdateItem_effects (env : Env) (u : UpdateInput) (w : World) :
  effects (ddbUpdateItem env u w) = [DdbUpdate u].
Proof. unfold ddbUpdateItem. by repeat case_match. Qed.

Lemma ddbUpdateItem_ops (env : Env) (u : UpdateInput) (w : World) :
  ops (final (ddbUpdateItem env u w)) = S (ops w).
Proof. unfold ddbUpdateItem. by repeat case_match. Qed.

(** An unconditional update that reaches the table writes the item. *)
Lemma ddbUpdateItem_unconditional (env : Env) (u : UpdateInput) (w : World) :
  ConditionExpression u = None →
  ddbFault env (ops w) = None →
  table (final (ddbUpdateItem env u w))
  = <[updKey u := applySets (default Item.empty (table w !! updKey u))
                    (UpdateExpression u)]> (table w).
Proof. intros Hc Hf. unfold ddbUpdateItem. by rewrite Hf, Hc. Qed.

(** An update that is rejected leaves the table as it was. *)
Lemma ddbUpdateItem_fault (env : Env) (u : UpdateInput) (w : World) (msg : string) :
  ddbFault env (ops w) = Some msg →
  ddbUpdateItem env u w = mkRun (Throw (ServiceException msg)) (bump w) [DdbUpdate u].
Proof. intros Hf. unfold ddbUpdateItem. by rewrite Hf. Qed.

(** [try { await send(new UpdateCommand({.. new Date() ..})) } catch {}] *)
Lemma bestEffort_update (env : Env) (f : Z → UpdateInput) (w : World) :
  bestEffort (now ← dateNow env; ddbUpdateItem env (f now)) w
  = mkRun (Ok tt)
      (final (ddbUpdateItem env (f (clock env (ops w))) (bump w)))
      [DdbUpdate (f (clock env (ops w)))].
Proof.
  unfold bestEffort. rewrite tryCatch_run, !bind_run. cbn [dateNow result final effects].
  unfold prepend. cbn [result final effects].
  pose proof (ddbUpdateItem_effects env (f (clock env (ops w))) (bump w)) as He.
  destruct (ddbUpdateItem env (f (clock env (ops w))) (bump w)) as [[a | e] wf es];
    cbn in *; subst; reflexivity.
Qed.

Lemma bestEffort_update2 (env : Env) (f : Z → Z → UpdateInput) (w : World) :
  bestEffort (now ← dateNow env; deliveredAt ← dateNow env;
              ddbUpdateItem env (f now deliveredAt)) w
  = mkRun (Ok tt)
      (final (ddbUpdateItem env (f (clock env (ops w)) (clock env (S (ops w))))
                (bump (bump w))))
      [DdbUpdate (f (clock env (ops w)) (clock env (S (ops w))))].
Proof.
  unfold bestEffort. rewrite tryCatch_run, !bind_run. cbn [dateNow result final effects].
  rewrite !bind_run. cbn [dateNow result final effects bump ops].
  unfold prepend. cbn [result final effects].
  pose proof (ddbUpdateItem_effects env
                (f (clock env (ops w)) (clock env (S (ops w)))) (bump (bump w))) as He.
  destruct (ddbUpdateItem env (f (clock env (ops w)) (clock env (S (ops w))))
              (bump (bump w))) as [[a | e] wf es];
    cbn in *; subst; reflexivity.
Qed.

(** ** Sender: the claim (phase 1) *)

Lemma claimCondition_spec (cur : Z) (stored : option Item.t) :
  evalCondition (claimCondition cur) (default Item.empty stored) = true
  ↔ claimable cur stored.
Proof.
  unfold claimable. destruct stored as [it |]; simpl.
  - destruct it as [da gs ty dt nl nu ls lb st sa sc mf fr wc wd ca ua]; simpl.
    split.
    + intros H. eexists; split; [reflexivity |]. simpl.
      destruct ls as [y |]; [| done].
      apply andb_true_iff in H as [Hy Hst]. apply Z.eqb_eq in Hy. subst y.
      split; [done |].
      destruct st as [[] |]; simpl in Hst; try done; [right; done | right; done | left; done].
    + intros (it & Heq & Hls & Hst). inversion Heq; subst it; simpl in *.
      subst ls. rewrite Z.eqb_refl. simpl.
      destruct st as [[] |]; try done; destruct Hst as [? | [? ?]]; done.
  - split; [done |]. by intros (it & ? & _).
Qed.

Lemma claimPhase_run (env : Env) (message : GreeterMessage.t) (cur : Z) (w : World) :
  claimPhase env message cur w =
  let now := clock env (ops w) in
  let u := claimUpdate message cur (nextNotifyUtc env message) now in
  match ddbFault env (S (ops w)) with
  | Some msg => mkRun (Throw (ServiceException msg)) (bump (bump w)) [DdbUpdate u]
  | None =>
      if evalCondition (claimCondition cur)
           (default Item.empty (table w !! messageKey message))
      then mkRun (Ok true)
             (bump (setTable
                      (<[messageKey message :=
                           applySets (default Item.empty (table w !! messageKey message))
                             (UpdateExpression u)]> (table w))
                      (bump w)))
             [DdbUpdate u]
      else mkRun (Ok false) (bump (bump w)) [DdbUpdate u]
  end.
Proof.
  unfold claimPhase, tryCatch, mbind, M_bind, mret, M_ret, throw, dateNow,
    ddbUpdateItem.
  cbn -[evalCondition applySets claimCondition nextNotifyUtc].
  destruct (ddbFault env (S (ops w))); [reflexivity |].
  destruct (evalCondition _ _); reflexivity.
Qed.

Lemma claimAndDeliver_run (env : Env) (message : GreeterMessage.t) (cur : Z) (w : World) :
  claimAndDeliver env message cur w =
  match result (claimPhase env message cur w) with
  | Ok true =>
      prepend (effects (claimPhase env message cur w))
        (deliverPhase env message (final (claimPhase env message cur w)))
  | Ok false =>
      mkRun (Ok ClaimLost) (final (claimPhase env message cur w))
            (effects (claimPhase env message cur w))
  | Throw e =>
      mkRun (Throw e) (final (claimPhase env message cur w))
            (effects (claimPhase env message cur w))
  end.
Proof.
  unfold claimAndDeliver. rewrite bind_run.
  destruct (result (claimPhase env message cur w)) as [[|] | e]; try reflexivity.
  unfold prepend. cbn. by rewrite app_nil_r.
Qed.

(** ** Sender: delivery and completion (phases 2 and 3) *)

Lemma deliverPhase_run (env : Env) (message : GreeterMessage.t) (w : World) :
  deliverPhase env message w =
  match hookbin env (ops w) with
  | None =>
      mkRun (Throw (NetworkError "fetch failed")) (bump w)
            [Fetch (webhookRequest env message)]
  | Some status =>
      if status =? 200 then
        let u := completedUpdate message status (clock env (S (ops w)))
                   (clock env (S (S (ops w)))) in
        mkRun (Ok Sent) (final (ddbUpdateItem env u (bump (bump (bump w)))))
              [Fetch (webhookRequest env message); DdbUpdate u]
      else
        let u := webhookFailedUpdate message (clock env (S (ops w))) in
        mkRun (Throw (Error ("Failed to send message to Hookbin for user " +:+
                              fullName message)))
              (final (ddbUpdateItem env u (bump (bump w))))
              [Fetch (webhookRequest env message); DdbUpdate u]
  end.
Proof.
  unfold deliverPhase. rewrite bind_run. unfold fetch.
  destruct (hookbin env (ops w)) as [status |]; cbn [result final effects];
    [| reflexivity].
  unfold prepend.
  destruct (status =? 200); cbn [negb]; rewrite bind_run.
  - rewrite (bestEffort_update2 env (completedUpdate message status)).
    cbn [result final effects bump ops]. reflexivity.
  - rewrite (bestEffort_update env (webhookFailedUpdate message)).
    cbn [result final effects bump ops]. reflexivity.
Qed.

(** C4, counterexample. The webhook answers 503 in scenario S1: the
    sender raises, and the event is marked failed, but no update of the
    run assigns failureReason, the stored record has no failureReason,
    and the raised message does not mention the status either. So no
    reason containing the response status is recorded. *)
Lemma webhook_503_records_no_reason :
  result (senderRecord (Scenario.envWith (Some 503)) (Scenario.adaMessage 2026)
            Scenario.world0)
  = Throw (Error "Failed to send message to Hookbin for user Ada Lovelace")
  ∧ forallb (λ e, negb (writesFailureReason e))
      (effects (senderRecord (Scenario.envWith (Some 503))
                  (Scenario.adaMessage 2026) Scenario.world0)) = true
  ∧ (table (final (senderRecord (Scenario.envWith (Some 503))
                     (Scenario.adaMessage 2026) Scenario.world0))
       !! ("USER#u1", "EVENT#birthday")) ≫= Item.sendingStatus = Some failed
  ∧ (table (final (senderRecord (Scenario.envWith (Some 503))
                     (Scenario.adaMessage 2026) Scenario.world0))
       !! ("USER#u1", "EVENT#birthday")) ≫= Item.failureReason = None.
Proof. vm_compute. repeat split; reflexivity. Qed.

(** ** Sender: the checks before the claim *)

Lemma stuckCheck_run (env : Env) (message : GreeterMessage.t)
    (st : option MessageSendingStatus) (at_ : option Z) (w : World) :
  stuckCheck env message st at_ w =
  match st, at_ with
  | Some sending, Some attemptedAt =>
      if clock env (ops w) - attemptedAt <? STUCK_TIMEOUT_MS
      then mkRun (Ok true) (bump w) []
      else
        let u := markStuckUpdate message (clock env (S (ops w))) in
        mkRun (Ok false) (final (ddbUpdateItem env u (bump (bump w)))) [DdbUpdate u]
  | _, _ => mkRun (Ok false) w []
  end.
Proof.
  unfold stuckCheck.
  destruct st as [[] |], at_ as [attemptedAt |]; try reflexivity.
  rewrite bind_run. cbn [dateNow result final effects]. unfold prepend.
  destruct (clock env (ops w) - attemptedAt <? STUCK_TIMEOUT_MS); [reflexivity |].
  rewrite bind_run, (bestEffort_update env (markStuckUpdate message)).
  reflexivity.
Qed.

Lemma stuckCheck_ok (env : Env) (message : GreeterMessage.t)
    (st : option MessageSendingStatus) (at_ : option Z) (w : World) :
  ∃ b : bool, result (stuckCheck env message st at_ w) = Ok b.
Proof.
  rewrite stuckCheck_run.
  destruct st as [[] |], at_ as [attemptedAt |]; try (by eexists).
  destruct (_ <? _); by eexists.
Qed.

(** Once past the checks, the record is left by one of two exits or by a
    rethrown service, network or delivery error; never by a stray
    conditional-check failure. *)
Lemma claimAndDeliver_results (env : Env) (message : GreeterMessage.t) (cur : Z)
    (w : World) :
  result (claimAndDeliver env message cur w) ≠ Throw ConditionalCheckFailedException
  ∧ result (claimAndDeliver env message cur w) ≠ Ok AlreadyCompleted
  ∧ result (claimAndDeliver env message cur w) ≠ Ok DuplicatePrevented
  ∧ result (claimAndDeliver env message cur w) ≠ Ok BeingProcessed
  ∧ result (claimAndDeliver env message cur w) ≠ Ok EventNotFound.
Proof.
  rewrite claimAndDeliver_run, claimPhase_run. cbv zeta.
  destruct (ddbFault env (S (ops w))); [done |].
  destruct (evalCondition _ _); cbn [result final effects]; [| done].
  rewrite deliverPhase_run.
  destruct (hookbin env _) as [status |]; [| done].
  destruct (status =? 200); done.
Qed.

Lemma senderRecord_run (env : Env) (message : GreeterMessage.t) (w : World) :
  senderRecord env message w =
  match ddbFault env (ops w) with
  | Some msg =>
      mkRun (Throw (ServiceException msg)) (bump w) [DdbGet (messageKey message)]
  | None =>
      match table w !! messageKey message with
      | None => mkRun (Ok EventNotFound) (bump w) [DdbGet (messageKey message)]
      | Some currentEvent =>
          let cur := default 0 (Item.lastSentYear currentEvent) in
          if (GreeterMessage.yearNow message <=? cur)
             && bool_decide (Item.sendingStatus currentEvent = Some completed)
          then mkRun (Ok AlreadyCompleted) (bump w) [DdbGet (messageKey message)]
          else
            let s := stuckCheck env message (Item.sendingStatus currentEvent)
                       (Item.sendingAttemptedAt currentEvent) (bump w) in
            match result s with
            | Ok true =>
                mkRun (Ok BeingProcessed) (final s)
                      (DdbGet (messageKey message) :: effects s)
            | _ =>
                prepend (DdbGet (messageKey message) :: effects s)
                        (claimAndDeliver env message cur (final s))
            end
      end
  end.
Proof.
  unfold senderRecord. rewrite tryCatch_run, bind_run. unfold ddbGetItem.
  destruct (ddbFault env (ops w)) as [msg |]; cbn [result final effects];
    [reflexivity |].
  destruct (table w !! messageKey message) as [currentEvent |];
    cbn [result final effects]; [| reflexivity].
  cbv zeta.
  destruct ((GreeterMessage.yearNow message <=? default 0 (Item.lastSentYear currentEvent))
            && bool_decide (Item.sendingStatus currentEvent = Some completed));
    [reflexivity |].
  unfold prepend at 1 2 3 4. rewrite bind_run.
  destruct (stuckCheck_ok env message (Item.sendingStatus currentEvent)
              (Item.sendingAttemptedAt currentEvent) (bump w)) as [b Hb].
  rewrite Hb. destruct b; cbn [result final effects prepend]; [by rewrite app_nil_r |].
  pose proof (claimAndDeliver_results env message
                (default 0 (Item.lastSentYear currentEvent))
                (final (stuckCheck env message (Item.sendingStatus currentEvent)
                          (Item.sendingAttemptedAt currentEvent) (bump w))))
    as [Hccf _].
  destruct (claimAndDeliver env message _ _) as [[o | e] wf es];
    cbn [result final effects] in *; [reflexivity |].
  destruct e; [done | ..]; unfold throw, prepend; cbn [result final effects];
    by rewrite app_nil_r.
Qed.

Lemma claimAndDeliver_conditions (env : Env) (message : GreeterMessage.t)
    (cur : Z) (w : World) :
  Forall (λ e, conditionOf e = None ∨ conditionOf e = Some (claimCondition cur))
         (effects (claimAndDeliver env message cur w)).
Proof.
  rewrite claimAndDeliver_run, claimPhase_run. cbv zeta.
  destruct (ddbFault env (S (ops w))); [repeat constructor; by right |].
  destruct (evalCondition _ _); cbn [result final effects prepend];
    [| repeat constructor; by right].
  rewrite deliverPhase_run.
  destruct (hookbin env _) as [status |];
    [destruct (status =? 200) |]; cbn [effects app];
    repeat constructor; (by right) || (by left).
Qed.

Lemma senderRecord_conditions (env : Env) (message : GreeterMessage.t)
    (w : World) (currentEvent : Item.t) :
  ddbFault env (ops w) = None →
  table w !! messageKey message = Some currentEvent →
  Forall (λ e, conditionOf e = None
               ∨ conditionOf e
                 = Some (claimCondition (default 0 (Item.lastSentYear currentEvent))))
         (effects (senderRecord env message w)).
Proof.
  intros Hfault Hget. rewrite senderRecord_run, Hfault, Hget. cbv zeta.
  destruct (_ && _); [repeat constructor; by left |].
  pose proof (claimAndDeliver_conditions env message
                (default 0 (Item.lastSentYear currentEvent))) as Hcad.
  rewrite stuckCheck_run.
  destruct (Item.sendingStatus currentEvent) as [[] |],
    (Item.sendingAttemptedAt currentEvent) as [attemptedAt |];
    cbn [result final effects prepend app];
    try (constructor; [by left | apply Hcad]).
  destruct (_ <? _); cbn [result final effects prepend app].
  - repeat constructor; by left.
  - constructor; [by left |]. constructor; [by left | apply Hcad].
Qed.

(** ** Sender: the claim and the reply, in a run of the loop body *)

(** The sender reaches the claim with the lastSentYear it read: past the
    two checks of the loaded record, the rest of the body is the three
    phases run with that value. *)
Lemma senderRecord_reaches_claim (env : Env) (message : GreeterMessage.t)
    (w : World) (currentEvent : Item.t) :
  ddbFault env (ops w) = None →
  table w !! messageKey message = Some currentEvent →
  (GreeterMessage.yearNow message <=? default 0 (Item.lastSentYear currentEvent))
  && bool_decide (Item.sendingStatus currentEvent = Some completed) = false →
  result (stuckCheck env message (Item.sendingStatus currentEvent)
            (Item.sendingAttemptedAt currentEvent) (bump w)) = Ok false →
  senderRecord env message w
  = prepend (DdbGet (messageKey message)
               :: effects (stuckCheck env message (Item.sendingStatus currentEvent)
                             (Item.sendingAttemptedAt currentEvent) (bump w)))
      (claimAndDeliver env message (default 0 (Item.lastSentYear currentEvent))
         (final (stuckCheck env message (Item.sendingStatus currentEvent)
                   (Item.sendingAttemptedAt currentEvent) (bump w)))).
Proof.
  intros Hfault Hget Hdup Hs.
  rewrite senderRecord_run, Hfault, Hget. cbv zeta. by rewrite Hdup, Hs.
Qed.

Lemma stuckCheck_no_fetch (env : Env) (message : GreeterMessage.t)
    (st : option MessageSendingStatus) (at_ : option Z) (w : World) :
  existsb isFetch (effects (stuckCheck env message st at_ w)) = false.
Proof.
  rewrite stuckCheck_run.
  destruct st as [[] |], at_ as [attemptedAt |]; try reflexivity.
  by destruct (_ <? _).
Qed.

Lemma deliverPhase_fetches (env : Env) (message : GreeterMessage.t) (w : World) :
  existsb isFetch (effects (deliverPhase env message w)) = true.
Proof.
  rewrite deliverPhase_run.
  destruct (hookbin env (ops w)) as [status |]; [| reflexivity].
  by destruct (status =? 200).
Qed.



Lemma sender_cons (env : Env) (message : GreeterMessage.t)
    (rest : list GreeterMessage.t) (w : World) :
  sender env (message :: rest) w =
  match result (senderRecord env message w) with
  | Ok outcome =>
      let t := sender env rest (final (senderRecord env message w)) in
      match result t with
      | Ok outcomes =>
          mkRun (Ok (outcome :: outcomes)) (final t)
            (effects (senderRecord env message w) ++ effects t)
      | Throw e =>
          mkRun (Throw e) (final t)
            (effects (senderRecord env message w) ++ effects t)
      end
  | Throw e =>
      mkRun (Throw e) (final (senderRecord env message w))
        (effects (senderRecord env message w))
  end.
Proof.
  cbn [sender]. rewrite bind_run.
  destruct (result (senderRecord env message w)) as [outcome | e]; [| done].
  rewrite bind_run. cbn zeta.
  destruct (result (sender env rest (final (senderRecord env message w))));
    unfold prepend; cbn [result final effects]; [| done].
  by rewrite app_nil_r.
Qed.

(** C4, amended. Take a run of the sender on a record it has read,
    that passed the checks of the loaded record and whose claim was
    written, and let the webhook POST return [status]. When the status
    is not 200, the sender makes one best-effort write that sets
    sendingStatus to failed and updatedAt to now, and nothing else (no
    failure reason, no response status), and then raises a retriable
    error whatever became of that write: the error is not caught by the
    loop body, it leaves the handler, and the rest of the batch is not
    processed. When the status is 200, the sender makes one best-effort
    write that marks the event completed with the response code and
    the delivery time, and it does not raise, even if that write
    fails: the loop goes on to the rest of the batch. *)
Theorem webhook_reply_handling
    (env : Env) (message : GreeterMessage.t) (w : World) (currentEvent : Item.t)
    (status : Z) :
  let cur := default 0 (Item.lastSentYear currentEvent) in
  let s := stuckCheck env message (Item.sendingStatus currentEvent)
             (Item.sendingAttemptedAt currentEvent) (bump w) in
  let n := ops (final s) in
  let claim := claimUpdate message cur (nextNotifyUtc env message) (clock env n) in
  let claimed :=
    applySets (default Item.empty (table (final s) !! messageKey message))
      (UpdateExpression claim) in
  let posted :=
    DdbGet (messageKey message)
      :: effects s ++ [DdbUpdate claim; Fetch (webhookRequest env message)] in
  let r := senderRecord env message w in
  ddbFault env (ops w) = None →
  table w !! messageKey message = Some currentEvent →
  (GreeterMessage.yearNow message <=? cur)
  && bool_decide (Item.sendingStatus currentEvent = Some completed) = false →
  result s = Ok false →
  ddbFault env (S n) = None →
  claimable cur (table (final s) !! messageKey message) →
  hookbin env (S (S n)) = Some status →
  (status ≠ 200 →
   let failedSets :=
     [SetSendingStatus failed; SetUpdatedAt (clock env (3 + n)%nat)] in
   let raised :=
     Error ("Failed to send message to Hookbin for user " +:+ fullName message) in
   result r = Throw raised
   ∧ effects r = posted ++ [DdbUpdate (mkUpdate (messageKey message) failedSets None)]
   ∧ (ddbFault env (4 + n)%nat = None →
      table (final r)
      = <[messageKey message := applySets claimed failedSets]> (table (final s)))
   ∧ (ddbFault env (4 + n)%nat ≠ None →
      table (final r) = <[messageKey message := claimed]> (table (final s)))
   ∧ (∀ rest, result (sender env (message :: rest) w) = Throw raised
              ∧ effects (sender env (message :: rest) w) = effects r))
  ∧ (status = 200 →
     let completedSets :=
       [SetSendingStatus completed;
        SetSendingCompletedAt (clock env (3 + n)%nat);
        SetWebhookResponseCode 200;
        SetWebhookDeliveredAt (clock env (4 + n)%nat);
        SetUpdatedAt (clock env (3 + n)%nat)] in
     result r = Ok Sent
     ∧ effects r
       = posted ++ [DdbUpdate (mkUpdate (messageKey message) completedSets None)]
     ∧ (ddbFault env (5 + n)%nat = None →
        table (final r)
        = <[messageKey message := applySets claimed completedSets]>
            (table (final s)))
     ∧ (ddbFault env (5 + n)%nat ≠ None →
        table (final r) = <[messageKey message := claimed]> (table (final s)))
     ∧ (∀ rest, result (sender env (message :: rest) w)
                = match result (sender env rest (final r)) with
                  | Ok outcomes => Ok (Sent :: outcomes)
                  | Throw e => Throw e
                  end)).
Proof.
  intros cur s n claim claimed posted r Hfault Hget Hdup Hs Hfault1 Hcl Hreply.
  pose proof (senderRecord_reaches_claim env message w currentEvent
                Hfault Hget Hdup Hs) as Hr.
  fold s cur r in Hr.
  assert (Hsender : ∀ rest,
            sender env (message :: rest) w
            = match result r with
              | Ok outcome =>
                  let t := sender env rest (final r) in
                  match result t with
                  | Ok outcomes =>
                      mkRun (Ok (outcome :: outcomes)) (final t)
                        (effects r ++ effects t)
                  | Throw e => mkRun (Throw e) (final t) (effects r ++ effects t)
                  end
              | Throw e => mkRun (Throw e) (final r) (effects r)
              end) by (intros rest; apply sender_cons).
  apply claimCondition_spec in Hcl.
  clearbody r s.
  assert (Hrun : r = prepend (DdbGet (messageKey message)
                                :: effects s ++ [DdbUpdate claim])
                       (deliverPhase env message
                          (bump (setTable (<[messageKey message := claimed]>
                                             (table (final s)))
                                   (bump (final s)))))).
  { rewrite Hr, claimAndDeliver_run, claimPhase_run. cbv zeta.
    fold n claim. rewrite Hfault1, Hcl.
    unfold prepend. cbn [result final effects app]. do 2 f_equal.
    by rewrite <- app_assoc. }
  clear Hr. revert Hsender. rewrite Hrun. clear Hrun r. intros Hsender.
  rewrite deliverPhase_run in Hsender |- *.
  cbn [bump setTable ops table] in Hsender |- *. fold n in Hsender |- *.
  rewrite Hreply in Hsender |- *.
  split.
  - intros Hne. apply Z.eqb_neq in Hne. rewrite Hne in Hsender |- *.
    cbv zeta in Hsender |- *.
    unfold prepend in Hsender |- *. cbn [result final effects] in Hsender |- *.
    split; [done |].
    split; [subst posted; cbn [app]; f_equal; by rewrite <- !app_assoc |].
    split; [| split].
    + intros Hf. rewrite ddbUpdateItem_unconditional by done.
      cbn [bump setTable table updKey webhookFailedUpdate UpdateExpression].
      by rewrite lookup_insert_eq, insert_insert_eq.
    + intros Hf. destruct (ddbFault env (4 + n)%nat) as [msg |] eqn:E; [| done].
      by rewrite (ddbUpdateItem_fault _ _ _ msg).
    + intros rest. rewrite Hsender. by split.
  - intros ->. cbn [Z.eqb Pos.eqb] in Hsender |- *. cbv zeta in Hsender |- *.
    unfold prepend in Hsender |- *. cbn [result final effects] in Hsender |- *.
    split; [done |].
    split; [subst posted; cbn [app]; f_equal; by rewrite <- !app_assoc |].
    split; [| split].
    + intros Hf. rewrite ddbUpdateItem_unconditional by done.
      cbn [bump setTable table updKey completedUpdate UpdateExpression].
      by rewrite lookup_insert_eq, insert_insert_eq.
    + intros Hf. destruct (ddbFault env (5 + n)%nat) as [msg |] eqn:E; [| done].
      by rewrite (ddbUpdateItem_fault _ _ _ msg).
    + intros rest. rewrite Hsender.
      by destruct (result (sender env rest _)).
Qed.

Lemma webhook_reply_handling_witness :
  result (senderRecord (Scenario.envWith (Some 503)) (Scenario.adaMessage 2026)
            Scenario.world0)
  = Throw (Error ("Failed to send message to Hookbin for user " +:+
                  fullName (Scenario.adaMessage 2026)))
  ∧ result (sender (Scenario.envWith (Some 503))
              [Scenario.adaMessage 2026; Scenario.adaMessage 2026] Scenario.world0)
    = Throw (Error ("Failed to send message to Hookbin for user " +:+
                    fullName (Scenario.adaMessage 2026))).
Proof.
  destruct (webhook_reply_handling (Scenario.envWith (Some 503))
              (Scenario.adaMessage 2026) Scenario.world0
              (eventItem Scenario.ada Scenario.adaBirthday).2 503)
    as [Hfail _]; try reflexivity.
  { eexists. split; [reflexivity |]. split; [reflexivity |]. by right. }
  destruct (Hfail ltac:(lia)) as (Hresult & _ & _ & _ & Hbatch).
  split; [exact Hresult |]. apply Hbatch.
Defined.

(** C3. For a message whose event record exists (and is read), the
    sender leaves it as a duplicate exactly when both lastSentYear (0
    when absent) is at least the message's yearNow and sendingStatus is
    completed; it then has made no webhook call and no write, its only
    effect being the read. When one of the two fails, the record is not
    treated as a duplicate, by either of the duplicate exits. *)
Theorem duplicate_iff_sent_and_completed
    (env : Env) (message : GreeterMessage.t) (w : World) (currentEvent : Item.t) :
  ddbFault env (ops w) = None →
  table w !! messageKey message = Some currentEvent →
  (GreeterMessage.yearNow message ≤ default 0 (Item.lastSentYear currentEvent)
   ∧ Item.sendingStatus currentEvent = Some completed
   ↔ result (senderRecord env message w) = Ok AlreadyCompleted)
  ∧ (result (senderRecord env message w) = Ok AlreadyCompleted →
     senderRecord env message w
     = mkRun (Ok AlreadyCompleted) (bump w) [DdbGet (messageKey message)])
  ∧ result (senderRecord env message w) ≠ Ok DuplicatePrevented.
Proof.
  intros Hfault Hget. rewrite senderRecord_run, Hfault, Hget. cbv zeta.
  destruct (Z.leb_spec (GreeterMessage.yearNow message)
              (default 0 (Item.lastSentYear currentEvent))) as [Hle | Hgt];
    destruct (bool_decide_reflect (Item.sendingStatus currentEvent = Some completed))
      as [Hst | Hst]; cbn [andb]; [by repeat split | ..].
  all: pose proof (claimAndDeliver_results env message
                     (default 0 (Item.lastSentYear currentEvent))
                     (final (stuckCheck env message (Item.sendingStatus currentEvent)
                               (Item.sendingAttemptedAt currentEvent) (bump w))))
         as (_ & Hac & Hdp & _).
  all: destruct (result (stuckCheck env message (Item.sendingStatus currentEvent)
                           (Item.sendingAttemptedAt currentEvent) (bump w)))
         as [[|] | e]; cbn [result prepend].
  all: repeat split; try done; try (intros [? ?]; (done || lia)).
Qed.

(** ** Sender: a record found in the sending state *)

Lemma claimAndDeliver_starts_with_claim (env : Env) (message : GreeterMessage.t)
    (cur : Z) (w : World) :
  ∃ rest,
    effects (claimAndDeliver env message cur w)
    = DdbUpdate (claimUpdate message cur (nextNotifyUtc env message)
                   (clock env (ops w))) :: rest.
Proof.
  rewrite claimAndDeliver_run, claimPhase_run. cbv zeta.
  destruct (ddbFault env (S (ops w))); [by eexists |].
  destruct (evalCondition _ _); cbn [result final effects prepend]; by eexists.
Qed.


Lemma duplicate_iff_sent_and_completed_witness :
  ddbFault Scenario.calm (ops Scenario.worldSent) = None
  ∧ table Scenario.worldSent !! messageKey (Scenario.adaMessage 2026)
    = Some Scenario.sentItem
  ∧ senderRecord Scenario.calm (Scenario.adaMessage 2026) Scenario.worldSent
    = mkRun (Ok AlreadyCompleted) (bump Scenario.worldSent)
        [DdbGet (messageKey (Scenario.adaMessage 2026))].
Proof.
  split; [reflexivity |]. split; [vm_compute; reflexivity |].
  destruct (duplicate_iff_sent_and_completed Scenario.calm (Scenario.adaMessage 2026)
              Scenario.worldSent Scenario.sentItem eq_refl
              ltac:(vm_compute; reflexivity)) as (Hiff & Hrun & _).
  apply Hrun, Hiff. split; [vm_compute; discriminate | reflexivity].
Defined.


(** S4 runs to completion: the abandoned record is marked failed,
    claimed again and delivered. *)
Example stuck_record_is_delivered :
  result (senderRecord Scenario.calm (Scenario.adaMessage 2026)
            Scenario.worldStuck) = Ok Sent
  ∧ (table (final (senderRecord Scenario.calm (Scenario.adaMessage 2026)
                     Scenario.worldStuck))
       !! ("USER#u1", "EVENT#birthday")) ≫= Item.sendingStatus = Some completed.
Proof. vm_compute. split; reflexivity. Qed.

(** S1 followed by S2: the same message delivered twice to the sender
    gives one POST; the second pass finds the record completed for 2026,
    with notifyUtc advanced to 2027-06-15T09:00:00.000Z. *)
Example delivered_once_for_two_deliveries :
  result (sender Scenario.calm [Scenario.adaMessage 2026; Scenario.adaMessage 2026]
            Scenario.world0) = Ok [Sent; AlreadyCompleted]
  ∧ length (List.filter isFetch
              (effects (sender Scenario.calm
                          [Scenario.adaMessage 2026; Scenario.adaMessage 2026]
                          Scenario.world0))) = 1%nat
  ∧ (table (final (sender Scenario.calm
                     [Scenario.adaMessage 2026; Scenario.adaMessage 2026]
                     Scenario.world0))
       !! ("USER#u1", "EVENT#birthday")) ≫= Item.notifyUtc = Some 1813050000000
  ∧ (table (final (sender Scenario.calm
                     [Scenario.adaMessage 2026; Scenario.adaMessage 2026]
                     Scenario.world0))
       !! ("USER#u1", "EVENT#birthday")) ≫= Item.lastSentYear = Some 2026.
Proof. vm_compute. repeat split; reflexivity. Qed.

(** A lost race: a second worker read the pending record of S1
    (lastSentYear 0) before the first one claimed it, and tries its
    claim after the first has finished. The claim is refused and nothing
    is posted. *)
Example late_claim_loses_the_race :
  result (claimAndDeliver Scenario.calm (Scenario.adaMessage 2026) 0
            (final (senderRecord Scenario.calm (Scenario.adaMessage 2026)
                      Scenario.world0)))
  = Ok ClaimLost
  ∧ effects (claimAndDeliver Scenario.calm (Scenario.adaMessage 2026) 0
               (final (senderRecord Scenario.calm (Scenario.adaMessage 2026)
                         Scenario.world0)))
    = [DdbUpdate (claimUpdate (Scenario.adaMessage 2026) 0 1813050000000
                    (Scenario.t0 + 7))].
Proof. vm_compute. split; reflexivity. Qed.

(** S3, at the sender: after a delivery refused with 503 the record is
    failed with lastSentYear 2026, and a redelivery of the message claims
    it again and completes. *)
Example failed_record_is_claimed_again :
  (table (final (senderRecord (Scenario.envWith (Some 503))
                   (Scenario.adaMessage 2026) Scenario.world0))
     !! ("USER#u1", "EVENT#birthday")) ≫= Item.lastSentYear = Some 2026
  ∧ result (senderRecord Scenario.calm (Scenario.adaMessage 2026)
              (final (senderRecord (Scenario.envWith (Some 503))
                        (Scenario.adaMessage 2026) Scenario.world0)))
    = Ok Sent
  ∧ (table (final (senderRecord Scenario.calm (Scenario.adaMessage 2026)
                     (final (senderRecord (Scenario.envWith (Some 503))
                               (Scenario.adaMessage 2026) Scenario.world0))))
       !! ("USER#u1", "EVENT#birthday")) ≫= Item.sendingStatus = Some completed.
Proof. vm_compute. repeat split; reflexivity. Qed.

(** ** Scheduler: the sweep reads and enqueues, and writes nothing *)

Section ReadsOnly.

Context {A B : Type} (P : Effect → Prop).

Lemma readsOnly_ret (a : A) : readsOnly P (mret a).
Proof. intros w. by split. Qed.

Lemma readsOnly_throw (e : Exn) : readsOnly P (@throw A e).
Proof. intros w. by split. Qed.

Lemma readsOnly_bind (m : M A) (f : A → M B) :
  readsOnly P m → (∀ a, readsOnly P (f a)) → readsOnly P (m ≫= f).
Proof.
  intros Hm Hf w. rewrite bind_run. destruct (Hm w) as [Ht He].
  destruct (result (m w)) as [a | e]; cbn [prepend final effects]; [| done].
  destruct (Hf a (final (m w))) as [Ht' He'].
  split; [congruence | by apply Forall_app].
Qed.

Lemma readsOnly_tryCatch (m : M A) (h : Exn → M A) :
  readsOnly P m → (∀ e, readsOnly P (h e)) → readsOnly P (tryCatch m h).
Proof.
  intros Hm Hh w. rewrite tryCatch_run. destruct (Hm w) as [Ht He].
  destruct (result (m w)) as [a | e]; cbn [prepend final effects]; [done |].
  destruct (Hh e (final (m w))) as [Ht' He'].
  split; [congruence | by apply Forall_app].
Qed.

End ReadsOnly.

Section Sweep.

Variable env : Env.

Lemma readsOnly_dateNow : readsOnly (sweepEffect env) (dateNow env).
Proof. intros w. by split. Qed.

Lemma readsOnly_getFullYear : readsOnly (sweepEffect env) (getFullYear env).
Proof.
  apply readsOnly_bind; [apply readsOnly_dateNow | intros; apply readsOnly_ret].
Qed.

Lemma readsOnly_dueQuery (nowUtc currentYear : Z) (lastEvaluatedKey : option nat) :
  readsOnly (sweepEffect env)
    (ddbQuery env (dueQuery nowUtc currentYear lastEvaluatedKey)).
Proof.
  intros w. unfold ddbQuery.
  destruct (ddbFault env (ops w)); cbn [final effects bump table];
    (split; [done | constructor; [by do 3 eexists | constructor]]).
Qed.

Lemma readsOnly_metadata_get (pk : string) :
  readsOnly (sweepEffect env) (ddbGetItem env (pk, "METADATA")).
Proof.
  intros w. unfold ddbGetItem.
  destruct (ddbFault env (ops w)); cbn; (split; [done | by repeat constructor]).
Qed.

Lemma readsOnly_getQueueUrl :
  readsOnly (sweepEffect env) (getQueueUrl env (GREETER_QUEUE_NAME env)).
Proof.
  assert (Hres : readsOnly (sweepEffect env)
                   (resolveQueueUrl env (GREETER_QUEUE_NAME env))).
  { apply readsOnly_bind.
    - intros w. unfold sqsGetQueueUrl.
      repeat case_match; cbn; (split; [done | by repeat constructor]).
    - intros resolvedUrl. apply readsOnly_bind; [by intros w | intros; apply readsOnly_ret]. }
  apply readsOnly_bind; [by intros w |].
  intros [u |]; [| done]. destruct (negb _); [apply readsOnly_ret | done].
Qed.

Lemma readsOnly_greeterSend (queueUrl : string) (user : User.t)
    (event : EnqueueEvent) (yearNow : Z) :
  readsOnly (sweepEffect env)
    (sqsSendMessage env (greeterSend queueUrl user event yearNow)).
Proof.
  intros w. unfold sqsSendMessage.
  repeat case_match; cbn [final effects bump setQueues table];
    (split; [done | constructor; [by do 4 eexists | constructor]]).
Qed.

Lemma readsOnly_enqueueGreeterMessage (user : User.t) (event : EnqueueEvent) :
  readsOnly (sweepEffect env) (enqueueGreeterMessage env user event).
Proof.
  apply readsOnly_bind; [apply readsOnly_getFullYear |]. intros yearNow.
  apply readsOnly_bind; [apply readsOnly_getQueueUrl |]. intros queueUrl.
  apply readsOnly_greeterSend.
Qed.

Lemma readsOnly_scheduleItem (eventItem : EventRow.t) :
  readsOnly (sweepEffect env) (scheduleItem env eventItem).
Proof.
  apply readsOnly_bind; [apply readsOnly_metadata_get |]. intros metadataResult.
  destruct (metadataResult ≫= Item.data) as [userData |]; [| apply readsOnly_ret].
  apply readsOnly_bind; [apply readsOnly_enqueueGreeterMessage |].
  intros; apply readsOnly_ret.
Qed.

Lemma readsOnly_schedulePage (events : list EventRow.t) (c : SchedulerCounters) :
  readsOnly (sweepEffect env) (schedulePage env events c).
Proof.
  revert c. induction events as [| eventItem rest IH]; intros c.
  - apply readsOnly_ret.
  - cbn [schedulePage]. apply readsOnly_bind; [| intros c'; apply IH].
    apply readsOnly_tryCatch; [| intros; apply readsOnly_ret].
    apply readsOnly_bind; [apply readsOnly_scheduleItem | intros; apply readsOnly_ret].
Qed.

Lemma readsOnly_schedulerLoop (fuel : nat) (nowUtc currentYear : Z)
    (lastEvaluatedKey : option nat) (c : SchedulerCounters) :
  readsOnly (sweepEffect env)
    (schedulerLoop env fuel nowUtc currentYear lastEvaluatedKey c).
Proof.
  revert lastEvaluatedKey c. induction fuel as [| fuel IH]; intros lastEvaluatedKey c.
  - apply readsOnly_ret.
  - cbn [schedulerLoop].
    apply readsOnly_bind.
    { apply readsOnly_tryCatch; [apply readsOnly_dueQuery | intros; apply readsOnly_throw]. }
    intros queryResult. apply readsOnly_bind.
    { apply readsOnly_tryCatch; [apply readsOnly_schedulePage | intros; apply readsOnly_ret]. }
    intros c2. destruct (LastEvaluatedKey queryResult); [apply IH | apply readsOnly_ret].
Qed.

Lemma readsOnly_schedulerFrom (fuel : nat) :
  readsOnly (sweepEffect env) (schedulerFrom env fuel).
Proof.
  apply readsOnly_bind; [apply readsOnly_dateNow |]. intros nowUtc.
  apply readsOnly_bind; [apply readsOnly_getFullYear |]. intros currentYear.
  apply readsOnly_bind; [apply readsOnly_schedulerLoop | intros; apply readsOnly_ret].
Qed.

End Sweep.

(** *** The sweep ends *)

Lemma result_bind_ok {A B} (m : M A) (f : A → M B) (w : World) (a : A) :
  result (m w) = Ok a → result ((m ≫= f) w) = result (f a (final (m w))).
Proof. intros H. rewrite bind_run, H. reflexivity. Qed.

Lemma result_bind_throw {A B} (m : M A) (f : A → M B) (w : World) (e : Exn) :
  result (m w) = Throw e → result ((m ≫= f) w) = Throw e.
Proof. intros H. rewrite bind_run, H. reflexivity. Qed.

Lemma tryCatch_rethrow {A} (m : M A) (w : World) :
  tryCatch m (λ err, throw err) w = m w.
Proof.
  rewrite tryCatch_run. destruct (m w) as [[a | e] wf es]; [reflexivity |].
  unfold prepend, throw. cbn. by rewrite app_nil_r.
Qed.

Lemma tryCatch_default_ok {A} (m : M A) (d : A) (w : World) :
  ∃ a, result (tryCatch m (λ _, mret d) w) = Ok a.
Proof.
  rewrite tryCatch_run. destruct (result (m w)) as [a | e] eqn:E.
  - exists a. exact E.
  - exists d. reflexivity.
Qed.

(** Processing a page does not throw: each item catches its own
    failures. *)
Lemma schedulePage_ok (env : Env) (events : list EventRow.t)
    (c : SchedulerCounters) (w : World) :
  ∃ c', result (schedulePage env events c w) = Ok c'.
Proof.
  revert c w. induction events as [| eventItem rest IH]; intros c w.
  - by exists c.
  - cbn [schedulePage]. rewrite bind_run.
    match goal with
    | |- context [tryCatch ?m (λ _, mret ?d) w] =>
        destruct (tryCatch_default_ok m d w) as [c' Hc']
    end.
    rewrite Hc'. cbn [prepend result]. apply IH.
Qed.

Lemma dueQuery_cursor (table : gmap Key Item.t) (nowUtc currentYear : Z)
    (lastEvaluatedKey : option nat) (k : nat) :
  LastEvaluatedKey (runQuery table (dueQuery nowUtc currentYear lastEvaluatedKey))
  = Some k →
  (k = default 0 lastEvaluatedKey + 100
   ∧ default 0 lastEvaluatedKey + 100 ≤ length (dueRange table nowUtc))%nat.
Proof.
  unfold runQuery, dueQuery. cbn [Limit KeyConditionExpression ExclusiveStartKey
                                   LastEvaluatedKey].
  fold (dueRange table nowUtc).
  destruct (Nat.leb_spec 100 (length (drop (default 0%nat lastEvaluatedKey)
                                         (dueRange table nowUtc)))) as [Hle | Hgt];
    [| done].
  intros [= <-]. rewrite length_drop in Hle. lia.
Qed.

Lemma schedulerLoop_enough_fuel (env : Env) (fuel : nat) (nowUtc currentYear : Z)
    (lastEvaluatedKey : option nat) (c : SchedulerCounters) (w : World) :
  (length (dueRange (table w) nowUtc) - default 0 lastEvaluatedKey < fuel)%nat →
  result (schedulerLoop env fuel nowUtc currentYear lastEvaluatedKey c w) ≠ Ok None.
Proof.
  revert lastEvaluatedKey c w.
  induction fuel as [| fuel IH]; intros lastEvaluatedKey c w Hfuel; [lia |].
  cbn [schedulerLoop]. rewrite bind_run, tryCatch_rethrow.
  unfold ddbQuery at 1 2 3.
  destruct (ddbFault env (ops w)) as [msg |]; cbn [result final effects]; [done |].
  cbn [prepend result].
  set (queryResult := runQuery (table w) (dueQuery nowUtc currentYear lastEvaluatedKey)).
  set (c1 := mkCounters _ _ _).
  destruct (tryCatch_default_ok (schedulePage env (Items queryResult) c1) c1 (bump w))
    as [c2 Hc2].
  rewrite (result_bind_ok _ _ _ c2 Hc2).
  destruct (LastEvaluatedKey queryResult) as [k |] eqn:Hk; [| done].
  apply dueQuery_cursor in Hk as [-> Hle].
  apply IH. cbn [default].
  assert (Htable : table (final (tryCatch (schedulePage env (Items queryResult) c1)
                                   (λ _, mret c1) (bump w))) = table w).
  { assert (Hro : readsOnly (sweepEffect env)
                    (tryCatch (schedulePage env (Items queryResult) c1)
                       (λ _, mret c1))).
    { apply readsOnly_tryCatch;
        [apply readsOnly_schedulePage | intros; apply readsOnly_ret]. }
    apply (Hro (bump w)). }
  rewrite Htable. unfold id in *. lia.
Qed.

Lemma dueRange_length (table : gmap Key Item.t) (nowUtc : Z) :
  (length (dueRange table nowUtc) ≤ length (indexView table))%nat.
Proof. apply length_filter. Qed.

(** C7. A sweep of the scheduler never writes to the table: whether it
    completes or aborts on a failed page read, the table after the sweep
    is the table before it, record for record, and everything the sweep
    does outside the process is a due-events query of the index, a read
    of a user's metadata, or part of an enqueue on the greeter queue
    (resolving its URL, sending a greeter message). The sweep always
    ends, with a response or with the error of a page read. *)
Theorem scheduler_writes_nothing (env : Env) (w : World) :
  table (final (scheduler env w)) = table w
  ∧ (∀ k : Key, table (final (scheduler env w)) !! k = table w !! k)
  ∧ Forall (sweepEffect env) (effects (scheduler env w))
  ∧ result (scheduler env w) ≠ Ok None.
Proof.
  unfold scheduler.
  destruct (readsOnly_schedulerFrom env (S (length (indexView (table w)))) w)
    as [Htable Heffects].
  split; [exact Htable |]. split; [by rewrite Htable |]. split; [exact Heffects |].
  unfold schedulerFrom. rewrite bind_run. cbn [dateNow result final effects prepend].
  rewrite bind_run. unfold getFullYear at 1 2 3. rewrite !bind_run.
  cbn [dateNow result final effects prepend mret M_ret].
  rewrite bind_run.
  pose proof (schedulerLoop_enough_fuel env (S (length (indexView (table w))))
                (clock env (ops w)) (yearOfInstant (clock env (S (ops w)))) None
                (mkCounters 0 0 0) (bump (bump w))) as Hfuel.
  destruct (result (schedulerLoop env _ _ _ None _ (bump (bump w)))) as [[c |] | e];
    cbn [prepend result mret M_ret mbind option_bind]; try done.
  exfalso. apply Hfuel; [| reflexivity].
  cbn [bump table default]. pose proof (dueRange_length (table w) (clock env (ops w))). lia.
Qed.

(** ** DLQ processor: the redrive is gated by depth and health *)

Lemma depthEffects_quiet (es : list Effect) :
  Forall depthEffect es →
  existsb isFetch es = false ∧ existsb isRedriveEffect es = false.
Proof.
  induction 1 as [| e es He _ [IH1 IH2]]; [done |].
  cbn [existsb]. rewrite IH1, IH2. by destruct e.
Qed.

Section Depth.

Variable env : Env.

Lemma readsOnly_queryMessageCount (queueName : string) :
  readsOnly depthEffect (queryMessageCount env queueName).
Proof.
  assert (Hres : readsOnly depthEffect (resolveQueueUrl env queueName)).
  { apply readsOnly_bind.
    - intros w. unfold sqsGetQueueUrl.
      repeat case_match; cbn; (split; [done | by repeat constructor]).
    - intros resolvedUrl. apply readsOnly_bind; [by intros w | intros; apply readsOnly_ret]. }
  apply readsOnly_bind.
  { apply readsOnly_bind; [by intros w |].
    intros [u |]; [| done]. destruct (negb _); [apply readsOnly_ret | done]. }
  intros queueUrl. apply readsOnly_bind; [| intros; apply readsOnly_ret].
  intros w. unfold sqsGetQueueAttributes.
  repeat case_match; cbn; (split; [done | by repeat constructor]).
Qed.

Lemma readsOnly_getMessageCount (queueName : string) :
  readsOnly depthEffect (getMessageCount env queueName).
Proof.
  apply readsOnly_tryCatch;
    [apply readsOnly_queryMessageCount | intros; apply readsOnly_ret].
Qed.

Lemma queryMessageCount_nonneg (queueName : string) (w : World) (count : Z) :
  result (queryMessageCount env queueName w) = Ok count → 0 ≤ count.
Proof.
  unfold queryMessageCount. rewrite bind_run.
  destruct (result (getQueueUrl env queueName w)) as [queueUrl | e];
    cbn [result prepend]; [| done].
  rewrite bind_run.
  destruct (result (sqsGetQueueAttributes env queueUrl _)) as [attribute | e];
    cbn [result prepend mret M_ret]; [| done].
  intros [= <-]. destruct attribute; cbn [parseCount]; lia.
Qed.

(** The depth query never throws: a failure inside it reads as depth 0. *)
Lemma getMessageCount_run (queueName : string) (w : World) :
  (∀ count, result (queryMessageCount env queueName w) = Ok count →
            getMessageCount env queueName w = queryMessageCount env queueName w)
  ∧ (∀ e, result (queryMessageCount env queueName w) = Throw e →
          getMessageCount env queueName w
          = mkRun (Ok 0) (final (queryMessageCount env queueName w))
              (effects (queryMessageCount env queueName w))).
Proof.
  unfold getMessageCount. rewrite tryCatch_run. split.
  - intros count Hc. by rewrite Hc.
  - intros e He. rewrite He. unfold prepend. cbn. by rewrite app_nil_r.
Qed.

Lemma getMessageCount_ok (queueName : string) (w : World) :
  ∃ count, result (getMessageCount env queueName w) = Ok count ∧ 0 ≤ count.
Proof.
  destruct (getMessageCount_run queueName w) as [Hok Hthrow].
  destruct (result (queryMessageCount env queueName w)) as [count | e] eqn:E.
  - exists count. rewrite (Hok count eq_refl). split; [exact E |].
    by apply (queryMessageCount_nonneg queueName w).
  - exists 0. by rewrite (Hthrow e eq_refl).
Qed.

Lemma checkServiceHealth_run (w : World) :
  checkServiceHealth env w =
  mkRun (Ok (bool_decide (hookbin env (S (ops w)) = Some 200))) (bump (bump w))
        [Fetch (healthPing env (clock env (ops w)))].
Proof.
  unfold checkServiceHealth. rewrite tryCatch_run, bind_run.
  cbn [dateNow result final effects prepend]. rewrite bind_run. unfold fetch.
  cbn [bump ops].
  destruct (hookbin env (S (ops w))) as [status |]; cbn; [| reflexivity].
  destruct (Z.eqb_spec status 200) as [-> | Hne].
  - by rewrite bool_decide_eq_true_2.
  - rewrite bool_decide_eq_false_2; [done | congruence].
Qed.

(** The start of a run of the DLQ processor, up to and including the two
    gates. *)
Lemma dlqProcess_gates (w : World) (count : Z) :
  result (getMessageCount env (DLQ_QUEUE_NAME env) w) = Ok count →
  (count = 0 →
   dlqProcess env w
   = mkRun (Ok (mkDlqResponse 200 "DLQ is empty" None (mkStats 0 0 0 0 false)))
       (final (getMessageCount env (DLQ_QUEUE_NAME env) w))
       (effects (getMessageCount env (DLQ_QUEUE_NAME env) w)))
  ∧ (count ≠ 0 →
     hookbin env (S (ops (final (getMessageCount env (DLQ_QUEUE_NAME env) w))))
     ≠ Some 200 →
     dlqProcess env w
     = mkRun (Ok (mkDlqResponse 200 "Service unhealthy, redrive skipped" None
                    (mkStats count 0 0 0 false)))
         (bump (bump (final (getMessageCount env (DLQ_QUEUE_NAME env) w))))
         (effects (getMessageCount env (DLQ_QUEUE_NAME env) w)
          ++ [Fetch (healthPing env
                       (clock env
                          (ops (final (getMessageCount env (DLQ_QUEUE_NAME env) w)))))])).
Proof.
  intros Hcount. unfold dlqProcess. rewrite bind_run, Hcount. split.
  - intros ->. cbn [Z.eqb result]. by rewrite prepend_ret.
  - intros Hne Hprobe. apply Z.eqb_neq in Hne. rewrite Hne.
    rewrite bind_run, checkServiceHealth_run.
    rewrite bool_decide_eq_false_2 by exact Hprobe.
    cbn [negb result final effects]. rewrite prepend_ret.
    unfold prepend. reflexivity.
Qed.

Lemma dlqProcessor_gates (w : World) (count : Z) :
  result (getMessageCount env (DLQ_QUEUE_NAME env) w) = Ok count →
  (count = 0 →
   dlqProcessor env w
   = mkRun (Ok (mkDlqResponse 200 "DLQ is empty" None (mkStats 0 0 0 0 false)))
       (final (getMessageCount env (DLQ_QUEUE_NAME env) w))
       (effects (getMessageCount env (DLQ_QUEUE_NAME env) w)))
  ∧ (count ≠ 0 →
     hookbin env (S (ops (final (getMessageCount env (DLQ_QUEUE_NAME env) w))))
     ≠ Some 200 →
     dlqProcessor env w
     = mkRun (Ok (mkDlqResponse 200 "Service unhealthy, redrive skipped" None
                    (mkStats count 0 0 0 false)))
         (bump (bump (final (getMessageCount env (DLQ_QUEUE_NAME env) w))))
         (effects (getMessageCount env (DLQ_QUEUE_NAME env) w)
          ++ [Fetch (healthPing env
                       (clock env
                          (ops (final (getMessageCount env (DLQ_QUEUE_NAME env) w)))))])).
Proof.
  intros Hcount. destruct (dlqProcess_gates w count Hcount) as [Hempty Hsick].
  unfold dlqProcessor. split.
  - intros Hc. rewrite (tryCatch_ok _ _ _ _ (f_equal result (Hempty Hc))).
    exact (Hempty Hc).
  - intros Hc Hp. rewrite (tryCatch_ok _ _ _ _ (f_equal result (Hsick Hc Hp))).
    exact (Hsick Hc Hp).
Qed.

(** The redrive does not throw: each message catches its own failures,
    and a failure before the loop is caught around it. *)
Lemma redriveLoop_ok (dlqUrl greeterQueueUrl : string)
    (messages : list SqsMessage.t) (redrivenCount failedCount : Z) (w : World) :
  ∃ counts,
    result (redriveLoop env dlqUrl greeterQueueUrl messages redrivenCount
              failedCount w) = Ok counts.
Proof.
  revert redrivenCount failedCount w.
  induction messages as [| message rest IH]; intros redrivenCount failedCount w.
  - by eexists.
  - cbn [redriveLoop]. rewrite bind_run.
    match goal with
    | |- context [tryCatch ?m (λ _, mret ?d) w] =>
        destruct (tryCatch_default_ok m d w) as [ok Hok]
    end.
    rewrite Hok. cbn [prepend result]. destruct ok; apply IH.
Qed.

Lemma redriveMessages_ok (maxMessages : Z) (w : World) :
  ∃ counts, result (redriveMessages env maxMessages w) = Ok counts.
Proof. apply tryCatch_default_ok. Qed.

(** The DLQ processor always answers 200: the handler of its outer [try]
    is never entered. *)
Lemma dlqProcess_ok (w : World) :
  ∃ resp, result (dlqProcess env w) = Ok resp ∧ dlqStatusCode resp = 200.
Proof.
  destruct (getMessageCount_ok (DLQ_QUEUE_NAME env) w) as (count & Hcount & _).
  unfold dlqProcess. rewrite (result_bind_ok _ _ _ count Hcount).
  destruct (count =? 0).
  { eexists. split; reflexivity. }
  assert (Hhealth : ∃ healthy,
             result (checkServiceHealth env
                       (final (getMessageCount env (DLQ_QUEUE_NAME env) w)))
             = Ok healthy).
  { rewrite checkServiceHealth_run. by eexists. }
  destruct Hhealth as [healthy Hhealth].
  rewrite (result_bind_ok _ _ _ healthy Hhealth).
  destruct healthy; cbn [negb].
  2: { eexists. split; reflexivity. }
  destruct (redriveMessages_ok (Z.min count 10)
              (final (checkServiceHealth env
                        (final (getMessageCount env (DLQ_QUEUE_NAME env) w)))))
    as [[redriven failedCount] Hre].
  rewrite (result_bind_ok _ _ _ (redriven, failedCount) Hre).
  eexists. split; reflexivity.
Qed.

Lemma dlqProcessor_ok (w : World) :
  ∃ resp, result (dlqProcessor env w) = Ok resp ∧ dlqStatusCode resp = 200.
Proof.
  destruct (dlqProcess_ok w) as (resp & Hresp & Hcode).
  exists resp. unfold dlqProcessor. by rewrite (tryCatch_ok _ _ _ resp Hresp).
Qed.

End Depth.

(** C8. A run of the DLQ processor first queries the DLQ depth. With
    depth zero it returns "DLQ is empty" at once: no health probe, no
    receive, no re-enqueue, no delete. With a depth other than zero it
    probes the webhook, and if the probe does not answer 200 (another
    status, or no answer at all) it returns "Service unhealthy, redrive
    skipped" with no receive, re-enqueue or delete. So a run receives,
    re-enqueues or deletes a message only if the depth query returned a
    count greater than zero and the probe answered 200. *)
Theorem dlq_redrive_is_gated (env : Env) (w : World) :
  ∃ count : Z,
    result (getMessageCount env (DLQ_QUEUE_NAME env) w) = Ok count
    ∧ 0 ≤ count
    ∧ (count = 0 →
       result (dlqProcessor env w)
       = Ok (mkDlqResponse 200 "DLQ is empty" None (mkStats 0 0 0 0 false))
       ∧ existsb isFetch (effects (dlqProcessor env w)) = false
       ∧ existsb isRedriveEffect (effects (dlqProcessor env w)) = false)
    ∧ (count ≠ 0 →
       hookbin env (S (ops (final (getMessageCount env (DLQ_QUEUE_NAME env) w))))
       ≠ Some 200 →
       result (dlqProcessor env w)
       = Ok (mkDlqResponse 200 "Service unhealthy, redrive skipped" None
               (mkStats count 0 0 0 false))
       ∧ existsb isRedriveEffect (effects (dlqProcessor env w)) = false)
    ∧ (existsb isRedriveEffect (effects (dlqProcessor env w)) = true →
       0 < count
       ∧ hookbin env (S (ops (final (getMessageCount env (DLQ_QUEUE_NAME env) w))))
         = Some 200).
Proof.
  destruct (getMessageCount_ok env (DLQ_QUEUE_NAME env) w) as (count & Hcount & Hpos).
  destruct (dlqProcessor_gates env w count Hcount) as [Hempty Hsick].
  destruct (readsOnly_getMessageCount env (DLQ_QUEUE_NAME env) w) as [_ Hquiet].
  apply depthEffects_quiet in Hquiet as [Hnofetch Hnoredrive].
  assert (Hzero : count = 0 →
                  result (dlqProcessor env w)
                  = Ok (mkDlqResponse 200 "DLQ is empty" None (mkStats 0 0 0 0 false))
                  ∧ existsb isFetch (effects (dlqProcessor env w)) = false
                  ∧ existsb isRedriveEffect (effects (dlqProcessor env w)) = false).
  { intros Hc. rewrite (Hempty Hc). by cbn [result effects]. }
  assert (Hbad : count ≠ 0 →
                 hookbin env (S (ops (final (getMessageCount env (DLQ_QUEUE_NAME env) w))))
                 ≠ Some 200 →
                 result (dlqProcessor env w)
                 = Ok (mkDlqResponse 200 "Service unhealthy, redrive skipped" None
                         (mkStats count 0 0 0 false))
                 ∧ existsb isRedriveEffect (effects (dlqProcessor env w)) = false).
  { intros Hc Hp. rewrite (Hsick Hc Hp). cbn [result effects].
    split; [done |]. rewrite existsb_app, Hnoredrive. reflexivity. }
  exists count. repeat split; try done; try (by apply Hzero); try (by apply Hbad).
  - destruct (decide (count = 0)) as [Hc | Hc]; [| lia].
    destruct (Hzero Hc) as (_ & _ & Hno). congruence.
  - destruct (decide (count = 0)) as [Hc | Hc].
    { destruct (Hzero Hc) as (_ & _ & Hno). congruence. }
    destruct (decide (hookbin env
                        (S (ops (final (getMessageCount env (DLQ_QUEUE_NAME env) w))))
                      = Some 200)) as [Hp | Hp]; [done |].
    destruct (Hbad Hc Hp) as [_ Hno]. congruence.
Qed.

(** With one dead letter and a healthy webhook the message goes back to
    the greeter queue and leaves the DLQ (scenario S3, recovery; the
    greeter queue has not seen the deduplication id in its window and
    keeps the copy). *)
Example dlq_redrives_when_healthy :
  result (dlqProcessor Scenario.calm (Scenario.worldOf [] [Scenario.deadLetter]))
  = Ok (mkDlqResponse 200 "DLQ processing completed" None (mkStats 1 1 1 0 true))
  ∧ queues (final (dlqProcessor Scenario.calm
                     (Scenario.worldOf [] [Scenario.deadLetter])))
      !! Scenario.dlqUrl = Some []
  ∧ length <$> queues (final (dlqProcessor Scenario.calm
                                (Scenario.worldOf [] [Scenario.deadLetter])))
                 !! Scenario.greeterUrl = Some 1%nat.
Proof. vm_compute. repeat split; reflexivity. Qed.

(** A rejected GetQueueAttributes call makes the depth query throw. *)
Lemma queryMessageCount_attributes_fault (env : Env) (queueName : string)
    (w : World) (queueUrl msg : string) :
  result (getQueueUrl env queueName w) = Ok queueUrl →
  sqsFault env (ops (final (getQueueUrl env queueName w))) = Some msg →
  result (queryMessageCount env queueName w) = Throw (ServiceException msg).
Proof.
  intros Hurl Hfault. unfold queryMessageCount.
  rewrite (result_bind_ok _ _ _ queueUrl Hurl).
  apply result_bind_throw. unfold sqsGetQueueAttributes. by rewrite Hfault.
Qed.

(** C10. If the depth query of the DLQ fails, resolving the queue or
    reading its attributes, [getMessageCount] returns 0 and does not
    propagate the error; the DLQ processor then reports "DLQ is empty"
    and, in that run, makes no health probe and receives, re-enqueues
    and deletes nothing. *)
Theorem failed_depth_query_reads_as_empty (env : Env) (w : World) (e : Exn) :
  result (queryMessageCount env (DLQ_QUEUE_NAME env) w) = Throw e →
  result (getMessageCount env (DLQ_QUEUE_NAME env) w) = Ok 0
  ∧ result (dlqProcessor env w)
    = Ok (mkDlqResponse 200 "DLQ is empty" None (mkStats 0 0 0 0 false))
  ∧ effects (dlqProcessor env w)
    = effects (queryMessageCount env (DLQ_QUEUE_NAME env) w)
  ∧ existsb isFetch (effects (dlqProcessor env w)) = false
  ∧ existsb isRedriveEffect (effects (dlqProcessor env w)) = false.
Proof.
  intros Hthrow.
  destruct (getMessageCount_run env (DLQ_QUEUE_NAME env) w) as [_ Hrun].
  specialize (Hrun e Hthrow).
  assert (Hcount : result (getMessageCount env (DLQ_QUEUE_NAME env) w) = Ok 0)
    by (by rewrite Hrun).
  destruct (dlqProcessor_gates env w 0 Hcount) as [Hempty _].
  rewrite (Hempty eq_refl), Hrun. cbn [result final effects].
  destruct (readsOnly_queryMessageCount env (DLQ_QUEUE_NAME env) w) as [_ Hquiet].
  apply depthEffects_quiet in Hquiet as [Hnofetch Hnoredrive].
  by repeat split.
Qed.

Lemma failed_depth_query_reads_as_empty_witness :
  result (queryMessageCount Scenario.attributesDown
            (DLQ_QUEUE_NAME Scenario.attributesDown)
            (Scenario.worldOf [] [Scenario.deadLetter]))
  = Throw (ServiceException "ServiceUnavailable")
  ∧ result (dlqProcessor Scenario.attributesDown
              (Scenario.worldOf [] [Scenario.deadLetter]))
    = Ok (mkDlqResponse 200 "DLQ is empty" None (mkStats 0 0 0 0 false))
  ∧ effects (dlqProcessor Scenario.attributesDown
               (Scenario.worldOf [] [Scenario.deadLetter]))
    = [SqsGetQueueUrl "GreeterDLQ.fifo"; SqsGetQueueAttributes Scenario.dlqUrl].
Proof.
  split; [reflexivity |].
  destruct (failed_depth_query_reads_as_empty Scenario.attributesDown
              (Scenario.worldOf [] [Scenario.deadLetter])
              (ServiceException "ServiceUnavailable") eq_refl)
    as (_ & Hresponse & Heffects & _).
  split; [exact Hresponse |]. rewrite Heffects. reflexivity.
Defined.

(** ** Health monitor: the status is a function of the issue count *)

Lemma classify_spec (totalIssues : nat) :
  (classify totalIssues = healthy ↔ totalIssues = 0%nat)
  ∧ (classify totalIssues = warning ↔ (1 ≤ totalIssues ≤ 4)%nat)
  ∧ (classify totalIssues = critical ↔ (5 ≤ totalIssues)%nat).
Proof.
  unfold classify.
  destruct (Nat.ltb_spec 0 totalIssues), (Nat.ltb_spec totalIssues 5),
    (Nat.leb_spec 5 totalIssues); cbn [andb]; repeat split; intros; (done || lia).
Qed.

(** Every row of the stuck query yields exactly one reported stuck
    event, whether it is promoted to failed or only monitored, and the
    loop does not throw. *)
Lemma checkStuck_ok (env : Env) (events : list EventRow.t) (nowMs : Z)
    (acc : list StuckEvent) (w : World) :
  ∃ stuck, result (checkStuck env events nowMs acc w) = Ok stuck
           ∧ length stuck = (length acc + length events)%nat.
Proof.
  revert acc w. induction events as [| event rest IH]; intros acc w.
  - exists acc. cbn. split; [done | lia].
  - cbn [checkStuck]. rewrite bind_run.
    set (step := (if match EventRow.sendingAttemptedAt event with
                     | Some attemptedAt => MONITOR_STUCK_TIMEOUT_MS <? nowMs - attemptedAt
                     | None => false
                     end
                  then tryCatch
                         (_ ← ddbUpdateItem env (monitorFailedUpdate event nowMs);
                          mret marked_failed_for_retry)
                         (λ _, mret monitoring)
                  else mret monitoring) : M StuckAction).
    assert (Hstep : ∃ a, result (step w) = Ok a).
    { subst step. destruct (match EventRow.sendingAttemptedAt event with
                            | Some _ => _ | None => _ end).
      - apply tryCatch_default_ok.
      - by exists monitoring. }
    destruct Hstep as [a Ha]. rewrite Ha. cbn [prepend result].
    destruct (IH (acc ++ [stuckEventOf event nowMs a]) (final (step w)))
      as (stuck & Hres & Hlen).
    exists stuck. split; [exact Hres |].
    rewrite Hlen, length_app. cbn [length]. lia.
Qed.

Lemma ddbQuery_run (env : Env) (q : QueryInput) (w : World) :
  ddbQuery env q w =
  match ddbFault env (ops w) with
  | Some msg => mkRun (Throw (ServiceException msg)) (bump w) [DdbQuery q]
  | None => mkRun (Ok (runQuery (table w) q)) (bump w) [DdbQuery q]
  end.
Proof. reflexivity. Qed.

(** The shape of every report the monitor produces. *)
Lemma healthReport_shape (env : Env) (currentYear now : Z) (w : World)
    (resp : HealthResponse) (rep : HealthCheckResult) :
  result (healthReport env currentYear now w) = Ok resp →
  healthBody resp = HealthReport rep →
  status rep = classify (missedEventsCount rep + stuckEventsCount rep)
  ∧ missedEventsCount rep = length (missedEvents rep)
  ∧ stuckEventsCount rep = length (stuckEvents rep)
  ∧ missedEventsCount rep
    = length (Items (runQuery (table w) (missedQuery now currentYear)))
  ∧ stuckEventsCount rep = length (Items (runQuery (table w) stuckQuery)).
Proof.
  unfold healthReport. rewrite bind_run, ddbQuery_run.
  destruct (ddbFault env (ops w)) as [msg |]; cbn [result final effects prepend];
    [done |].
  rewrite bind_run, ddbQuery_run. cbn [bump ops table].
  destruct (ddbFault env (S (ops w))) as [msg |]; cbn [result final effects prepend];
    [done |].
  rewrite bind_run.
  destruct (checkStuck_ok env (Items (runQuery (table w) stuckQuery)) now []
              (bump (bump w))) as (stuck & Hres & Hlen).
  cbn [bump] in Hres |- *. rewrite Hres.
  cbn [result final effects prepend mret M_ret].
  intros [= <-]. cbn [healthBody]. intros [= <-].
  cbn [status missedEventsCount stuckEventsCount missedEvents stuckEvents].
  rewrite length_map. cbn [length] in Hlen. by rewrite Hlen.
Qed.

Lemma healthCheck_report (env : Env) (w : World) (resp : HealthResponse)
    (rep : HealthCheckResult) :
  result (healthCheck env w) = Ok resp →
  healthBody resp = HealthReport rep →
  result (healthReport env (yearOfInstant (clock env (ops w)))
            (clock env (S (ops w))) (bump (bump w))) = Ok resp.
Proof.
  unfold healthCheck. rewrite bind_run. unfold getFullYear. rewrite bind_run.
  cbn [dateNow result final effects prepend mret M_ret].
  rewrite bind_run. cbn [dateNow result final effects prepend bump ops].
  rewrite tryCatch_run.
  destruct (result (healthReport env _ _ _)) as [r | e] eqn:E; [by rewrite E |].
  cbn [prepend result mret M_ret]. intros [= <-]. done.
Qed.

(** C9. Whenever the health monitor produces a report, its status is
    healthy exactly when the number of missed events plus the number of
    stuck events is 0, warning exactly when that total is between 1 and
    4, and critical exactly when it is 5 or more; the two numbers are
    the lengths of the reported lists and the numbers of rows returned
    by the missed-events query and by the stuck-events query. *)
Theorem health_status_by_issue_count
    (env : Env) (w : World) (resp : HealthResponse) (rep : HealthCheckResult) :
  result (healthCheck env w) = Ok resp →
  healthBody resp = HealthReport rep →
  (status rep = healthy ↔ (missedEventsCount rep + stuckEventsCount rep = 0)%nat)
  ∧ (status rep = warning
     ↔ (1 ≤ missedEventsCount rep + stuckEventsCount rep ≤ 4)%nat)
  ∧ (status rep = critical ↔ (5 ≤ missedEventsCount rep + stuckEventsCount rep)%nat)
  ∧ missedEventsCount rep = length (missedEvents rep)
  ∧ stuckEventsCount rep = length (stuckEvents rep)
  ∧ missedEventsCount rep
    = length (Items (runQuery (table w)
                       (missedQuery (clock env (S (ops w)))
                          (yearOfInstant (clock env (ops w))))))
  ∧ stuckEventsCount rep = length (Items (runQuery (table w) stuckQuery)).
Proof.
  intros Hrun Hbody.
  pose proof (healthCheck_report env w resp rep Hrun Hbody) as Hreport.
  destruct (healthReport_shape env _ _ _ resp rep Hreport Hbody)
    as (Hstatus & Hmissed & Hstuck & Hq1 & Hq2).
  cbn [bump table] in Hq1, Hq2.
  rewrite Hstatus.
  destruct (classify_spec (missedEventsCount rep + stuckEventsCount rep))
    as (Hh & Hw & Hc).
  by repeat split; try apply Hh; try apply Hw; try apply Hc.
Qed.

Lemma health_status_by_issue_count_witness :
  result (healthCheck Scenario.calm Scenario.world0)
  = Ok (mkHealthResponse 207 (HealthReport reportS1))
  ∧ (status reportS1 = warning
     ↔ (1 ≤ missedEventsCount reportS1 + stuckEventsCount reportS1 ≤ 4)%nat).
Proof.
  split; [vm_compute; reflexivity |].
  apply (health_status_by_issue_count Scenario.calm Scenario.world0
           (mkHealthResponse 207 (HealthReport reportS1)) reportS1
           ltac:(vm_compute; reflexivity) eq_refl).
Defined.

(** * Further properties *)

(** ** The queue library *)

Lemma resolveQueueUrl_run (env : Env) (queueName : string) (w : World) :
  resolveQueueUrl env queueName w =
  match sqsFault env (ops w) with
  | Some msg =>
      mkRun (Throw (ServiceException msg)) (bump w) [SqsGetQueueUrl queueName]
  | None =>
      match queueUrlOf env queueName with
      | Some u =>
          mkRun (Ok u)
            (setCachedQueueUrls (<[queueName := u]> (cachedQueueUrls w)) (bump w))
            [SqsGetQueueUrl queueName]
      | None =>
          mkRun (Throw (ServiceException "QueueDoesNotExist")) (bump w)
            [SqsGetQueueUrl queueName]
      end
  end.
Proof.
  unfold resolveQueueUrl. rewrite bind_run. unfold sqsGetQueueUrl.
  destruct (sqsFault env (ops w)); [reflexivity |].
  destruct (queueUrlOf env queueName); reflexivity.
Qed.

Lemma getQueueUrl_run (env : Env) (queueName : string) (w : World) :
  getQueueUrl env queueName w =
  match cachedQueueUrls w !! queueName with
  | Some u =>
      if negb (String.eqb u "") then mkRun (Ok u) w []
      else resolveQueueUrl env queueName w
  | None => resolveQueueUrl env queueName w
  end.
Proof.
  unfold getQueueUrl. rewrite bind_run. cbn [cacheGet result final effects].
  rewrite prepend_nil.
  destruct (cachedQueueUrls w !! queueName) as [u |]; [| reflexivity].
  destruct (negb (String.eqb u "")); reflexivity.
Qed.

(** The name resolution leaves the table and the queues alone. *)
Lemma getQueueUrl_frame (env : Env) (queueName : string) (w : World) :
  table (final (getQueueUrl env queueName w)) = table w
  ∧ queues (final (getQueueUrl env queueName w)) = queues w.
Proof.
  rewrite getQueueUrl_run.
  destruct (cachedQueueUrls w !! queueName) as [u |];
    [destruct (negb (String.eqb u "")); [done |] |];
    rewrite resolveQueueUrl_run;
    destruct (sqsFault env (ops w)); try done;
    destruct (queueUrlOf env queueName); done.
Qed.

Lemma getQueueUrl_effects (env : Env) (queueName : string) (w : World) :
  effects (getQueueUrl env queueName w) = []
  ∨ effects (getQueueUrl env queueName w) = [SqsGetQueueUrl queueName].
Proof.
  rewrite getQueueUrl_run.
  destruct (cachedQueueUrls w !! queueName) as [u |];
    [destruct (negb (String.eqb u "")); [by left |] |];
    rewrite resolveQueueUrl_run;
    destruct (sqsFault env (ops w)); try (by right);
    destruct (queueUrlOf env queueName); by right.
Qed.

(** X1. A queue URL that was resolved once is served from the cache: a
    later call, whatever the state of SQS then, returns the same URL
    without any call to SQS. A resolution that fails caches nothing: it
    rethrows after its one GetQueueUrl call and leaves the cache as it
    was. (An empty URL counts as not cached.) *)
Theorem getQueueUrl_caches_resolution
    (env env' : Env) (queueName : string) (w : World) :
  (∀ queueUrl,
     result (getQueueUrl env queueName w) = Ok queueUrl → queueUrl ≠ "" →
     getQueueUrl env' queueName (final (getQueueUrl env queueName w))
     = mkRun (Ok queueUrl) (final (getQueueUrl env queueName w)) [])
  ∧ (∀ e,
       result (getQueueUrl env queueName w) = Throw e →
       cachedQueueUrls (final (getQueueUrl env queueName w)) = cachedQueueUrls w
       ∧ effects (getQueueUrl env queueName w) = [SqsGetQueueUrl queueName]).
Proof.
  assert (Hhit : ∀ (u : string) (w' : World),
            cachedQueueUrls w' !! queueName = Some u → u ≠ "" →
            getQueueUrl env' queueName w' = mkRun (Ok u) w' []).
  { intros u w' Hc Hu. rewrite getQueueUrl_run, Hc.
    destruct (String.eqb_spec u ""); [done | reflexivity]. }
  assert (Hres : ∀ queueUrl,
            result (resolveQueueUrl env queueName w) = Ok queueUrl →
            cachedQueueUrls (final (resolveQueueUrl env queueName w)) !! queueName
            = Some queueUrl).
  { intros queueUrl. rewrite resolveQueueUrl_run.
    destruct (sqsFault env (ops w)); [done |].
    destruct (queueUrlOf env queueName); [| done].
    cbn [result final setCachedQueueUrls cachedQueueUrls].
    intros [= ->]. apply lookup_insert_eq. }
  assert (Hthrow : ∀ e,
            result (resolveQueueUrl env queueName w) = Throw e →
            cachedQueueUrls (final (resolveQueueUrl env queueName w))
            = cachedQueueUrls w
            ∧ effects (resolveQueueUrl env queueName w) = [SqsGetQueueUrl queueName]).
  { intros e. rewrite resolveQueueUrl_run.
    destruct (sqsFault env (ops w)); [done |].
    destruct (queueUrlOf env queueName); done. }
  split.
  - intros queueUrl. rewrite (getQueueUrl_run env).
    destruct (cachedQueueUrls w !! queueName) as [u |] eqn:Hc.
    + destruct (String.eqb_spec u "") as [-> | Hu]; cbn [negb].
      * intros Hr Hne. by apply Hhit; [apply Hres |].
      * cbn [result final]. intros [= ->] _. by apply Hhit.
    + intros Hr Hne. by apply Hhit; [apply Hres |].
  - intros e. rewrite (getQueueUrl_run env).
    destruct (cachedQueueUrls w !! queueName) as [u |] eqn:Hc.
    + destruct (String.eqb_spec u "") as [-> | Hu]; cbn [negb]; [apply Hthrow | done].
    + apply Hthrow.
Qed.

(** ** The depth of a queue *)

Lemma queryMessageCount_run (env : Env) (queueName : string) (w : World) :
  queryMessageCount env queueName w =
  let g := getQueueUrl env queueName w in
  match result g with
  | Ok queueUrl =>
      prepend (effects g)
        (match sqsFault env (ops (final g)) with
         | Some msg => mkRun (Throw (ServiceException msg)) (bump (final g))
                         [SqsGetQueueAttributes queueUrl]
         | None =>
             match queues (final g) !! queueUrl with
             | Some q => mkRun (Ok (Z.of_nat (length q))) (bump (final g))
                           [SqsGetQueueAttributes queueUrl]
             | None => mkRun (Throw (ServiceException "QueueDoesNotExist"))
                         (bump (final g)) [SqsGetQueueAttributes queueUrl]
             end
         end)
  | Throw e => mkRun (Throw e) (final g) (effects g)
  end.
Proof.
  unfold queryMessageCount. rewrite bind_run. cbn zeta.
  destruct (result (getQueueUrl env queueName w)) as [queueUrl | e]; [| reflexivity].
  f_equal. rewrite bind_run. unfold sqsGetQueueAttributes.
  destruct (sqsFault env (ops (final (getQueueUrl env queueName w))));
    [reflexivity |].
  destruct (queues (final (getQueueUrl env queueName w)) !! queueUrl);
    reflexivity.
Qed.

(** X2. [getMessageCount] never throws and never reports a negative
    depth; it changes neither the table nor any queue. When the name
    resolves and SQS answers the attribute query, the count is the
    number of messages the queue holds. *)
Theorem getMessageCount_counts_the_queue
    (env : Env) (queueName : string) (w : World) :
  (∃ count, result (getMessageCount env queueName w) = Ok count ∧ 0 ≤ count)
  ∧ table (final (getMessageCount env queueName w)) = table w
  ∧ queues (final (getMessageCount env queueName w)) = queues w
  ∧ (∀ queueUrl q,
       result (getQueueUrl env queueName w) = Ok queueUrl →
       sqsFault env (ops (final (getQueueUrl env queueName w))) = None →
       queues w !! queueUrl = Some q →
       result (getMessageCount env queueName w) = Ok (Z.of_nat (length q))).
Proof.
  destruct (getQueueUrl_frame env queueName w) as [Ht Hq].
  unfold getMessageCount. rewrite tryCatch_run, queryMessageCount_run. cbn zeta.
  destruct (result (getQueueUrl env queueName w)) as [queueUrl | e] eqn:Hg.
  - destruct (sqsFault env (ops (final (getQueueUrl env queueName w)))) eqn:Hf.
    + cbn. repeat split; try done. by exists 0.
    + rewrite Hq.
      destruct (queues w !! queueUrl) as [q |] eqn:Hl.
      * cbn. repeat split; try done; [eexists; split; [done | lia] |].
        intros ? ? [= <-] _. rewrite Hl. by intros [= <-].
      * cbn. repeat split; try done; [by exists 0 |].
        intros ? ? [= <-] _. by rewrite Hl.
  - cbn. repeat split; try done. by exists 0.
Qed.

(** ** Enqueueing *)

Lemma enqueueGreeterMessage_run (env : Env) (user : User.t)
    (event : EnqueueEvent) (w : World) :
  enqueueGreeterMessage env user event w =
  let g := getQueueUrl env (GREETER_QUEUE_NAME env) (bump w) in
  match result g with
  | Ok queueUrl =>
      prepend (effects g)
        (sqsSendMessage env
           (greeterSend queueUrl user event (yearOfInstant (clock env (ops w))))
           (final g))
  | Throw e => mkRun (Throw e) (final g) (effects g)
  end.
Proof.
  unfold enqueueGreeterMessage, getFullYear.
  rewrite !bind_run. cbn [dateNow result final effects].
  rewrite prepend_ret. cbn [result final effects]. rewrite prepend_nil.
  rewrite bind_run. reflexivity.
Qed.

(** X3. An enqueue never writes to the table and makes at most one
    SendMessage call, after at most one GetQueueUrl call. When the URL
    of the greeter queue resolves, the run makes exactly one SendMessage
    call, to that URL: its body carries the user, the key of the event,
    its type, date and local time, 0 for an absent lastSentYear and the
    year read from the clock; its group is the event type and its
    deduplication id is `id-type-year`. When the resolution fails, no
    SendMessage is made and the failure is rethrown. The enqueue returns
    only after that call has returned. (What the queue does with a
    message it accepted, such as discarding a deduplication id it has
    seen in the last five minutes, is not the producer's.) *)
Theorem enqueueGreeterMessage_sends_one
    (env : Env) (user : User.t) (event : EnqueueEvent) (w : World) :
  let yearNow := yearOfInstant (clock env (ops w)) in
  let g := getQueueUrl env (GREETER_QUEUE_NAME env) (bump w) in
  let r := enqueueGreeterMessage env user event w in
  let send (queueUrl : string) :=
    SqsSendMessage
      (mkSend queueUrl
         (GreeterMessage.mk user (evPk event) (evSk event) (evType event)
            (evDate event) (evNotifyLocalTime event)
            (default 0 (evLastSentYear event)) yearNow)
         (eventNameString (evType event))
         (User.id user +:+ "-" +:+ eventNameString (evType event) +:+ "-" +:+
          pretty yearNow)) in
  table (final r) = table w
  ∧ (effects g = [] ∨ effects g = [SqsGetQueueUrl (GREETER_QUEUE_NAME env)])
  ∧ (∀ queueUrl, result g = Ok queueUrl → effects r = effects g ++ [send queueUrl])
  ∧ (∀ e, result g = Throw e → result r = Throw e ∧ effects r = effects g)
  ∧ (result r = Ok tt →
     ∃ queueUrl, result g = Ok queueUrl
                 ∧ List.filter isSend (effects r) = [send queueUrl]).
Proof.
  intros yearNow g r send. subst r yearNow.
  destruct (getQueueUrl_frame env (GREETER_QUEUE_NAME env) (bump w)) as [Ht _].
  pose proof (getQueueUrl_effects env (GREETER_QUEUE_NAME env) (bump w)) as Hg.
  cbn [bump table] in Ht.
  rewrite enqueueGreeterMessage_run. cbn zeta. fold g in Ht, Hg |- *.
  clearbody g.
  destruct (result g) as [queueUrl | e];
    [| split_and!; try done; by intros ? [= <-]].
  set (yearNow := yearOfInstant (clock env (ops w))) in *.
  assert (Hsend : effects (sqsSendMessage env
                             (greeterSend queueUrl user event yearNow) (final g))
                  = [send queueUrl]
                  ∧ table (final (sqsSendMessage env
                                    (greeterSend queueUrl user event yearNow)
                                    (final g))) = table (final g)).
  { unfold sqsSendMessage. destruct (sqsFault env (ops (final g))); [done |].
    by destruct (queues (final g) !! QueueUrl _). }
  destruct Hsend as [Hsend Htable].
  unfold prepend. cbn [result final effects]. rewrite Hsend, Htable.
  split_and!; try done.
  - by intros ? [= <-].
  - intros _. exists queueUrl. split; [done |].
    rewrite List.filter_app.
    by destruct Hg as [-> | ->].
Qed.

(** ** Redrive *)

Lemma redriveOne_run (env : Env) (dlqUrl greeterQueueUrl : string)
    (message : SqsMessage.t) (w : World) :
  redriveOne env dlqUrl greeterQueueUrl message w =
  let w1 := match truthy (SqsMessage.MessageDeduplicationId message) with
            | Some _ => w
            | None => bump (bump w)
            end in
  let dedup := match truthy (SqsMessage.MessageDeduplicationId message) with
               | Some d => d
               | None => "redrive-" +:+ pretty (clock env (ops w)) +:+ "-" +:+
                         random env (S (ops w))
               end in
  (_ ← sqsSendMessage env
         (mkSend greeterQueueUrl (SqsMessage.Body message)
            (default "birthday" (truthy (SqsMessage.MessageGroupId message)))
            dedup);
   sqsDeleteMessage env dlqUrl (SqsMessage.ReceiptHandle message)) w1.
Proof.
  unfold redriveOne.
  destruct (truthy (SqsMessage.MessageDeduplicationId message)) as [d |].
  - rewrite bind_run. cbn [result final effects mret M_ret].
    by rewrite prepend_nil.
  - rewrite bind_run. rewrite bind_run. cbn [dateNow result final effects].
    rewrite prepend_nil. rewrite bind_run.
    cbn [mathRandom result final effects bump ops]. rewrite prepend_ret.
    cbn [result final effects]. by rewrite prepend_nil.
Qed.

(** One pass of the loop body: it never writes to the table and makes
    one SendMessage call, of the copy. Either that is its only call, the
    body throws and no queue has changed; or the DeleteMessage call
    follows, and the dead-letter queue is then as it was (the delete
    failed, the body throws) or has lost the messages with the receipt
    handle (the body returns). *)
Lemma redriveOne_outcome (env : Env) (dlqUrl greeterQueueUrl : string)
    (message : SqsMessage.t) (w : World) :
  let r := redriveOne env dlqUrl greeterQueueUrl message w in
  table (final r) = table w
  ∧ length (List.filter isSend (effects r)) = 1%nat
  ∧ ∃ dedup,
      (∀ d, truthy (SqsMessage.MessageDeduplicationId message) = Some d →
            dedup = d)
      ∧ ((∃ e, result r = Throw e)
         ∧ effects r = [SqsSendMessage (redriveSend greeterQueueUrl message dedup)]
         ∧ queues (final r) = queues w
         ∨ effects r
           = [SqsSendMessage (redriveSend greeterQueueUrl message dedup);
              SqsDeleteMessage dlqUrl (SqsMessage.ReceiptHandle message)]
           ∧ (dlqUrl ≠ greeterQueueUrl →
              (∃ e, result r = Throw e)
              ∧ queues (final r) !! dlqUrl = queues w !! dlqUrl
              ∨ result r = Ok tt
                ∧ ∃ dlq, queues w !! dlqUrl = Some dlq
                         ∧ queues (final r) !! dlqUrl
                           = Some (filter (λ m, SqsMessage.ReceiptHandle m
                                                ≠ SqsMessage.ReceiptHandle message)
                                     dlq))).
Proof.
  cbn zeta. rewrite redriveOne_run. cbn zeta.
  set (w1 := match truthy (SqsMessage.MessageDeduplicationId message) with
             | Some _ => w
             | None => bump (bump w)
             end).
  set (dedup := match truthy (SqsMessage.MessageDeduplicationId message) with
                | Some d => d
                | None => _
                end).
  assert (Ht : table w1 = table w) by (subst w1; by destruct (truthy _)).
  assert (Hq : queues w1 = queues w) by (subst w1; by destruct (truthy _)).
  assert (Hd : ∀ d, truthy (SqsMessage.MessageDeduplicationId message) = Some d
                    → dedup = d).
  { intros d Hd. subst dedup. by rewrite Hd. }
  rewrite <- Ht, <- Hq. clearbody w1 dedup. clear Ht Hq.
  fold (redriveSend greeterQueueUrl message dedup).
  rewrite bind_run. unfold sqsSendMessage.
  cbn [QueueUrl redriveSend].
  destruct (sqsFault env (ops w1)) as [msg |] eqn:Hf1.
  { cbn. split_and!; try done. exists dedup. split; [done |]. left.
    split_and!; [by eexists | done ..]. }
  destruct (queues w1 !! greeterQueueUrl) as [q |] eqn:Hq.
  2: { cbn. split_and!; try done. exists dedup. split; [done |]. left.
       split_and!; [by eexists | done ..]. }
  cbn [result final effects prepend].
  unfold sqsDeleteMessage. cbn [bump setQueues ops queues].
  set (stored := SqsMessage.mk _ _ _ _). clearbody stored.
  destruct (sqsFault env (S (ops w1))) as [msg |] eqn:Hf2.
  { cbn. split_and!; try done. exists dedup. split; [done |]. right.
    split; [done |]. intros Hne. left. split; [by eexists |].
    by rewrite lookup_insert_ne. }
  destruct (<[greeterQueueUrl := q ++ [stored]]> (queues w1) !! dlqUrl)
    as [dlq |] eqn:Hdlq.
  - cbn. split_and!; try done. exists dedup. split; [done |]. right.
    split; [done |]. intros Hne. right. split; [done |].
    rewrite lookup_insert_ne in Hdlq by done.
    exists dlq. split; [done |]. by rewrite lookup_insert_eq.
  - cbn. split_and!; try done. exists dedup. split; [done |]. right.
    split; [done |]. intros Hne. left. split; [by eexists |].
    by rewrite lookup_insert_ne.
Qed.

(** One turn of the loop: the body runs, the counter of its outcome is
    incremented, and the loop goes on from the world the body left. *)
Lemma redriveLoop_cons (env : Env) (dlqUrl greeterQueueUrl : string)
    (message : SqsMessage.t) (rest : list SqsMessage.t)
    (redrivenCount failedCount : Z) (w : World) :
  let r := redriveOne env dlqUrl greeterQueueUrl message w in
  redriveLoop env dlqUrl greeterQueueUrl (message :: rest) redrivenCount
    failedCount w
  = prepend (effects r)
      (match result r with
       | Ok _ => redriveLoop env dlqUrl greeterQueueUrl rest (redrivenCount + 1)
                   failedCount (final r)
       | Throw _ => redriveLoop env dlqUrl greeterQueueUrl rest redrivenCount
                      (failedCount + 1) (final r)
       end).
Proof.
  cbn zeta. cbn [redriveLoop]. rewrite bind_run, tryCatch_run, bind_run.
  destruct (result (redriveOne env dlqUrl greeterQueueUrl message w)) as [[] | e].
  - rewrite prepend_ret. cbn [result final effects]. reflexivity.
  - cbn [result final effects]. rewrite prepend_ret.
    cbn [result final effects]. reflexivity.
Qed.

Lemma redriveLoop_counts (env : Env) (dlqUrl greeterQueueUrl : string)
    (messages : list SqsMessage.t) (redrivenCount failedCount : Z) (w : World) :
  let r := redriveLoop env dlqUrl greeterQueueUrl messages redrivenCount
             failedCount w in
  table (final r) = table w
  ∧ length (List.filter isSend (effects r)) = length messages
  ∧ ∃ redriven failedNow,
      result r = Ok (redriven, failedNow)
      ∧ redrivenCount ≤ redriven ∧ failedCount ≤ failedNow
      ∧ redriven + failedNow
        = redrivenCount + failedCount + Z.of_nat (length messages).
Proof.
  cbn zeta. revert redrivenCount failedCount w.
  induction messages as [| message rest IH]; intros redrivenCount failedCount w.
  - cbn. split_and!; try done. eexists _, _. split_and!; [done | lia ..].
  - rewrite redriveLoop_cons. cbn zeta.
    destruct (redriveOne_outcome env dlqUrl greeterQueueUrl message w)
      as (Ht & Hs & _).
    cbn [prepend result final effects]. rewrite List.filter_app, length_app, Hs.
    destruct (result (redriveOne env dlqUrl greeterQueueUrl message w)).
    + destruct (IH (redrivenCount + 1) failedCount
                  (final (redriveOne env dlqUrl greeterQueueUrl message w)))
        as (Ht' & Hs' & redriven & failedNow & Hr & ? & ? & ?).
      rewrite Ht', Hs', Hr, Ht. split_and!; try done.
      eexists _, _. split; [done |]. cbn [length]. lia.
    + destruct (IH redrivenCount (failedCount + 1)
                  (final (redriveOne env dlqUrl greeterQueueUrl message w)))
        as (Ht' & Hs' & redriven & failedNow & Hr & ? & ? & ?).
      rewrite Ht', Hs', Hr, Ht. split_and!; try done.
      eexists _, _. split; [done |]. cbn [length]. lia.
Qed.

Lemma redriveMessages_counts (env : Env) (maxMessages : Z) (w : World) :
  let r := redriveMessages env maxMessages w in
  table (final r) = table w
  ∧ ∃ redriven failedNow,
      result r = Ok (redriven, failedNow)
      ∧ 0 ≤ redriven ∧ 0 ≤ failedNow
      ∧ redriven + failedNow ≤ Z.max 0 maxMessages
      ∧ Z.of_nat (length (List.filter isSend (effects r)))
        = redriven + failedNow.
Proof.
  cbn zeta. unfold redriveMessages. rewrite tryCatch_run, bind_run.
  destruct (getQueueUrl_frame env (DLQ_QUEUE_NAME env) w) as [Ht1 Hq1].
  assert (Hs1 : List.filter isSend
                  (effects (getQueueUrl env (DLQ_QUEUE_NAME env) w)) = []).
  { rewrite getQueueUrl_run.
    destruct (cachedQueueUrls w !! DLQ_QUEUE_NAME env) as [u |];
      [destruct (negb (String.eqb u "")); [done |] |];
      rewrite resolveQueueUrl_run;
      destruct (sqsFault env (ops w)); try done;
      destruct (queueUrlOf env (DLQ_QUEUE_NAME env)); done. }
  destruct (result (getQueueUrl env (DLQ_QUEUE_NAME env) w)) as [dlqUrl | e].
  2: { cbn [result final effects prepend mret M_ret]. rewrite app_nil_r, Hs1.
       split; [done |]. exists 0, 0. split_and!; [done | cbn; lia ..]. }
  set (w1 := final (getQueueUrl env (DLQ_QUEUE_NAME env) w)) in *.
  rewrite bind_run.
  destruct (getQueueUrl_frame env (GREETER_QUEUE_NAME env) w1) as [Ht2 Hq2].
  assert (Hs2 : List.filter isSend
                  (effects (getQueueUrl env (GREETER_QUEUE_NAME env) w1)) = []).
  { rewrite getQueueUrl_run.
    destruct (cachedQueueUrls w1 !! GREETER_QUEUE_NAME env) as [u |];
      [destruct (negb (String.eqb u "")); [done |] |];
      rewrite resolveQueueUrl_run;
      destruct (sqsFault env (ops w1)); try done;
      destruct (queueUrlOf env (GREETER_QUEUE_NAME env)); done. }
  destruct (result (getQueueUrl env (GREETER_QUEUE_NAME env) w1))
    as [greeterQueueUrl | e].
  2: { cbn [result final effects prepend mret M_ret].
       rewrite app_nil_r, List.filter_app, Hs1, Hs2, Ht2.
       split; [done |]. exists 0, 0. split_and!; [done | cbn; lia ..]. }
  set (w2 := final (getQueueUrl env (GREETER_QUEUE_NAME env) w1)) in *.
  rewrite bind_run. unfold sqsReceiveMessage.
  destruct (sqsFault env (ops w2)) as [msg |].
  { cbn [result final effects prepend mret M_ret bump table].
    rewrite app_nil_r, !List.filter_app, Hs1, Hs2, Ht2.
    split; [done |]. exists 0, 0. split_and!; [done | cbn; lia ..]. }
  destruct (queues w2 !! dlqUrl) as [dlq |].
  2: { cbn [result final effects prepend mret M_ret bump table].
       rewrite app_nil_r, !List.filter_app, Hs1, Hs2, Ht2.
       split; [done |]. exists 0, 0. split_and!; [done | cbn; lia ..]. }
  cbn [result final effects].
  destruct (redriveLoop_counts env dlqUrl greeterQueueUrl
              (take (Z.to_nat maxMessages) dlq) 0 0 (bump w2))
    as (Ht3 & Hs3 & redriven & failedNow & Hr & ? & ? & Hsum).
  cbn [prepend result final effects]. rewrite Hr.
  cbn [result final effects prepend]. rewrite Ht3. cbn [bump table].
  rewrite !List.filter_app, Hs1, Hs2. cbn [List.filter isSend app]. rewrite Hs3.
  split; [by rewrite Ht2 |]. exists redriven, failedNow.
  rewrite length_take in Hsum |- *.
  split_and!; [done | lia ..].
Qed.

Lemma depthEffects_no_send (es : list Effect) :
  Forall depthEffect es → List.filter isSend es = [].
Proof.
  induction 1 as [| e es He _ IH]; [done |].
  cbn [List.filter]. by destruct e.
Qed.

(** The third step of a run of the DLQ processor, behind the two
    gates. *)
Lemma dlqProcess_redrives (env : Env) (w : World) (count redriven failedNow : Z) :
  let g := getMessageCount env (DLQ_QUEUE_NAME env) w in
  let r := redriveMessages env (Z.min count 10) (bump (bump (final g))) in
  result g = Ok count →
  count ≠ 0 →
  hookbin env (S (ops (final g))) = Some 200 →
  result r = Ok (redriven, failedNow) →
  dlqProcess env w
  = mkRun (Ok (mkDlqResponse 200 "DLQ processing completed" None
                 (mkStats count (redriven + failedNow) redriven failedNow true)))
      (final r)
      (effects g ++ [Fetch (healthPing env (clock env (ops (final g))))]
       ++ effects r).
Proof.
  intros g r Hcount Hne Hprobe Hr. subst g r.
  unfold dlqProcess. revert Hr. generalize (redriveMessages env). intros redrive Hr.
  revert Hcount Hprobe Hr.
  generalize (getMessageCount env (DLQ_QUEUE_NAME env)). intros depth Hcount Hprobe Hr.
  rewrite bind_run, Hcount.
  apply Z.eqb_neq in Hne. rewrite Hne.
  rewrite bind_run, checkServiceHealth_run.
  rewrite bool_decide_eq_true_2 by exact Hprobe.
  cbn [negb result final effects]. rewrite bind_run, Hr, prepend_ret.
  unfold prepend. cbn [result final effects]. reflexivity.
Qed.

Lemma dlqProcess_accounting (env : Env) (w : World) :
  ∃ resp,
    result (dlqProcess env w) = Ok resp
    ∧ dlqStatusCode resp = 200
    ∧ table (final (dlqProcess env w)) = table w
    ∧ 0 ≤ messagesInDLQ (dlqStats resp)
    ∧ 0 ≤ messagesRedriven (dlqStats resp)
    ∧ 0 ≤ messagesFailed (dlqStats resp)
    ∧ messagesProcessed (dlqStats resp)
      = messagesRedriven (dlqStats resp) + messagesFailed (dlqStats resp)
    ∧ messagesProcessed (dlqStats resp) ≤ Z.min (messagesInDLQ (dlqStats resp)) 10
    ∧ Z.of_nat (length (List.filter isSend (effects (dlqProcess env w))))
      = messagesProcessed (dlqStats resp).
Proof.
  destruct (getMessageCount_ok env (DLQ_QUEUE_NAME env) w) as (count & Hg & Hc).
  destruct (readsOnly_getMessageCount env (DLQ_QUEUE_NAME env) w) as [Ht He].
  apply depthEffects_no_send in He.
  destruct (dlqProcess_gates env w count Hg) as [Hempty Hunhealthy].
  destruct (decide (count = 0)) as [H0 | H0].
  { rewrite (Hempty H0). cbn [result final effects]. rewrite He.
    eexists. split; [reflexivity |].
    cbn [dlqStats dlqStatusCode messagesInDLQ messagesProcessed
         messagesRedriven messagesFailed length].
    split_and!; try done; lia. }
  destruct (decide (hookbin env
              (S (ops (final (getMessageCount env (DLQ_QUEUE_NAME env) w))))
            = Some 200)) as [Hh | Hh].
  2: { rewrite (Hunhealthy H0 Hh). cbn [result final effects bump table].
       rewrite List.filter_app, He. eexists. split; [reflexivity |].
       cbn [dlqStats dlqStatusCode messagesInDLQ messagesProcessed
            messagesRedriven messagesFailed length List.filter isSend app].
       split_and!; try done; lia. }
  destruct (redriveMessages_counts env (Z.min count 10)
              (bump (bump (final (getMessageCount env (DLQ_QUEUE_NAME env) w)))))
    as (Ht' & redriven & failedNow & Hr & ? & ? & ? & Hs).
  rewrite (dlqProcess_redrives env w count redriven failedNow Hg H0 Hh Hr).
  clear Hempty Hunhealthy Hr Hg Hh. revert Ht' Hs.
  generalize (redriveMessages env (Z.min count 10)
                (bump (bump (final (getMessageCount env (DLQ_QUEUE_NAME env) w))))).
  revert Ht He. generalize (getMessageCount env (DLQ_QUEUE_NAME env) w).
  intros g Ht He r Ht' Hs.
  cbn [result final effects]. rewrite Ht'. cbn [bump table].
  rewrite !List.filter_app, He. cbn [List.filter isSend app]. rewrite Hs.
  eexists. split; [reflexivity |].
  cbn [dlqStats dlqStatusCode messagesInDLQ messagesProcessed
       messagesRedriven messagesFailed].
  split_and!; try done; lia.
Qed.

(** X4. The DLQ processor always answers 200 and never touches the
    table. Its statistics add up: processed = redriven + failed, no
    counter is negative, and at most 10 messages, and no more than the
    depth it read, are processed in one invocation. Each processed
    message is one SendMessage call, so at most 10 messages are put
    back on the greeter queue per invocation. *)
Theorem dlqProcessor_accounting (env : Env) (w : World) :
  ∃ resp,
    result (dlqProcessor env w) = Ok resp
    ∧ dlqStatusCode resp = 200
    ∧ table (final (dlqProcessor env w)) = table w
    ∧ 0 ≤ messagesInDLQ (dlqStats resp)
    ∧ 0 ≤ messagesRedriven (dlqStats resp)
    ∧ 0 ≤ messagesFailed (dlqStats resp)
    ∧ messagesProcessed (dlqStats resp)
      = messagesRedriven (dlqStats resp) + messagesFailed (dlqStats resp)
    ∧ messagesProcessed (dlqStats resp) ≤ Z.min (messagesInDLQ (dlqStats resp)) 10
    ∧ Z.of_nat (length (List.filter isSend (effects (dlqProcessor env w))))
      = messagesProcessed (dlqStats resp).
Proof.
  destruct (dlqProcess_accounting env w) as (resp & Hr & Hrest).
  exists resp. unfold dlqProcessor. rewrite (tryCatch_ok _ _ _ _ Hr).
  by split.
Qed.

Lemma NoDup_fmap_eq {A B} (f : A → B) (l : list A) (x y : A) :
  NoDup (f <$> l) → x ∈ l → y ∈ l → f x = f y → x = y.
Proof.
  induction l as [| a l IH]; [by intros _ ?%elem_of_nil |].
  rewrite fmap_cons, NoDup_cons, !elem_of_cons.
  intros [Ha Hl] [-> | Hx] [-> | Hy] Hf; [done | | | by apply IH].
  - destruct Ha. rewrite Hf. by apply list_elem_of_fmap_2.
  - destruct Ha. rewrite <- Hf. by apply list_elem_of_fmap_2.
Qed.

Lemma deletedAfterSend_app (dlqUrl greeterQueueUrl : string)
    (es1 es2 : list Effect) (m : SqsMessage.t) :
  deletedAfterSend dlqUrl greeterQueueUrl es1 m
  ∨ deletedAfterSend dlqUrl greeterQueueUrl es2 m →
  deletedAfterSend dlqUrl greeterQueueUrl (es1 ++ es2) m.
Proof.
  intros [(before & dedup & after & -> & Hd) | (before & dedup & after & -> & Hd)].
  - exists before, dedup, (after ++ es2). split; [| done].
    by rewrite <- app_assoc.
  - exists (es1 ++ before), dedup, after. split; [| done].
    by rewrite <- app_assoc.
Qed.

(** X5. A redrive removes from the dead-letter queue only what it has
    re-sent. Let the dead-letter queue hold [dlq], with distinct receipt
    handles, and let the loop run on messages received from it, the
    greeter queue being another queue. Whatever SQS rejects on the way,
    each message of [dlq] is afterwards still in the dead-letter queue,
    or its DeleteMessage call was made directly after the SendMessage
    call of its copy to the greeter queue had returned: the same body,
    the group of the original (or "birthday") and the deduplication id
    of the original when it has one. And every DeleteMessage call of
    the run is such a call, for one of the messages received. (The copy
    goes out under the original deduplication id; whether the greeter
    queue keeps a message it accepted, or discards it as a duplicate of
    one it has seen in the last five minutes, is the transport's.) *)
Theorem redrive_deletes_only_what_it_sent
    (env : Env) (dlqUrl greeterQueueUrl : string)
    (messages dlq : list SqsMessage.t) (redrivenCount failedCount : Z)
    (w : World) :
  dlqUrl ≠ greeterQueueUrl →
  queues w !! dlqUrl = Some dlq →
  NoDup (SqsMessage.ReceiptHandle <$> dlq) →
  messages ⊆ dlq →
  let r := redriveLoop env dlqUrl greeterQueueUrl messages redrivenCount
             failedCount w in
  (∀ m, m ∈ dlq →
        (∃ cur, queues (final r) !! dlqUrl = Some cur ∧ m ∈ cur)
        ∨ deletedAfterSend dlqUrl greeterQueueUrl (effects r) m)
  ∧ (∀ queueUrl receiptHandle,
       SqsDeleteMessage queueUrl receiptHandle ∈ effects r →
       queueUrl = dlqUrl
       ∧ ∃ m, m ∈ messages
              ∧ receiptHandle = SqsMessage.ReceiptHandle m
              ∧ deletedAfterSend dlqUrl greeterQueueUrl (effects r) m).
Proof.
  intros Hne Hdlq Hnodup Hsub. cbn zeta.
  assert (Hgen : ∀ (w : World) (redrivenCount failedCount : Z) (cur : list SqsMessage.t),
            queues w !! dlqUrl = Some cur → cur ⊆ dlq →
            let r := redriveLoop env dlqUrl greeterQueueUrl messages
                       redrivenCount failedCount w in
            (∀ m, m ∈ cur →
                  (∃ cur', queues (final r) !! dlqUrl = Some cur' ∧ m ∈ cur')
                  ∨ deletedAfterSend dlqUrl greeterQueueUrl (effects r) m)
            ∧ (∀ queueUrl receiptHandle,
                 SqsDeleteMessage queueUrl receiptHandle ∈ effects r →
                 queueUrl = dlqUrl
                 ∧ ∃ m, m ∈ messages
                        ∧ receiptHandle = SqsMessage.ReceiptHandle m
                        ∧ deletedAfterSend dlqUrl greeterQueueUrl (effects r) m)).
  { clear w Hdlq redrivenCount failedCount.
    induction messages as [| message rest IH];
      intros w redrivenCount failedCount cur Hcur Hin; cbn zeta.
    { cbn. split; [intros m Hm; left; by exists cur |].
      by intros ? ? ?%elem_of_nil. }
    assert (Hrest : rest ⊆ dlq) by (intros x Hx; apply Hsub; by right).
    assert (Hmessage : message ∈ dlq) by (apply Hsub; by left).
    specialize (IH Hrest).
    rewrite redriveLoop_cons. cbn zeta.
    destruct (redriveOne_outcome env dlqUrl greeterQueueUrl message w)
      as (_ & _ & dedup & Hd & Hout).
    revert Hout.
    generalize (redriveOne env dlqUrl greeterQueueUrl message w). intros r1 Hout.
    assert (Hnext : ∀ (next : World → Run (Z * Z)) (cur1 : list SqsMessage.t),
              (∀ w', queues w' !! dlqUrl = Some cur1 →
                 (∀ m, m ∈ cur1 →
                    (∃ cur', queues (final (next w')) !! dlqUrl = Some cur'
                             ∧ m ∈ cur')
                    ∨ deletedAfterSend dlqUrl greeterQueueUrl
                        (effects (next w')) m)
                 ∧ (∀ queueUrl receiptHandle,
                      SqsDeleteMessage queueUrl receiptHandle
                        ∈ effects (next w') →
                      queueUrl = dlqUrl
                      ∧ ∃ m, m ∈ rest
                             ∧ receiptHandle = SqsMessage.ReceiptHandle m
                             ∧ deletedAfterSend dlqUrl greeterQueueUrl
                                 (effects (next w')) m)) →
              queues (final r1) !! dlqUrl = Some cur1 →
              (∀ m, m ∈ cur → m ∈ cur1
                            ∨ deletedAfterSend dlqUrl greeterQueueUrl
                                (effects r1) m) →
              (∀ queueUrl receiptHandle,
                 SqsDeleteMessage queueUrl receiptHandle ∈ effects r1 →
                 queueUrl = dlqUrl
                 ∧ receiptHandle = SqsMessage.ReceiptHandle message
                 ∧ deletedAfterSend dlqUrl greeterQueueUrl (effects r1) message) →
              (∀ m, m ∈ cur →
                 (∃ cur', queues (final (next (final r1))) !! dlqUrl = Some cur'
                          ∧ m ∈ cur')
                 ∨ deletedAfterSend dlqUrl greeterQueueUrl
                     (effects r1 ++ effects (next (final r1))) m)
              ∧ (∀ queueUrl receiptHandle,
                   SqsDeleteMessage queueUrl receiptHandle
                     ∈ effects r1 ++ effects (next (final r1)) →
                   queueUrl = dlqUrl
                   ∧ ∃ m, m ∈ message :: rest
                          ∧ receiptHandle = SqsMessage.ReceiptHandle m
                          ∧ deletedAfterSend dlqUrl greeterQueueUrl
                              (effects r1 ++ effects (next (final r1))) m)).
    { intros next cur1 Hloop Hcur1 Hkept Hdeletes.
      destruct (Hloop (final r1) Hcur1) as [Hkept' Hdeletes'].
      split.
      - intros m Hm. destruct (Hkept m Hm) as [Hin1 | Hdel].
        + destruct (Hkept' m Hin1) as [? | Hdel]; [by left |].
          right. apply deletedAfterSend_app. by right.
        + right. apply deletedAfterSend_app. by left.
      - intros queueUrl receiptHandle [Hin1 | Hin2]%elem_of_app.
        + destruct (Hdeletes _ _ Hin1) as (-> & -> & Hdel).
          split; [done |]. exists message. split; [by left |].
          split; [done |]. apply deletedAfterSend_app. by left.
        + destruct (Hdeletes' _ _ Hin2) as (-> & m & Hm & -> & Hdel).
          split; [done |]. exists m. split; [by right |].
          split; [done |]. apply deletedAfterSend_app. by right. }
    assert (Hblock : deletedAfterSend dlqUrl greeterQueueUrl
                       [SqsSendMessage (redriveSend greeterQueueUrl message dedup);
                        SqsDeleteMessage dlqUrl (SqsMessage.ReceiptHandle message)]
                       message).
    { by exists [], dedup, []. }
    assert (Hboth : ∀ queueUrl receiptHandle,
              SqsDeleteMessage queueUrl receiptHandle
                ∈ [SqsSendMessage (redriveSend greeterQueueUrl message dedup);
                   SqsDeleteMessage dlqUrl (SqsMessage.ReceiptHandle message)] →
              queueUrl = dlqUrl
              ∧ receiptHandle = SqsMessage.ReceiptHandle message).
    { intros ? ? [[=] | [[= -> ->] | []%elem_of_nil]%elem_of_cons]%elem_of_cons.
      done. }
    destruct Hout as [((e & Hr) & He & Hq) | (He & Hout)].
    - rewrite Hr. cbn [prepend result final effects].
      apply (Hnext _ cur).
      + intros w' Hw'. by apply IH.
      + by rewrite Hq.
      + intros m Hm. by left.
      + rewrite He. by intros ? ? [[=] | []%elem_of_nil]%elem_of_cons.
    - destruct (Hout Hne) as [((e & Hr) & Hq) | (Hr & dlq0 & Hq0 & Hq)];
        rewrite Hr; cbn [prepend result final effects].
      + apply (Hnext _ cur).
        * intros w' Hw'. by apply IH.
        * by rewrite Hq.
        * intros m Hm. by left.
        * rewrite He. intros ? ? Hd'.
          destruct (Hboth _ _ Hd') as [-> ->]. by split_and!.
      + assert (dlq0 = cur) as -> by congruence.
        apply (Hnext _ (filter (λ m, SqsMessage.ReceiptHandle m
                                     ≠ SqsMessage.ReceiptHandle message) cur)).
        * intros w' Hw'. apply IH; [done |].
          intros m [_ Hm]%list_elem_of_filter. by apply Hin.
        * done.
        * intros m Hm.
          destruct (decide (SqsMessage.ReceiptHandle m
                            = SqsMessage.ReceiptHandle message)) as [Heq | Hneq].
          -- assert (m = message) as ->.
             { eapply NoDup_fmap_eq; [exact Hnodup | by apply Hin | done | done]. }
             right. by rewrite He.
          -- left. by apply list_elem_of_filter.
        * rewrite He. intros ? ? Hd'.
          destruct (Hboth _ _ Hd') as [-> ->]. by split_and!. }
  destruct (Hgen w redrivenCount failedCount dlq Hdlq) as [Hkept Hdeletes]; done.
Qed.

Lemma redrive_deletes_only_what_it_sent_witness :
  ∃ cur, queues (final (redriveLoop Scenario.attributesDown Scenario.dlqUrl
                          Scenario.greeterUrl [Scenario.deadLetter] 0 0
                          (bump (Scenario.worldOf [] [Scenario.deadLetter]))))
           !! Scenario.dlqUrl = Some cur
         ∧ Scenario.deadLetter ∈ cur.
Proof.
  destruct (redrive_deletes_only_what_it_sent Scenario.attributesDown
              Scenario.dlqUrl Scenario.greeterUrl [Scenario.deadLetter]
              [Scenario.deadLetter] 0 0
              (bump (Scenario.worldOf [] [Scenario.deadLetter])))
    as [Hkept _].
  - by vm_compute.
  - vm_compute. reflexivity.
  - apply NoDup_singleton.
  - done.
  - destruct (Hkept Scenario.deadLetter) as [Hin | (before & dedup & after & He & _)];
      [by left | exact Hin |].
    exfalso. vm_compute in He.
    by destruct before as [| ? [| ? [| ? ?]]].
Defined.

(** ** What the sender writes *)

Section TouchesOnly.

Context {A B : Type} (K : Key → Prop).

Lemma touchesOnly_ret (a : A) : touchesOnly K (mret a : M A).
Proof. by intros w. Qed.

Lemma touchesOnly_throw (e : Exn) : touchesOnly K (@throw A e).
Proof. by intros w. Qed.

Lemma touchesOnly_bind (m : M A) (f : A → M B) :
  touchesOnly K m → (∀ a, touchesOnly K (f a)) → touchesOnly K (m ≫= f).
Proof.
  intros Hm Hf w. rewrite bind_run. destruct (Hm w) as (Ht & Hq & Hc).
  destruct (result (m w)) as [a | e]; [| done].
  destruct (Hf a (final (m w))) as (Ht' & Hq' & Hc').
  cbn [prepend final]. split_and!; [| congruence ..].
  intros k Hk. by rewrite Ht', Ht.
Qed.

Lemma touchesOnly_tryCatch (m : M A) (h : Exn → M A) :
  touchesOnly K m → (∀ e, touchesOnly K (h e)) → touchesOnly K (tryCatch m h).
Proof.
  intros Hm Hh w. rewrite tryCatch_run. destruct (Hm w) as (Ht & Hq & Hc).
  destruct (result (m w)) as [a | e]; [done |].
  destruct (Hh e (final (m w))) as (Ht' & Hq' & Hc').
  cbn [prepend final]. split_and!; [| congruence ..].
  intros k Hk. by rewrite Ht', Ht.
Qed.

End TouchesOnly.

Lemma touchesOnly_weaken {A} (K K' : Key → Prop) (m : M A) :
  (∀ k, K k → K' k) → touchesOnly K m → touchesOnly K' m.
Proof.
  intros HK Hm w. destruct (Hm w) as (Ht & Hq & Hc). split_and!; [| done ..].
  intros k Hk. apply Ht. intros ?. apply Hk. by apply HK.
Qed.

Section SenderWrites.

Variable env : Env.
Variable K : Key → Prop.

Lemma touchesOnly_dateNow : touchesOnly K (dateNow env).
Proof. by intros w. Qed.

Lemma touchesOnly_ddbGetItem (k : Key) : touchesOnly K (ddbGetItem env k).
Proof. intros w. unfold ddbGetItem. by destruct (ddbFault env (ops w)). Qed.

Lemma touchesOnly_fetch (r : HttpRequest) : touchesOnly K (fetch env r).
Proof. intros w. unfold fetch. by destruct (hookbin env (ops w)). Qed.

Lemma touchesOnly_ddbUpdateItem (u : UpdateInput) :
  K (updKey u) → touchesOnly K (ddbUpdateItem env u).
Proof.
  intros Hu w. unfold ddbUpdateItem.
  destruct (ddbFault env (ops w)); [done |].
  destruct (match ConditionExpression u with
            | Some c => evalCondition c (default Item.empty (table w !! updKey u))
            | None => true
            end); [| done].
  cbn [final bump setTable table queues cachedQueueUrls]. split_and!; [| done ..].
  intros k Hk. apply lookup_insert_ne. by intros <-.
Qed.

Lemma touchesOnly_bestEffort {A} (m : M A) :
  touchesOnly K m → touchesOnly K (bestEffort m).
Proof.
  intros Hm. unfold bestEffort. apply touchesOnly_tryCatch.
  - apply touchesOnly_bind; [done |]. intros _. apply touchesOnly_ret.
  - intros _. apply touchesOnly_ret.
Qed.

Lemma touchesOnly_senderRecord (message : GreeterMessage.t) :
  K (messageKey message) → touchesOnly K (senderRecord env message).
Proof.
  intros Hk. unfold senderRecord. apply touchesOnly_tryCatch.
  2: { intros []; first [apply touchesOnly_ret | apply touchesOnly_throw]. }
  apply touchesOnly_bind; [apply touchesOnly_ddbGetItem |].
  intros [currentEvent |]; [| apply touchesOnly_ret].
  destruct (_ && _); [apply touchesOnly_ret |].
  apply touchesOnly_bind.
  { unfold stuckCheck.
    destruct (Item.sendingStatus currentEvent) as [[] |];
      try apply touchesOnly_ret.
    destruct (Item.sendingAttemptedAt currentEvent); [| apply touchesOnly_ret].
    apply touchesOnly_bind; [apply touchesOnly_dateNow |]. intros nowMs.
    destruct (_ <? _); [apply touchesOnly_ret |].
    apply touchesOnly_bind; [| intros _; apply touchesOnly_ret].
    apply touchesOnly_bestEffort.
    apply touchesOnly_bind; [apply touchesOnly_dateNow |]. intros now.
    by apply touchesOnly_ddbUpdateItem. }
  intros [|]; [apply touchesOnly_ret |].
  unfold claimAndDeliver. apply touchesOnly_bind.
  { unfold claimPhase. apply touchesOnly_tryCatch.
    - apply touchesOnly_bind; [apply touchesOnly_dateNow |]. intros now.
      apply touchesOnly_bind; [by apply touchesOnly_ddbUpdateItem |].
      intros _. apply touchesOnly_ret.
    - intros []; first [apply touchesOnly_ret | apply touchesOnly_throw]. }
  intros [|]; [| apply touchesOnly_ret].
  unfold deliverPhase. apply touchesOnly_bind; [apply touchesOnly_fetch |].
  intros status. destruct (negb _).
  - apply touchesOnly_bind; [| intros _; apply touchesOnly_throw].
    apply touchesOnly_bestEffort.
    apply touchesOnly_bind; [apply touchesOnly_dateNow |]. intros now.
    by apply touchesOnly_ddbUpdateItem.
  - apply touchesOnly_bind; [| intros _; apply touchesOnly_ret].
    apply touchesOnly_bestEffort.
    apply touchesOnly_bind; [apply touchesOnly_dateNow |]. intros now.
    apply touchesOnly_bind; [apply touchesOnly_dateNow |]. intros deliveredAt.
    by apply touchesOnly_ddbUpdateItem.
Qed.

End SenderWrites.

(** X6. The sender writes only the records it was handed: an item of
    the table whose key is not the (pk, sk) of any message of the batch
    is after the batch what it was before, whatever fails on the way;
    and the sender changes no queue. *)
Theorem sender_touches_only_its_records
    (env : Env) (records : list GreeterMessage.t) (w : World) (k : Key) :
  k ∉ messageKey <$> records →
  table (final (sender env records w)) !! k = table w !! k
  ∧ queues (final (sender env records w)) = queues w.
Proof.
  intros Hk.
  assert (Hall : touchesOnly (λ k, k ∈ messageKey <$> records)
                   (sender env records)).
  { clear. induction records as [| record rest IH]; [apply touchesOnly_ret |].
    cbn [sender]. apply touchesOnly_bind.
    - apply touchesOnly_senderRecord. rewrite fmap_cons. by left.
    - intros outcome. apply touchesOnly_bind; [| intros ?; apply touchesOnly_ret].
      eapply touchesOnly_weaken; [| exact IH].
      intros k Hk. rewrite fmap_cons. by right. }
  destruct (Hall w) as (Ht & Hq & _). split; [by apply Ht | done].
Qed.

Lemma sender_touches_only_its_records_witness :
  table (final (sender Scenario.calm [Scenario.adaMessage 2026] Scenario.world0))
    !! ("USER#u1", "METADATA")
  = table Scenario.world0 !! ("USER#u1", "METADATA").
Proof.
  apply (sender_touches_only_its_records Scenario.calm
           [Scenario.adaMessage 2026] Scenario.world0 ("USER#u1", "METADATA")).
  by intros [[=] | []%elem_of_nil]%elem_of_cons.
Defined.

Lemma ddbUpdateItem_table (env : Env) (u : UpdateInput) (w : World) :
  ConditionExpression u = None →
  table (final (ddbUpdateItem env u w)) = table w
  ∨ table (final (ddbUpdateItem env u w))
    = <[updKey u := applySets (default Item.empty (table w !! updKey u))
                      (UpdateExpression u)]> (table w).
Proof.
  intros Hc. unfold ddbUpdateItem. rewrite Hc.
  destruct (ddbFault env (ops w)); [by left | by right].
Qed.

Lemma claimAndDeliver_outcome (env : Env) (message : GreeterMessage.t)
    (cur : Z) (w : World) :
  let r := claimAndDeliver env message cur w in
  (List.filter isFetch (effects r) = []
   ∧ table (final r) = table w ∧ result r ≠ Ok Sent)
  ∨ (length (List.filter isFetch (effects r)) = 1%nat
     ∧ claimable cur (table w !! messageKey message)
     ∧ ∃ it, table (final r) !! messageKey message = Some it
             ∧ claimedFor env message it
             ∧ postedOutcome (result r) it).
Proof.
  cbn zeta. rewrite claimAndDeliver_run, claimPhase_run. cbn zeta.
  destruct (ddbFault env (S (ops w))); [by left |].
  destruct (evalCondition _ _) eqn:Hcond; [| by left].
  apply claimCondition_spec in Hcond.
  cbn [result final effects]. rewrite deliverPhase_run.
  cbn [bump ops setTable table]. right.
  set (claimed := applySets _ _).
  assert (Hclaimed : claimedFor env message claimed
                     ∧ Item.sendingStatus claimed = Some sending).
  { subst claimed.
    by destruct (default Item.empty (table w !! messageKey message)). }
  destruct Hclaimed as [Hclaimed Hsending]. clearbody claimed.
  destruct (hookbin env (S (S (ops w)))) as [status |].
  2: { cbn. split_and!; [done | done |]. exists claimed.
       rewrite lookup_insert_eq. split_and!; [done | done | by right]. }
  destruct (Z.eqb_spec status 200) as [-> | Hstatus]; cbn zeta.
  - cbn [prepend result final effects app List.filter isFetch length].
    split_and!; [done | done |].
    match goal with
    | |- context [ddbUpdateItem env ?u ?w'] =>
        destruct (ddbUpdateItem_table env u w' eq_refl) as [-> | ->]
    end; cbn [bump setTable table updKey completedUpdate UpdateExpression].
    + exists claimed. rewrite lookup_insert_eq.
      split_and!; [done | done | by right].
    + rewrite !lookup_insert_eq. eexists. split; [done |].
      cbn [default]. destruct claimed, Hclaimed as [Hy Hn]. cbn in *.
      split_and!; [by split | left; by split].
  - cbn [prepend result final effects app List.filter isFetch length].
    split_and!; [done | done |].
    match goal with
    | |- context [ddbUpdateItem env ?u ?w'] =>
        destruct (ddbUpdateItem_table env u w' eq_refl) as [-> | ->]
    end; cbn [bump setTable table updKey webhookFailedUpdate UpdateExpression].
    + exists claimed. rewrite lookup_insert_eq.
      split_and!; [done | done | by right].
    + rewrite !lookup_insert_eq. eexists. split; [done |].
      cbn [default]. destruct claimed, Hclaimed as [Hy Hn]. cbn in *.
      split_and!; [by split | by left].
Qed.




(** ** The sweep, page by page *)

Lemma dueQuery_page (table : gmap Key Item.t) (nowUtc currentYear : Z)
    (lastEvaluatedKey : option nat) :
  runQuery table (dueQuery nowUtc currentYear lastEvaluatedKey)
  = mkQueryOutput
      (filter (λ r, notSentIn currentYear r = true)
         (take 100 (drop (default 0%nat lastEvaluatedKey) (dueRange table nowUtc))))
      (if (100 <=? length (drop (default 0%nat lastEvaluatedKey)
                             (dueRange table nowUtc)))%nat
       then Some (default 0%nat lastEvaluatedKey + 100)%nat
       else None).
Proof. reflexivity. Qed.

Lemma schedulePage_cons (env : Env) (row : EventRow.t) (rest : list EventRow.t)
    (c : SchedulerCounters) (w : World) :
  schedulePage env (row :: rest) c w
  = prepend (effects (scheduleItem env row w))
      (schedulePage env rest
         (match result (scheduleItem env row w) with
          | Ok true => mkCounters (totalUsersProcessed c + 1)
                         (totalEnqueueFailures c) (totalPages c)
          | Ok false => c
          | Throw _ => mkCounters (totalUsersProcessed c)
                         (totalEnqueueFailures c + 1) (totalPages c)
          end)
         (final (scheduleItem env row w))).
Proof.
  cbn [schedulePage]. rewrite bind_run, tryCatch_run, bind_run.
  generalize (scheduleItem env row w). intros r0.
  generalize (schedulePage env rest). intros page.
  destruct (result r0) as [[|] | e]; cbn [prepend result final effects mret M_ret];
    rewrite ?app_nil_r; reflexivity.
Qed.

Lemma schedulerLoop_fault (env : Env) (fuel : nat) (nowUtc currentYear : Z)
    (lastEvaluatedKey : option nat) (c : SchedulerCounters) (w : World)
    (msg : string) :
  ddbFault env (ops w) = Some msg →
  result (schedulerLoop env (S fuel) nowUtc currentYear lastEvaluatedKey c w)
  = Throw (ServiceException msg).
Proof.
  intros Hf. cbn [schedulerLoop].
  apply result_bind_throw. rewrite tryCatch_rethrow, ddbQuery_run. by rewrite Hf.
Qed.

Lemma schedulerLoop_step (env : Env) (fuel : nat) (nowUtc currentYear : Z)
    (lastEvaluatedKey : option nat) (c c2 : SchedulerCounters) (w : World) :
  let out := runQuery (table w) (dueQuery nowUtc currentYear lastEvaluatedKey) in
  let p := schedulePage env (Items out)
             (mkCounters (totalUsersProcessed c) (totalEnqueueFailures c)
                (totalPages c + 1)) (bump w) in
  ddbFault env (ops w) = None →
  result p = Ok c2 →
  schedulerLoop env (S fuel) nowUtc currentYear lastEvaluatedKey c w
  = prepend (DdbQuery (dueQuery nowUtc currentYear lastEvaluatedKey) :: effects p)
      (match LastEvaluatedKey out with
       | Some k => schedulerLoop env fuel nowUtc currentYear (Some k) c2 (final p)
       | None => mkRun (Ok (Some c2)) (final p) []
       end).
Proof.
  intros out p Hf Hp. subst out p. cbn [schedulerLoop].
  rewrite bind_run, tryCatch_rethrow, ddbQuery_run, Hf.
  cbn [result final effects]. rewrite bind_run, (tryCatch_ok _ _ _ _ Hp), Hp.
  revert Hp.
  generalize (schedulePage env
                (Items (runQuery (table w)
                          (dueQuery nowUtc currentYear lastEvaluatedKey)))
                (mkCounters (totalUsersProcessed c) (totalEnqueueFailures c)
                   (totalPages c + 1)) (bump w)).
  intros p Hp.
  generalize (schedulerLoop env fuel nowUtc currentYear). intros loop.
  destruct (LastEvaluatedKey _); reflexivity.
Qed.

Lemma omap_cons_None {A B} (f : A → option B) (x : A) (l : list A) :
  f x = None → omap f (x :: l) = omap f l.
Proof. intros H. cbn. by rewrite H. Qed.

Section SweepInduction.

Variable env : Env.
Variable T : gmap Key Item.t.
Variables nowUtc currentYear : Z.

(** A summary [omap g] of the effects, of which each item contributes
    [h]; an invariant of the world, indexed by the rows handled so far;
    the rows for which the item step is known to behave. *)
Context {X : Type} (g : Effect → option X) (h : EventRow.t → X).
Variable Inv : list EventRow.t → World → Prop.
Variable Good : EventRow.t → Prop.
Variable itemOk : Res bool → Prop.

Hypothesis Inv_table : ∀ handled w, Inv handled w → table w = T.
Hypothesis Inv_bump : ∀ handled w, Inv handled w → Inv handled (bump w).
Hypothesis g_query : ∀ q, g (DdbQuery q) = None.
Hypothesis item_step : ∀ handled row w,
  Inv handled w → Good row →
  Inv (handled ++ [row]) (final (scheduleItem env row w))
  ∧ omap g (effects (scheduleItem env row w)) = [h row]
  ∧ itemOk (result (scheduleItem env row w)).

Lemma schedulePage_summary (rows handled : list EventRow.t)
    (c : SchedulerCounters) (w : World) :
  Inv handled w → Forall Good rows →
  Inv (handled ++ rows) (final (schedulePage env rows c w))
  ∧ omap g (effects (schedulePage env rows c w)) = h <$> rows
  ∧ ∃ c', result (schedulePage env rows c w) = Ok c'
          ∧ totalPages c' = totalPages c
          ∧ totalUsersProcessed c ≤ totalUsersProcessed c'
          ∧ totalEnqueueFailures c ≤ totalEnqueueFailures c'
          ∧ totalUsersProcessed c' + totalEnqueueFailures c'
            ≤ totalUsersProcessed c + totalEnqueueFailures c
              + Z.of_nat (length rows)
          ∧ ((∀ r, itemOk r → r = Ok true) →
             totalUsersProcessed c'
             = totalUsersProcessed c + Z.of_nat (length rows)
             ∧ totalEnqueueFailures c' = totalEnqueueFailures c).
Proof.
  revert handled c w.
  induction rows as [| row rest IH]; intros handled c w Hinv Hgood.
  - cbn. rewrite app_nil_r. split_and!; [done | done |].
    exists c. split_and!; [done | done | lia ..| intros _; lia].
  - apply Forall_cons in Hgood as [Hrow Hrest].
    rewrite schedulePage_cons.
    destruct (item_step handled row w Hinv Hrow) as (Hinv' & Hsum & Hok).
    revert Hinv' Hsum Hok. generalize (scheduleItem env row w).
    intros r0 Hinv' Hsum Hok.
    set (c1 := match result r0 with
               | Ok true => _
               | Ok false => _
               | Throw _ => _
               end).
    destruct (IH (handled ++ [row]) c1 (final r0) Hinv' Hrest)
      as (Hinv'' & Hsum' & c' & Hc' & Hpages & Hu & Hf & Hle & Hexact).
    cbn [prepend result final effects].
    rewrite omap_app, Hsum, Hsum'. rewrite <- app_assoc in Hinv''.
    split_and!; [done | done |].
    exists c'. rewrite Hc'.
    assert (Hc1 : totalPages c1 = totalPages c
                  ∧ totalUsersProcessed c ≤ totalUsersProcessed c1
                  ∧ totalEnqueueFailures c ≤ totalEnqueueFailures c1
                  ∧ totalUsersProcessed c1 + totalEnqueueFailures c1
                    ≤ totalUsersProcessed c + totalEnqueueFailures c + 1
                  ∧ ((∀ r, itemOk r → r = Ok true) →
                     totalUsersProcessed c1 = totalUsersProcessed c + 1
                     ∧ totalEnqueueFailures c1 = totalEnqueueFailures c)).
    { subst c1. destruct (result r0) as [[|] | e] eqn:Hr;
        cbn [totalPages totalUsersProcessed totalEnqueueFailures];
        (split_and!; [done | lia .. |]); intros Hall;
        specialize (Hall _ Hok); by try discriminate Hall. }
    destruct Hc1 as (Hp1 & Hu1 & Hf1 & Hle1 & Hexact1).
    cbn [length]. split_and!; [done | congruence | lia .. |].
    intros Hall. specialize (Hexact Hall). specialize (Hexact1 Hall). lia.
Qed.

Lemma schedulerLoop_summary (fuel : nat) (lastEvaluatedKey : option nat)
    (handled : list EventRow.t) (c c' : SchedulerCounters) (w : World) :
  let todo := drop (default 0%nat lastEvaluatedKey) (dueRange T nowUtc) in
  let rows := filter (λ r, notSentIn currentYear r = true) todo in
  let r := schedulerLoop env fuel nowUtc currentYear lastEvaluatedKey c w in
  Inv handled w → Forall Good rows →
  result r = Ok (Some c') →
  Inv (handled ++ rows) (final r)
  ∧ omap g (effects r) = h <$> rows
  ∧ totalPages c' = totalPages c + (Z.of_nat (length todo) / 100 + 1)
  ∧ totalUsersProcessed c ≤ totalUsersProcessed c'
  ∧ totalEnqueueFailures c ≤ totalEnqueueFailures c'
  ∧ totalUsersProcessed c' + totalEnqueueFailures c'
    ≤ totalUsersProcessed c + totalEnqueueFailures c + Z.of_nat (length rows)
  ∧ ((∀ r, itemOk r → r = Ok true) →
     totalUsersProcessed c' = totalUsersProcessed c + Z.of_nat (length rows)
     ∧ totalEnqueueFailures c' = totalEnqueueFailures c).
Proof.
  cbn zeta. revert lastEvaluatedKey handled c c' w.
  induction fuel as [| fuel IH]; intros lastEvaluatedKey handled c c' w Hinv Hgood;
    [done |].
  destruct (ddbFault env (ops w)) as [msg |] eqn:Hfault.
  { by rewrite (schedulerLoop_fault _ _ _ _ _ _ _ _ Hfault). }
  pose proof (Inv_table _ _ Hinv) as Htable.
  set (k := default 0%nat lastEvaluatedKey) in *.
  set (range := dueRange T nowUtc) in *.
  set (page := filter (λ r, notSentIn currentYear r = true)
                 (take 100 (drop k range))).
  assert (Hsplit : filter (λ r, notSentIn currentYear r = true) (drop k range)
                   = page ++ filter (λ r, notSentIn currentYear r = true)
                               (drop (k + 100) range)).
  { subst page. rewrite <- filter_app. f_equal.
    by rewrite <- drop_drop, take_drop. }
  rewrite Hsplit in Hgood |- *. apply Forall_app in Hgood as [Hgood1 Hgood2].
  destruct (schedulePage_summary page handled
              (mkCounters (totalUsersProcessed c) (totalEnqueueFailures c)
                 (totalPages c + 1)) (bump w) (Inv_bump _ _ Hinv) Hgood1)
    as (Hinv1 & Hsum1 & c2 & Hc2 & Hp2 & Hu2 & Hf2 & Hle2 & Hexact2).
  cbn [totalPages totalUsersProcessed totalEnqueueFailures] in Hp2, Hu2, Hf2, Hle2, Hexact2.
  pose proof (schedulerLoop_step env fuel nowUtc currentYear lastEvaluatedKey
                c c2 w Hfault) as Hstep.
  cbn zeta in Hstep. rewrite Htable, dueQuery_page in Hstep.
  cbn [Items LastEvaluatedKey] in Hstep. fold k range page in Hstep.
  rewrite (Hstep Hc2). clear Hstep.
  revert Hinv1 Hsum1 Hc2.
  generalize (schedulePage env page
                (mkCounters (totalUsersProcessed c) (totalEnqueueFailures c)
                   (totalPages c + 1)) (bump w)).
  intros p Hinv1 Hsum1 Hc2.
  destruct (Nat.leb_spec 100 (length (drop k range))) as [Hlen | Hlen].
  - intros Hr. cbn [prepend result] in Hr.
    pose proof (IH (Some (k + 100)%nat) (handled ++ page) c2 c' (final p) Hinv1)
      as IH'.
    change (default 0%nat (Some (k + 100)%nat)) with (k + 100)%nat in IH'.
    destruct (IH' Hgood2 Hr) as (Hinv' & Hsum' & Hp' & Hu' & Hf' & Hle' & Hexact').
    clear IH IH'. revert Hinv' Hsum' Hr.
    generalize (schedulerLoop env fuel nowUtc currentYear (Some (k + 100)%nat)
                  c2 (final p)).
    intros r Hinv' Hsum' Hr.
    cbn [prepend result final effects app].
    rewrite (omap_cons_None _ _ _ (g_query _)), omap_app.
    rewrite Hsum1, Hsum', fmap_app, <- app_assoc in *.
    rewrite !length_app, !length_drop in *.
    split_and!; [done | done | | lia .. |].
    + rewrite Hp', Hp2. Z.div_mod_to_equations. lia.
    + intros Hall. specialize (Hexact2 Hall). specialize (Hexact' Hall). lia.
  - cbn [prepend result final effects app]. intros [= <-].
    rewrite (omap_cons_None _ _ _ (g_query _)), app_nil_r, Hsum1.
    assert (Hnil : drop (k + 100) range = []).
    { apply drop_ge. rewrite length_drop in Hlen. lia. }
    rewrite Hnil, filter_nil, !app_nil_r in *.
    split_and!; [done | done | | lia .. | done].
    rewrite Hp2. Z.div_mod_to_equations. lia.
Qed.

End SweepInduction.

Lemma scheduleItem_run (env : Env) (row : EventRow.t) (w : World) :
  scheduleItem env row w =
  match ddbFault env (ops w) with
  | Some msg => mkRun (Throw (ServiceException msg)) (bump w)
                  [DdbGet (EventRow.PK row, "METADATA")]
  | None =>
      match (table w !! (EventRow.PK row, "METADATA")) ≫= Item.data with
      | None => mkRun (Ok false) (bump w) [DdbGet (EventRow.PK row, "METADATA")]
      | Some user =>
          let e := enqueueGreeterMessage env user
                     (mkEnqueueEvent (EventRow.PK row) (EventRow.SK row)
                        (EventRow.type row) (EventRow.date row)
                        (EventRow.notifyLocalTime row)
                        (Some (default 0 (EventRow.lastSentYear row))))
                     (bump w) in
          mkRun (match result e with Ok _ => Ok true | Throw x => Throw x end)
                (final e)
                (DdbGet (EventRow.PK row, "METADATA") :: effects e)
      end
  end.
Proof.
  unfold scheduleItem. rewrite bind_run. unfold ddbGetItem.
  destruct (ddbFault env (ops w)); [reflexivity |].
  cbn [result final effects].
  destruct ((table w !! (EventRow.PK row, "METADATA")) ≫= Item.data) as [user |];
    [| reflexivity].
  rewrite bind_run. cbn zeta.
  generalize (enqueueGreeterMessage env user
                (mkEnqueueEvent (EventRow.PK row) (EventRow.SK row)
                   (EventRow.type row) (EventRow.date row)
                   (EventRow.notifyLocalTime row)
                   (Some (default 0 (EventRow.lastSentYear row)))) (bump w)).
  intros e. destruct (result e) as [[] | x];
    rewrite ?prepend_ret; unfold prepend; cbn [result final effects app];
    reflexivity.
Qed.

Lemma schedulerFrom_run (env : Env) (fuel : nat) (w : World) :
  schedulerFrom env fuel w =
  let l := schedulerLoop env fuel (clock env (ops w))
             (yearOfInstant (clock env (S (ops w)))) None (mkCounters 0 0 0)
             (bump (bump w)) in
  mkRun (match result l with
         | Ok finished =>
             Ok (c ← finished;
                 Some (mkSchedulerResponse 200 "Scheduler finished"
                         (totalUsersProcessed c) (totalPages c)
                         (totalEnqueueFailures c)))
         | Throw e => Throw e
         end)
        (final l) (effects l).
Proof.
  unfold schedulerFrom. rewrite bind_run. cbn [dateNow result final effects].
  rewrite prepend_nil, bind_run. unfold getFullYear. rewrite bind_run.
  cbn [dateNow result final effects bump ops]. rewrite prepend_ret.
  cbn [result final effects]. rewrite prepend_nil, bind_run. cbn zeta.
  generalize (schedulerLoop env fuel (clock env (ops w))
                (yearOfInstant (clock env (S (ops w)))) None (mkCounters 0 0 0)
                (bump (bump w))).
  intros l. destruct (result l); [| reflexivity].
  rewrite prepend_ret. reflexivity.
Qed.

(** Every item step reads the user's metadata once, first, and reads
    nothing else. *)
Lemma scheduleItem_reads (env : Env) (row : EventRow.t) (w : World) :
  itemReads (effects (scheduleItem env row w)) = [(EventRow.PK row, "METADATA")].
Proof.
  rewrite scheduleItem_run.
  destruct (ddbFault env (ops w)); [done |].
  destruct (_ ≫= _) as [user |]; [| done].
  cbn zeta. cbn [effects]. rewrite enqueueGreeterMessage_run. cbn zeta.
  destruct (getQueueUrl_effects env (GREETER_QUEUE_NAME env) (bump (bump w)))
    as [Hg | Hg];
    destruct (result (getQueueUrl env (GREETER_QUEUE_NAME env) (bump (bump w))));
    cbn [prepend effects]; rewrite Hg; unfold sqsSendMessage;
    repeat (match goal with |- context [match ?x with _ => _ end] => destruct x end);
    reflexivity.
Qed.



Lemma schedulerLoop_no_fault (env : Env) (fuel : nat) (nowUtc currentYear : Z)
    (lastEvaluatedKey : option nat) (c : SchedulerCounters) (w : World) :
  (∀ n, ddbFault env n = None) →
  ∃ finished,
    result (schedulerLoop env fuel nowUtc currentYear lastEvaluatedKey c w)
    = Ok finished.
Proof.
  intros Hfault. revert lastEvaluatedKey c w.
  induction fuel as [| fuel IH]; intros lastEvaluatedKey c w; [by eexists |].
  destruct (schedulePage_ok env
              (Items (runQuery (table w)
                        (dueQuery nowUtc currentYear lastEvaluatedKey)))
              (mkCounters (totalUsersProcessed c) (totalEnqueueFailures c)
                 (totalPages c + 1)) (bump w)) as [c2 Hc2].
  rewrite (schedulerLoop_step env fuel nowUtc currentYear lastEvaluatedKey c c2 w
             (Hfault _) Hc2).
  destruct (LastEvaluatedKey _); cbn [prepend result]; [apply IH | by eexists].
Qed.

Lemma getQueueUrl_resolves (env : Env) (queueName queueUrl : string) (w : World) :
  sqsFault env (ops w) = None →
  queueUrlOf env queueName = Some queueUrl →
  cachedQueueUrls w !! queueName = None
  ∨ cachedQueueUrls w !! queueName = Some queueUrl →
  result (getQueueUrl env queueName w) = Ok queueUrl
  ∧ (cachedQueueUrls (final (getQueueUrl env queueName w)) !! queueName = None
     ∨ cachedQueueUrls (final (getQueueUrl env queueName w)) !! queueName
       = Some queueUrl).
Proof.
  intros Hfault Hname Hcache. rewrite getQueueUrl_run.
  assert (Hres : result (resolveQueueUrl env queueName w) = Ok queueUrl
            ∧ (cachedQueueUrls (final (resolveQueueUrl env queueName w)) !! queueName
               = None
               ∨ cachedQueueUrls (final (resolveQueueUrl env queueName w))
                   !! queueName = Some queueUrl)).
  { rewrite resolveQueueUrl_run, Hfault, Hname.
    cbn [result final setCachedQueueUrls cachedQueueUrls].
    split; [done |]. right. apply lookup_insert_eq. }
  destruct Hcache as [-> | Hc]; [done |]. rewrite Hc.
  destruct (negb (String.eqb queueUrl "")); [| done].
  cbn [result final]. split; [done | by right].
Qed.

(** The item step when nothing fails: one SendMessage call for the row,
    accepted by the greeter queue. *)
Lemma scheduleItem_enqueues (env : Env) (row : EventRow.t) (w : World)
    (queueUrl : string) :
  (∀ n, ddbFault env n = None) →
  (∀ n, sqsFault env n = None) →
  queueUrlOf env (GREETER_QUEUE_NAME env) = Some queueUrl →
  cachedQueueUrls w !! GREETER_QUEUE_NAME env = None
  ∨ cachedQueueUrls w !! GREETER_QUEUE_NAME env = Some queueUrl →
  is_Some (queues w !! queueUrl) →
  hasUser (table w) row →
  let r := scheduleItem env row w in
  result r = Ok true
  ∧ table (final r) = table w
  ∧ (cachedQueueUrls (final r) !! GREETER_QUEUE_NAME env = None
     ∨ cachedQueueUrls (final r) !! GREETER_QUEUE_NAME env = Some queueUrl)
  ∧ enqueuedKeys (effects r) = [rowKey row]
  ∧ is_Some (queues (final r) !! queueUrl).
Proof.
  intros Hddb Hsqs Hname Hcache [held Hheld] (it & user & Hit & Hdata). cbn zeta.
  rewrite scheduleItem_run, Hddb, Hit. cbn [mbind option_bind]. rewrite Hdata.
  cbn zeta. rewrite enqueueGreeterMessage_run. cbn zeta.
  destruct (getQueueUrl_resolves env (GREETER_QUEUE_NAME env) queueUrl
              (bump (bump w)) (Hsqs _) Hname Hcache) as [Hg Hcache'].
  destruct (getQueueUrl_frame env (GREETER_QUEUE_NAME env) (bump (bump w)))
    as [Ht Hq].
  destruct (getQueueUrl_effects env (GREETER_QUEUE_NAME env) (bump (bump w)))
    as [He | He].
  all: revert Hg Hcache' Ht Hq He;
    generalize (getQueueUrl env (GREETER_QUEUE_NAME env) (bump (bump w)));
    intros g Hg Hcache' Ht Hq He; rewrite Hg;
    unfold sqsSendMessage; rewrite Hsqs;
    cbn [QueueUrl greeterSend]; rewrite Hq; cbn [bump queues]; rewrite Hheld;
    cbn [prepend result final effects bump setQueues table queues cachedQueueUrls];
    rewrite He, Ht, lookup_insert_eq;
    (split_and!; [done | done | done | done |]); by eexists.
Qed.

(** X10. When nothing fails, a sweep hands every due event that was not
    yet sent this year and has a user to the greeter queue, once each
    and in the order of the index: with DynamoDB and SQS answering every
    call, the greeter queue resolvable and not yet cached, and the queue
    existing, the sweep answers with as many users as there are such
    rows and no failure, and its SendMessage calls, each of them
    accepted, carry the keys of these rows in order. (Whether the queue
    keeps a message it accepted or discards it as a duplicate of one
    seen in the last five minutes is the transport's.) *)
Theorem sweep_enqueues_each_due_event
    (env : Env) (w : World) (queueUrl : string) :
  (∀ n, ddbFault env n = None) →
  (∀ n, sqsFault env n = None) →
  queueUrlOf env (GREETER_QUEUE_NAME env) = Some queueUrl →
  cachedQueueUrls w !! GREETER_QUEUE_NAME env = None →
  is_Some (queues w !! queueUrl) →
  let due := dueUnsent (table w) (clock env (ops w))
               (yearOfInstant (clock env (S (ops w)))) in
  Forall (hasUser (table w)) due →
  ∃ resp,
    result (scheduler env w) = Ok (Some resp)
    ∧ totalUsers resp = Z.of_nat (length due)
    ∧ enqueueFailures resp = 0
    ∧ enqueuedKeys (effects (scheduler env w)) = rowKey <$> due.
Proof.
  intros Hddb Hsqs Hname Hcache Hheld due Hdue. subst due.
  unfold scheduler. rewrite schedulerFrom_run. cbn zeta.
  cbn [result final effects].
  set (nowUtc := clock env (ops w)) in *.
  set (currentYear := yearOfInstant (clock env (S (ops w)))) in *.
  destruct (schedulerLoop_no_fault env (S (length (indexView (table w)))) nowUtc
              currentYear None (mkCounters 0 0 0) (bump (bump w)) Hddb)
    as [[c |] Hloop].
  2: { exfalso.
       apply (schedulerLoop_enough_fuel env (S (length (indexView (table w))))
                nowUtc currentYear None (mkCounters 0 0 0) (bump (bump w)));
         [| done].
       cbn [bump table default].
       pose proof (dueRange_length (table w) nowUtc). lia. }
  destruct (schedulerLoop_summary env (table w) nowUtc currentYear
              (λ e, match e with
                    | SqsSendMessage m => Some (messageKey (MessageBody m))
                    | _ => None
                    end)
              rowKey
              (λ handled w',
                 table w' = table w
                 ∧ (cachedQueueUrls w' !! GREETER_QUEUE_NAME env = None
                    ∨ cachedQueueUrls w' !! GREETER_QUEUE_NAME env
                      = Some queueUrl)
                 ∧ is_Some (queues w' !! queueUrl))
              (hasUser (table w)) (λ r, r = Ok true))
    with (fuel := S (length (indexView (table w))))
         (lastEvaluatedKey := @None nat) (handled := @nil EventRow.t)
         (c := mkCounters 0 0 0) (c' := c) (w := bump (bump w))
    as (_ & Hsends & _ & _ & _ & _ & Hexact).
  - by intros handled w' [? _].
  - by intros handled w' ?.
  - done.
  - intros handled row w' (Ht & Hc & Hq) Hrow.
    rewrite <- Ht in Hrow.
    destruct (scheduleItem_enqueues env row w' queueUrl
                Hddb Hsqs Hname Hc Hq Hrow)
      as (Hr & Ht' & Hc' & Hs & Hq').
    split_and!; [congruence | done | done | done | done].
  - split_and!; [done | by left | done].
  - done.
  - done.
  - rewrite Hloop. destruct (Hexact ltac:(done)) as [Hu Hf].
    cbn [default totalUsersProcessed totalEnqueueFailures] in *.
    rewrite drop_0 in Hu, Hsends.
    eexists. cbn [mbind option_bind]. split; [reflexivity |].
    cbn [totalUsers enqueueFailures]. unfold dueUnsent, enqueuedKeys.
    split_and!; [lia | lia | done].
Qed.

Lemma sweep_enqueues_each_due_event_witness :
  ∃ resp,
    result (scheduler Scenario.calm Scenario.world0) = Ok (Some resp)
    ∧ totalUsers resp = 1
    ∧ enqueueFailures resp = 0
    ∧ enqueuedKeys (effects (scheduler Scenario.calm Scenario.world0))
      = [("USER#u1", "EVENT#birthday")].
Proof.
  apply (sweep_enqueues_each_due_event Scenario.calm Scenario.world0
           Scenario.greeterUrl);
    try done.
  vm_compute. repeat constructor.
  eexists _, _. split; reflexivity.
Defined.

(** ** The index and the table *)

(** The rows of the index are the event items of the table. *)
Lemma indexView_elem (t : gmap Key Item.t) (row : EventRow.t) :
  row ∈ indexView t ↔ ∃ k it, t !! k = Some it ∧ toEventRow (k, it) = Some row.
Proof.
  unfold indexView. rewrite merge_sort_Permutation, list_elem_of_omap. split.
  - intros ([k it] & Hin & Hrow). exists k, it.
    by apply elem_of_map_to_list in Hin.
  - intros (k & it & Hin & Hrow). exists (k, it).
    by apply elem_of_map_to_list in Hin.
Qed.

Lemma toEventRow_fields (k : Key) (it : Item.t) (row : EventRow.t) :
  toEventRow (k, it) = Some row →
  (EventRow.PK row, EventRow.SK row) = k
  ∧ EventRow.lastSentYear row = Item.lastSentYear it
  ∧ EventRow.sendingStatus row = Item.sendingStatus it
  ∧ EventRow.sendingAttemptedAt row = Item.sendingAttemptedAt it
  ∧ Item.notifyUtc it = Some (EventRow.notifyUtc row)
  ∧ Item.type it = Some (EventRow.type row)
  ∧ Item.date it = Some (EventRow.date row).
Proof.
  destruct k as [pk sk]. unfold toEventRow.
  destruct (Item.GSI1PK it) as [gsi |]; [| done].
  destruct (Item.type it), (Item.date it), (Item.notifyLocalTime it),
    (Item.notifyUtc it); try done.
  destruct (String.eqb gsi "EVENT"); [| done].
  by intros [= <-].
Qed.

(** The rows the stuck query returns: the event items in the sending
    state that carry the time of the attempt. *)
Lemma stuckQuery_elem (t : gmap Key Item.t) (row : EventRow.t) :
  row ∈ Items (runQuery t stuckQuery)
  ↔ ∃ k it, t !! k = Some it ∧ toEventRow (k, it) = Some row
            ∧ Item.sendingStatus it = Some sending
            ∧ ∃ attemptedAt, Item.sendingAttemptedAt it = Some attemptedAt.
Proof.
  unfold runQuery, stuckQuery.
  cbn [Limit KeyConditionExpression qFilterExpression ExclusiveStartKey Items
       default drop evalKeyCondition].
  rewrite drop_0, !list_elem_of_filter, indexView_elem. cbn [evalFilter]. split.
  - intros (Hf & _ & k & it & Hk & Hrow). exists k, it.
    destruct (toEventRow_fields k it row Hrow) as (_ & _ & <- & <- & _).
    destruct (EventRow.sendingStatus row) as [s |]; [| done].
    destruct (EventRow.sendingAttemptedAt row) as [attemptedAt |]; [| done].
    apply bool_decide_eq_true in Hf as ->. by eauto.
  - intros (k & it & Hk & Hrow & Hs & attemptedAt & Ha).
    destruct (toEventRow_fields k it row Hrow) as (_ & _ & Hs' & Ha' & _).
    rewrite Hs', Ha', Hs, Ha. split_and!; [done | done | by eauto].
Qed.

(** ** The monitor *)

Lemma monitorSets_idempotent (now : Z) (it : Item.t) :
  applySets (applySets it (monitorSets now)) (monitorSets now)
  = applySets it (monitorSets now).
Proof. by destruct it. Qed.

Lemma checkStuck_cons (env : Env) (event : EventRow.t) (rest : list EventRow.t)
    (nowMs : Z) (acc : list StuckEvent) (w : World) :
  checkStuck env (event :: rest) nowMs acc w =
  match monitorAction nowMs event with
  | marked_failed_for_retry =>
      let u := ddbUpdateItem env (monitorFailedUpdate event nowMs) w in
      prepend (effects u)
        (checkStuck env rest nowMs
           (acc ++ [stuckEventOf event nowMs
                      (match result u with
                       | Ok _ => marked_failed_for_retry
                       | Throw _ => monitoring
                       end)])
           (final u))
  | monitoring =>
      checkStuck env rest nowMs (acc ++ [stuckEventOf event nowMs monitoring]) w
  end.
Proof.
  cbn [checkStuck]. unfold monitorAction.
  destruct (EventRow.sendingAttemptedAt event) as [attemptedAt |].
  2: { rewrite bind_run. cbn [mret M_ret result final effects].
       by rewrite prepend_nil. }
  destruct (MONITOR_STUCK_TIMEOUT_MS <? nowMs - attemptedAt).
  2: { rewrite bind_run. cbn [mret M_ret result final effects].
       by rewrite prepend_nil. }
  rewrite bind_run, tryCatch_run, bind_run. cbn zeta.
  generalize (ddbUpdateItem env (monitorFailedUpdate event nowMs) w). intros u.
  generalize (checkStuck env rest nowMs). intros loop.
  destruct (result u) as [it | e]; rewrite ?prepend_ret;
    cbn [prepend result final effects]; rewrite ?app_nil_r; reflexivity.
Qed.

Section Monitor.

Variable env : Env.
Variable nowMs : Z.
(** The table when the stuck query was answered. *)
Variable t0 : gmap Key Item.t.

Lemma monitorAction_marked (row : EventRow.t) (it : Item.t) :
  Item.sendingStatus it = Some sending →
  Item.sendingAttemptedAt it = EventRow.sendingAttemptedAt row →
  monitorAction nowMs row = marked_failed_for_retry →
  stuckTooLong nowMs it.
Proof.
  intros Hs Ha. unfold monitorAction. rewrite <- Ha.
  destruct (Item.sendingAttemptedAt it) as [attemptedAt |] eqn:Hat; [| done].
  destruct (Z.ltb_spec MONITOR_STUCK_TIMEOUT_MS (nowMs - attemptedAt)); [| done].
  intros _. split; [done |]. exists attemptedAt. by split.
Qed.

(** The write of the monitor on a row, when it goes through. *)
Lemma monitor_update_table (row : EventRow.t) (w : World) :
  table (final (ddbUpdateItem env (monitorFailedUpdate row nowMs) w)) = table w
  ∨ table (final (ddbUpdateItem env (monitorFailedUpdate row nowMs) w))
    = <[rowKey row := applySets (default Item.empty (table w !! rowKey row))
                        (monitorSets nowMs)]> (table w).
Proof. apply (ddbUpdateItem_table env (monitorFailedUpdate row nowMs) w eq_refl). Qed.

Lemma monitor_update_frame (row : EventRow.t) (w : World) :
  queues (final (ddbUpdateItem env (monitorFailedUpdate row nowMs) w)) = queues w.
Proof.
  unfold ddbUpdateItem. by destruct (ddbFault env (ops w)).
Qed.

Lemma monitor_update_promotes (row : EventRow.t) (w : World) :
  stuckRowOf t0 row →
  monitorAction nowMs row = marked_failed_for_retry →
  (∀ k, promotedBy nowMs (t0 !! k) (table w !! k)) →
  ∀ k, promotedBy nowMs (t0 !! k)
         (table (final (ddbUpdateItem env (monitorFailedUpdate row nowMs) w)) !! k).
Proof.
  intros (it & Hit & Hs & Ha) Haction Hrel k.
  destruct (monitor_update_table row w) as [-> | ->]; [done |].
  destruct (decide (k = rowKey row)) as [-> | Hk];
    [| by rewrite lookup_insert_ne].
  rewrite lookup_insert_eq. right. exists it.
  split_and!; [done | by eapply monitorAction_marked |].
  destruct (Hrel (rowKey row)) as [-> | (it' & Hit' & _ & ->)].
  - by rewrite Hit.
  - assert (it' = it) as -> by congruence.
    cbn [default]. unfold id. by rewrite monitorSets_idempotent.
Qed.

Lemma checkStuck_safe (rows : list EventRow.t) (acc : list StuckEvent)
    (w : World) :
  Forall (stuckRowOf t0) rows →
  (∀ k, promotedBy nowMs (t0 !! k) (table w !! k)) →
  (∀ k, promotedBy nowMs (t0 !! k)
          (table (final (checkStuck env rows nowMs acc w)) !! k))
  ∧ queues (final (checkStuck env rows nowMs acc w)) = queues w
  ∧ ∃ stuck, result (checkStuck env rows nowMs acc w) = Ok stuck.
Proof.
  revert acc w. induction rows as [| row rest IH]; intros acc w Hrows Hrel.
  - cbn. split_and!; [done | done | by eexists].
  - apply Forall_cons in Hrows as [Hrow Hrest].
    rewrite checkStuck_cons.
    destruct (monitorAction nowMs row) eqn:Haction; [by apply IH |].
    cbn zeta.
    pose proof (monitor_update_promotes row w Hrow Haction Hrel) as Hrel'.
    pose proof (monitor_update_frame row w) as Hq.
    revert Hrel' Hq.
    generalize (ddbUpdateItem env (monitorFailedUpdate row nowMs) w).
    intros u Hrel' Hq. cbn [prepend result final effects].
    rewrite <- Hq. by apply IH.
Qed.

(** A record the monitor has promoted stays promoted to the end of the
    loop. *)
Lemma checkStuck_keeps_promoted (rows : list EventRow.t) (acc : list StuckEvent)
    (w : World) (k : Key) (it : Item.t) :
  table w !! k = Some (applySets it (monitorSets nowMs)) →
  table (final (checkStuck env rows nowMs acc w)) !! k
  = Some (applySets it (monitorSets nowMs)).
Proof.
  revert acc w. induction rows as [| row rest IH]; intros acc w Hk; [done |].
  rewrite checkStuck_cons.
  destruct (monitorAction nowMs row); [by apply IH |].
  cbn zeta. cbn [prepend final]. apply IH.
  destruct (monitor_update_table row w) as [-> | ->]; [done |].
  destruct (decide (k = rowKey row)) as [-> | Hne];
    [| by rewrite lookup_insert_ne].
  rewrite lookup_insert_eq, Hk. cbn [default]. unfold id.
  by rewrite monitorSets_idempotent.
Qed.

Lemma checkStuck_live (rows : list EventRow.t) (acc : list StuckEvent)
    (w : World) :
  (∀ n, ddbFault env n = None) →
  Forall (stuckRowOf t0) rows →
  (∀ k, promotedBy nowMs (t0 !! k) (table w !! k)) →
  result (checkStuck env rows nowMs acc w)
  = Ok (acc ++ ((λ row, stuckEventOf row nowMs (monitorAction nowMs row)) <$> rows))
  ∧ ∀ row it, row ∈ rows → t0 !! rowKey row = Some it →
      monitorAction nowMs row = marked_failed_for_retry →
      table (final (checkStuck env rows nowMs acc w)) !! rowKey row
      = Some (applySets it (monitorSets nowMs)).
Proof.
  intros Hfault. revert acc w.
  induction rows as [| row rest IH]; intros acc w Hrows Hrel.
  - cbn. rewrite app_nil_r. split; [done |]. by intros ? ? ?%elem_of_nil.
  - apply Forall_cons in Hrows as [Hrow Hrest].
    rewrite checkStuck_cons.
    destruct (monitorAction nowMs row) eqn:Haction.
    { destruct (IH (acc ++ [stuckEventOf row nowMs monitoring]) w Hrest Hrel)
        as [Hres Hprom].
      rewrite Hres, fmap_cons, <- app_assoc, Haction. split; [done |].
      intros row' it' [-> | Hin]%elem_of_cons Hit' Ha'; [congruence |].
      by eapply Hprom. }
    cbn zeta.
    pose proof (monitor_update_promotes row w Hrow Haction Hrel) as Hrel'.
    assert (Hu : result (ddbUpdateItem env (monitorFailedUpdate row nowMs) w)
                 = Ok (applySets (default Item.empty (table w !! rowKey row))
                         (monitorSets nowMs))
                 ∧ table (final (ddbUpdateItem env
                                   (monitorFailedUpdate row nowMs) w))
                   = <[rowKey row :=
                         applySets (default Item.empty (table w !! rowKey row))
                           (monitorSets nowMs)]> (table w)).
    { unfold ddbUpdateItem. by rewrite Hfault. }
    destruct Hu as [Hu Htable]. revert Hrel' Hu Htable.
    generalize (ddbUpdateItem env (monitorFailedUpdate row nowMs) w).
    intros u Hrel' Hu Htable. rewrite Hu. cbn [prepend result final effects].
    destruct (IH (acc ++ [stuckEventOf row nowMs marked_failed_for_retry])
                (final u) Hrest Hrel') as [Hres Hprom].
    rewrite Hres, fmap_cons, <- app_assoc, Haction. split; [done |].
    intros row' it' [-> | Hin]%elem_of_cons Hit' Ha'; [| by eapply Hprom].
    apply checkStuck_keeps_promoted. rewrite Htable, lookup_insert_eq.
    destruct (Hrel (rowKey row)) as [-> | (it & Hit & _ & ->)].
    + by rewrite Hit'.
    + assert (it = it') as -> by congruence.
      cbn [default]. unfold id. by rewrite monitorSets_idempotent.
Qed.

End Monitor.

Lemma stuckQuery_rows (t : gmap Key Item.t) :
  Forall (stuckRowOf t) (Items (runQuery t stuckQuery)).
Proof.
  apply Forall_forall. intros row Hrow.
  apply stuckQuery_elem in Hrow as (k & it & Hk & Hrow & Hs & _).
  destruct (toEventRow_fields k it row Hrow) as (Hkey & _ & _ & Ha & _).
  exists it. unfold rowKey. by rewrite Hkey.
Qed.

(** The monitor, query by query. *)
Lemma healthCheck_run (env : Env) (w : World) :
  healthCheck env w =
  let currentYear := yearOfInstant (clock env (ops w)) in
  let now := clock env (S (ops w)) in
  let failure (error : string) :=
    Ok (mkHealthResponse 500 (HealthError error now)) in
  match ddbFault env (S (S (ops w))) with
  | Some msg =>
      mkRun (failure msg) (bump (bump (bump w)))
        [DdbQuery (missedQuery now currentYear)]
  | None =>
      match ddbFault env (S (S (S (ops w)))) with
      | Some msg =>
          mkRun (failure msg) (bump (bump (bump (bump w))))
            [DdbQuery (missedQuery now currentYear); DdbQuery stuckQuery]
      | None =>
          let missed := toMissedEvent now
                          <$> Items (runQuery (table w) (missedQuery now currentYear)) in
          let cs := checkStuck env (Items (runQuery (table w) stuckQuery)) now []
                      (bump (bump (bump (bump w)))) in
          mkRun
            (match result cs with
             | Ok stuck =>
                 let status := classify (length missed + length stuck) in
                 Ok (mkHealthResponse
                       (match status with
                        | healthy => 200 | warning => 207 | critical => 500
                        end)
                       (HealthReport
                          (mkHealth status (length missed) (length stuck)
                             missed stuck now)))
             | Throw error =>
                 failure match error with
                         | ServiceException m | NetworkError m | Error m => m
                         | ConditionalCheckFailedException =>
                             "The conditional request failed"
                         end
             end)
            (final cs)
            (DdbQuery (missedQuery now currentYear) :: DdbQuery stuckQuery
             :: effects cs)
      end
  end.
Proof.
  unfold healthCheck, getFullYear. rewrite !bind_run.
  cbn [dateNow result final effects]. rewrite prepend_ret.
  cbn [result final effects bump ops]. rewrite !prepend_nil.
  rewrite bind_run. cbn [dateNow result final effects bump ops].
  rewrite prepend_nil.
  rewrite tryCatch_run. unfold healthReport. rewrite bind_run, ddbQuery_run.
  cbn [bump ops table]. cbn zeta.
  destruct (ddbFault env (S (S (ops w)))); [reflexivity |].
  cbn [result final effects]. rewrite bind_run, ddbQuery_run.
  cbn [bump ops table].
  destruct (ddbFault env (S (S (S (ops w))))); [reflexivity |].
  cbn [result final effects]. rewrite bind_run.
  generalize (checkStuck env (Items (runQuery (table w) stuckQuery))
                (clock env (S (ops w))) []
                (bump (bump (bump (bump w))))).
  intros cs. destruct (result cs) as [stuck | e];
    rewrite ?prepend_ret; unfold prepend; cbn [result final effects app];
    rewrite ?prepend_ret; cbn [result final effects app];
    rewrite ?app_nil_r; reflexivity.
Qed.




(** ** Storing a user *)

Lemma eventSK_inj (a b : UserEventName) : eventSK a = eventSK b → a = b.
Proof. by destruct a, b. Qed.

Lemma eventSK_not_metadata (ty : UserEventName) : eventSK ty ≠ "METADATA".
Proof. by destruct ty. Qed.

Lemma flatten_NoDup (user : User.t) (events : list UserEvent.t) :
  NoDup (UserEvent.type <$> events) →
  NoDup (flattenUserToDynamoDBItems user events).*1.
Proof.
  intros Hnodup. unfold flattenUserToDynamoDBItems.
  rewrite fmap_cons. apply NoDup_cons. split.
  - cbn [metadataItem fst]. intros Hin.
    apply list_elem_of_fmap in Hin as ([k it] & Hk & Hin).
    apply list_elem_of_fmap in Hin as (ev & [= -> _] & _).
    cbn [fst] in Hk. apply (eventSK_not_metadata (UserEvent.type ev)).
    congruence.
  - change (map (eventItem user) events) with (eventItem user <$> events).
    rewrite <- list_fmap_compose.
    replace (fst ∘ eventItem user)
      with ((λ ty, (userPK (User.id user), eventSK ty)) ∘ UserEvent.type)
      by done.
    rewrite list_fmap_compose. apply NoDup_fmap_2; [| done].
    intros a b H. apply eventSK_inj. congruence.
Qed.

(** X13. A stored user is found again. For events of distinct types, in
    the table made of the items [flattenUserToDynamoDBItems] produces:
    the METADATA item of the user's partition carries the user; each
    event is stored under (USER#id, EVENT#type) with sendingStatus
    pending; every key of the table is in the user's partition; and the
    rows of the events index are exactly the events, each with its type,
    date, local time, notifyUtc and lastSentYear, so that every row of
    the index has a user for the sweep to load. *)
Theorem flatten_round_trip (user : User.t) (events : list UserEvent.t) :
  NoDup (UserEvent.type <$> events) →
  let t : gmap Key Item.t :=
    list_to_map (flattenUserToDynamoDBItems user events) in
  (t !! (userPK (User.id user), "METADATA")) ≫= Item.data = Some user
  ∧ (∀ event, event ∈ events →
       ∃ it, t !! (userPK (User.id user), eventSK (UserEvent.type event)) = Some it
             ∧ Item.sendingStatus it = Some pending
             ∧ toEventRow
                 ((userPK (User.id user), eventSK (UserEvent.type event)), it)
               = Some (freshRow user event))
  ∧ (∀ k it, t !! k = Some it → k.1 = userPK (User.id user))
  ∧ (∀ row, row ∈ indexView t ↔ ∃ event, event ∈ events ∧ row = freshRow user event)
  ∧ (∀ row, row ∈ indexView t → hasUser t row).
Proof.
  intros Hnodup t. pose proof (flatten_NoDup user events Hnodup) as Hkeys.
  assert (Hmeta : t !! (userPK (User.id user), "METADATA")
                  = Some (metadataItem user).2).
  { apply elem_of_list_to_map_1; [done |]. by left. }
  assert (Hevent : ∀ event, event ∈ events →
            t !! (userPK (User.id user), eventSK (UserEvent.type event))
            = Some (eventItem user event).2).
  { intros event Hin. apply elem_of_list_to_map_1; [done |].
    right. by apply (list_elem_of_fmap_2 (eventItem user)). }
  assert (Hrow : ∀ event,
            toEventRow ((userPK (User.id user), eventSK (UserEvent.type event)),
                        (eventItem user event).2)
            = Some (freshRow user event)) by done.
  assert (Hstored : ∀ k it, t !! k = Some it →
            (k, it) = metadataItem user
            ∨ ∃ event, event ∈ events ∧ (k, it) = eventItem user event).
  { intros k it Hk. apply elem_of_list_to_map_2 in Hk.
    apply elem_of_cons in Hk as [-> | Hin]; [by left |]. right.
    by apply list_elem_of_fmap in Hin as (event & -> & Hin); eauto. }
  assert (Hindex : ∀ row, row ∈ indexView t
                          ↔ ∃ event, event ∈ events ∧ row = freshRow user event).
  { intros row. rewrite indexView_elem. split.
    - intros (k & it & Hk & Hr).
      destruct (Hstored k it Hk) as [[= -> ->] | (event & Hin & [= -> ->])];
        [done |].
      exists event. split; [done |]. rewrite Hrow in Hr. by injection Hr.
    - intros (event & Hin & ->). eexists _, _. split; [by apply Hevent | done]. }
  split_and!.
  - by rewrite Hmeta.
  - intros event Hin. eexists. by split_and!; [apply Hevent | |].
  - intros k it Hk.
    by destruct (Hstored k it Hk) as [[= -> ->] | (event & Hin & [= -> ->])].
  - done.
  - intros row (event & Hin & ->)%Hindex. eexists _, user. by split.
Qed.

Lemma flatten_round_trip_witness :
  (table Scenario.world0 !! ("USER#u1", "METADATA")) ≫= Item.data
  = Some Scenario.ada.
Proof.
  apply (flatten_round_trip Scenario.ada [Scenario.adaBirthday]).
  apply NoDup_singleton.
Defined.

(** ** Dates of a payload *)

Lemma isLeapYear_cycle (y k : Z) : isLeapYear (y + 400 * k) = isLeapYear y.
Proof.
  unfold isLeapYear.
  replace ((y + 400 * k) mod 4) with (y mod 4)
    by (replace (y + 400 * k) with (y + (100 * k) * 4) by lia;
        by rewrite Z.mod_add).
  replace ((y + 400 * k) mod 100) with (y mod 100)
    by (replace (y + 400 * k) with (y + (4 * k) * 100) by lia;
        by rewrite Z.mod_add).
  replace ((y + 400 * k) mod 400) with (y mod 400)
    by (replace (y + 400 * k) with (y + k * 400) by lia;
        by rewrite Z.mod_add).
  done.
Qed.

(** The year of the era is found again from the day of the era. *)
Lemma yoe_of_doe (yoe doy : Z) :
  0 ≤ yoe ≤ 399 →
  0 ≤ doy ≤ 364 + (if isLeapYear (yoe + 1) then 1 else 0) →
  (yoe * 365 + yoe / 4 - yoe / 100 + doy
   - (yoe * 365 + yoe / 4 - yoe / 100 + doy) / 1460
   + (yoe * 365 + yoe / 4 - yoe / 100 + doy) / 36524
   - (yoe * 365 + yoe / 4 - yoe / 100 + doy) / 146096) / 365 = yoe.
Proof.
  intros Hyoe Hdoy. unfold isLeapYear in Hdoy.
  symmetry. apply Z.div_unique with
    (r := yoe * 365 + yoe / 4 - yoe / 100 + doy
          - (yoe * 365 + yoe / 4 - yoe / 100 + doy) / 1460
          + (yoe * 365 + yoe / 4 - yoe / 100 + doy) / 36524
          - (yoe * 365 + yoe / 4 - yoe / 100 + doy) / 146096
          - 365 * yoe); [| lia].
  left.
  destruct ((yoe + 1) mod 4 =? 0) eqn:H4;
    destruct ((yoe + 1) mod 100 =? 0) eqn:H100;
    destruct ((yoe + 1) mod 400 =? 0) eqn:H400;
    cbn [andb orb negb] in Hdoy;
    rewrite ?Z.eqb_eq, ?Z.eqb_neq in *;
    Z.to_euclidean_division_equations; lia.
Qed.

(** The day number of a date of the calendar gives the date back. *)
Lemma civilFromDays_daysFromCivil (y m d : Z) :
  1 ≤ m ≤ 12 → 1 ≤ d ≤ daysInMonth y m →
  civilFromDays (daysFromCivil y m d) = mkDate y m d.
Proof.
  intros Hm Hd.
  set (y' := if m <=? 2 then y - 1 else y).
  set (era := y' / 400). set (yoe := y' - era * 400).
  set (mp := if 2 <? m then m - 3 else m + 9).
  set (doy := (153 * mp + 2) / 5 + d - 1).
  assert (Hyoe : 0 ≤ yoe ≤ 399).
  { subst yoe era. Z.to_euclidean_division_equations. lia. }
  assert (Hleap : isLeapYear (yoe + 1) = isLeapYear (y' + 1)).
  { replace (y' + 1) with (yoe + 1 + 400 * era) by (subst yoe; lia).
    by rewrite isLeapYear_cycle. }
  assert (Hdoy : 0 ≤ doy ≤ 364 + (if isLeapYear (yoe + 1) then 1 else 0)
                 ∧ (5 * doy + 2) / 153 = mp
                 ∧ doy - (153 * mp + 2) / 5 + 1 = d).
  { rewrite Hleap. subst doy mp y'. unfold daysInMonth in Hd.
    assert (Hcases : m = 1 ∨ m = 2 ∨ m = 3 ∨ m = 4 ∨ m = 5 ∨ m = 6 ∨ m = 7
                     ∨ m = 8 ∨ m = 9 ∨ m = 10 ∨ m = 11 ∨ m = 12) by lia.
    destruct Hcases as [-> | [-> | [-> | [-> | [-> | [-> | [-> | [-> | [-> | [->
                       | [-> | ->]]]]]]]]]]];
      cbn [Z.leb Z.ltb Z.eqb Z.compare Pos.compare Pos.compare_cont Pos.eqb orb]
        in Hd |- *;
      replace (y - 1 + 1) with y by lia;
      destruct (isLeapYear y); destruct (isLeapYear (y + 1));
      split_and!; try lia;
      Z.to_euclidean_division_equations; lia. }
  destruct Hdoy as (Hdoy & Hmp & Hday).
  pose proof (yoe_of_doe yoe doy Hyoe Hdoy) as Hyear.
  unfold daysFromCivil, civilFromDays. cbv zeta.
  fold y' era yoe mp doy.
  set (doe := yoe * 365 + yoe / 4 - yoe / 100 + doy) in *.
  assert (Hdoe : 0 ≤ doe < 146097).
  { subst doe. destruct (isLeapYear (yoe + 1)) eqn:Hl; [| Z.to_euclidean_division_equations; lia].
    unfold isLeapYear in Hl. Z.to_euclidean_division_equations. lia. }
  replace (era * 146097 + doe - 719468 + 719468) with (doe + era * 146097) by lia.
  rewrite Z.div_add, (Z.div_small doe) by lia.
  replace (doe + era * 146097 - (0 + era) * 146097) with doe by lia.
  rewrite Hyear.
  replace (doe - (365 * yoe + yoe / 4 - yoe / 100)) with doy by (subst doe; lia).
  rewrite Hmp, Hday.
  assert (Hmonth : (if mp <? 10 then mp + 3 else mp - 9) = m).
  { subst mp. destruct (Z.ltb_spec 2 m);
      [destruct (Z.ltb_spec (m - 3) 10) | destruct (Z.ltb_spec (m + 9) 10)]; lia. }
  rewrite Hmonth. f_equal.
  subst yoe y'. destruct (Z.leb_spec m 2); lia.
Qed.

Example dayjsFormat_rolls_over :
  dayjsFormat (mkDate 1990 2 30) = mkDate 1990 3 2
  ∧ dayjsFormat (mkDate 1990 13 1) = mkDate 1991 1 1
  ∧ dayjsFormat (mkDate 1990 6 0) = mkDate 1990 5 31
  ∧ dayjsFormat (mkDate 2024 2 29) = mkDate 2024 2 29
  ∧ dayjsFormat (mkDate 50 6 15) = mkDate 1950 6 15.
Proof. vm_compute. by split_and!. Qed.

(** dayjs leaves a date of the calendar as it is. *)
Lemma dayjsFormat_calendarDate (date : CivilDate) :
  calendarDate date → dayjsFormat date = date.
Proof.
  destruct date as [y m d]. unfold calendarDate, dayjsFormat. cbn [year month day].
  intros (Hy & Hm & Hd).
  replace ((0 <=? y) && (y <=? 99)) with false
    by (symmetry; apply andb_false_iff; right; apply Z.leb_gt; lia).
  replace ((y * 12 + (m - 1)) / 12) with y
    by (Z.to_euclidean_division_equations; lia).
  replace ((y * 12 + (m - 1)) mod 12 + 1) with m
    by (Z.to_euclidean_division_equations; lia).
  replace (daysFromCivil y m 1 + (d - 1)) with (daysFromCivil y m d)
    by (unfold daysFromCivil; lia).
  by apply civilFromDays_daysFromCivil.
Qed.

(** ** The base table *)

Lemma partitionOf_elem (t : gmap Key Item.t) (pk : string) (k : Key) (it : Item.t) :
  (k, it) ∈ partitionOf t pk ↔ t !! k = Some it ∧ k.1 = pk.
Proof.
  unfold partitionOf.
  rewrite merge_sort_Permutation, list_elem_of_filter, elem_of_map_to_list.
  cbn [fst]. tauto.
Qed.

Lemma partitionOf_NoDup (t : gmap Key Item.t) (pk : string) :
  NoDup (partitionOf t pk).*1.
Proof.
  unfold partitionOf. rewrite merge_sort_Permutation.
  apply (sublist_NoDup _ (map_to_list t).*1);
    [apply NoDup_fst_map_to_list | apply fmap_sublist, sublist_filter].
Qed.

Lemma applyWrite_lookup (t : gmap Key Item.t) (r : WriteRequest) (k : Key) :
  applyWrite t r !! k = if decide (k = requestKey r) then writeResult r else t !! k.
Proof.
  destruct r as [k0 it | k0]; cbn [applyWrite requestKey writeResult];
    destruct (decide (k = k0)) as [-> | Hne].
  - apply lookup_insert_eq.
  - by apply lookup_insert_ne.
  - apply lookup_delete_eq.
  - by apply lookup_delete_ne.
Qed.

(** Requests with distinct keys, applied in order: a key that no request
    names keeps what it held, and the key of a request holds what the
    request writes. *)
Lemma foldl_applyWrite_lookup (t : gmap Key Item.t) (l : list WriteRequest) :
  NoDup (requestKey <$> l) →
  (∀ k, k ∉ requestKey <$> l → foldl applyWrite t l !! k = t !! k)
  ∧ (∀ r, r ∈ l → foldl applyWrite t l !! requestKey r = writeResult r).
Proof.
  revert t. induction l as [| r0 l IH]; intros t Hnodup.
  { split; [done | by intros ? ?%elem_of_nil]. }
  rewrite fmap_cons, NoDup_cons in Hnodup. destruct Hnodup as [Hr0 Hnodup].
  destruct (IH (applyWrite t r0) Hnodup) as [Hout Hin].
  cbn [foldl]. split.
  - intros k Hk. rewrite fmap_cons, not_elem_of_cons in Hk.
    destruct Hk as [Hne Hk]. rewrite Hout, applyWrite_lookup by done.
    by rewrite decide_False.
  - intros r [-> | Hr]%elem_of_cons; [| by apply Hin].
    rewrite Hout, applyWrite_lookup by done. by rewrite decide_True.
Qed.

(** ** Batches of 25 *)

Section Chunks.

Variable env : Env.
Variable api : ApiEnv.
Context {X : Type} (request : X → WriteRequest) (items : list X).
Hypothesis distinct_keys : NoDup (requestKey <$> (request <$> items)).

(** A batch cut from the items is accepted when the service answers: it
    is not empty, holds at most 25 requests and names no key twice. *)
Lemma chunk_accepted (i : nat) (w : World) :
  (i < length items)%nat →
  ddbBatchWrite env api (request <$> take 25 (drop i items)) w
  = match ddbFault env (ops w) with
    | Some msg => mkRun (Throw (ServiceException msg)) (bump w) []
    | None =>
        mkRun (Ok tt)
          (bump (setTable
                   (foldl applyWrite (table w)
                      (filter (λ r, unprocessed api (ops w) (requestKey r) = false)
                         (request <$> take 25 (drop i items)))) w)) []
    end.
Proof.
  intros Hi. unfold ddbBatchWrite.
  assert (Hlen : (0 < length (request <$> take 25 (drop i items)) ≤ 25)%nat).
  { rewrite length_fmap, length_take, length_drop. lia. }
  assert (Hnodup : NoDup (requestKey <$> (request <$> take 25 (drop i items)))).
  { apply (sublist_NoDup _ (requestKey <$> (request <$> items)));
      [exact distinct_keys |].
    do 2 apply fmap_sublist.
    etrans; [apply sublist_take | apply sublist_drop]. }
  rewrite (bool_decide_eq_true_2 _ Hnodup).
  destruct (ddbFault env (ops w)); [done |].
  destruct (Nat.eqb_spec (length (request <$> take 25 (drop i items))) 0);
    [lia |].
  destruct (Nat.ltb_spec 25 (length (request <$> take 25 (drop i items))));
    [lia | done].
Qed.

(** What a batch leaves of the table: every key holds what it held, or
    what a request of the batch writes to it; and the key of a request
    that is processed holds what the request writes. *)
Lemma chunk_lookup (t : gmap Key Item.t) (n i : nat) :
  let chunk := request <$> take 25 (drop i items) in
  let t' := foldl applyWrite t
              (filter (λ r, unprocessed api n (requestKey r) = false) chunk) in
  (∀ k, t' !! k = t !! k
        ∨ ∃ x, x ∈ take 25 (drop i items) ∧ requestKey (request x) = k
               ∧ t' !! k = writeResult (request x))
  ∧ (∀ x, x ∈ take 25 (drop i items) →
          unprocessed api n (requestKey (request x)) = false →
          t' !! requestKey (request x) = writeResult (request x)).
Proof.
  intros chunk t'.
  assert (Hnodup : NoDup (requestKey <$>
                            filter (λ r, unprocessed api n (requestKey r) = false)
                              chunk)).
  { apply (sublist_NoDup _ (requestKey <$> (request <$> items)));
      [exact distinct_keys |].
    apply fmap_sublist. etrans; [apply sublist_filter |].
    apply fmap_sublist. etrans; [apply sublist_take | apply sublist_drop]. }
  destruct (foldl_applyWrite_lookup t _ Hnodup) as [Hout Hin]. split.
  - intros k.
    destruct (decide (k ∈ requestKey <$>
                        filter (λ r, unprocessed api n (requestKey r) = false)
                          chunk)) as [Hk | Hk]; [| left; by apply Hout].
    right. apply list_elem_of_fmap in Hk as (r & -> & Hr).
    pose proof Hr as [_ (x & -> & Hx)%list_elem_of_fmap]%list_elem_of_filter.
    exists x. split_and!; [done | done | by apply Hin].
  - intros x Hx Hp. apply Hin. apply list_elem_of_filter. split; [done |].
    by apply list_elem_of_fmap_2.
Qed.

(** The keys of the items of a batch are not those of the items after
    it. *)
Lemma chunk_keys_apart (i : nat) (x y : X) :
  x ∈ take 25 (drop i items) → y ∈ drop (i + 25) items →
  requestKey (request x) ≠ requestKey (request y).
Proof.
  intros Hx Hy Heq.
  assert (Hsplit : NoDup (requestKey <$> (request <$>
                            (take 25 (drop i items) ++ drop (i + 25) items)))).
  { apply (sublist_NoDup _ (requestKey <$> (request <$> items)));
      [exact distinct_keys |].
    do 2 apply fmap_sublist.
    rewrite <- drop_drop, take_drop. apply sublist_drop. }
  rewrite !fmap_app in Hsplit. apply NoDup_app in Hsplit as (_ & Hapart & _).
  apply (Hapart (requestKey (request x))).
  - by do 2 apply list_elem_of_fmap_2.
  - rewrite Heq. by do 2 apply list_elem_of_fmap_2.
Qed.

Lemma writeChunksFrom_run (fuel i : nat) (w : World) :
  (length items - i ≤ fuel)%nat →
  let r := writeChunksFrom env api fuel request items i w in
  queues (final r) = queues w
  ∧ effects r = []
  ∧ (∀ k, table (final r) !! k = table w !! k
          ∨ ∃ x, x ∈ drop i items ∧ requestKey (request x) = k
                 ∧ table (final r) !! k = writeResult (request x))
  ∧ (result r = Ok tt ∨ ∃ msg, result r = Throw (ServiceException msg))
  ∧ (result r = Ok tt → (∀ n k, unprocessed api n k = false) →
     ∀ x, x ∈ drop i items →
          table (final r) !! requestKey (request x) = writeResult (request x))
  ∧ ((∀ n, ddbFault env n = None) → result r = Ok tt).
Proof.
  cbn zeta. revert i w. induction fuel as [| fuel IH]; intros i w Hfuel.
  - cbn. rewrite drop_ge by lia.
    split_and!; [done | done | by left | by left | | done].
    by intros _ _ ? ?%elem_of_nil.
  - cbn [writeChunksFrom].
    destruct (Nat.ltb_spec i (length items)) as [Hi | Hi].
    2: { cbn. rewrite drop_ge by lia.
         split_and!; [done | done | by left | by left | | done].
         by intros _ _ ? ?%elem_of_nil. }
    rewrite bind_run, (chunk_accepted i w Hi).
    destruct (ddbFault env (ops w)) as [msg |] eqn:Hfault.
    { cbn. split_and!; [done | done | by left | right; by eexists | done |].
      intros Hall. by rewrite Hall in Hfault. }
    cbn [result final effects].
    destruct (chunk_lookup (table w) (ops w) i) as [Hkeys Hdone].
    set (t1 := foldl applyWrite (table w)
                 (filter (λ r, unprocessed api (ops w) (requestKey r) = false)
                    (request <$> take 25 (drop i items)))) in *.
    clearbody t1.
    destruct (IH (i + 25)%nat (bump (setTable t1 w)))
      as (Hq & He & Hkeys' & Hres & Hdone' & Hok); [lia |].
    revert Hq He Hkeys' Hres Hdone' Hok.
    generalize (writeChunksFrom env api fuel request items (i + 25)
                  (bump (setTable t1 w))).
    intros r Hq He Hkeys' Hres Hdone' Hok. cbn [prepend result final effects app].
    cbn [bump setTable table queues] in Hq, Hkeys', Hdone'.
    assert (Hparts : ∀ x, x ∈ drop i items
                          ↔ x ∈ take 25 (drop i items) ∨ x ∈ drop (i + 25) items).
    { intros x. rewrite <- (take_drop 25 (drop i items)) at 1.
      by rewrite elem_of_app, drop_drop. }
    split_and!; [done | done | | done | | done].
    + intros k. destruct (Hkeys' k) as [Hsame | (x & Hx & Hk & Hv)].
      * rewrite Hsame. destruct (Hkeys k) as [? | (x & Hx & Hk & Hv)]; [by left |].
        right. exists x. split_and!; [apply Hparts; by left | done | done].
      * right. exists x. split_and!; [apply Hparts; by right | done | done].
    + intros Hr Hall x [Hx | Hx]%Hparts; [| by apply Hdone'].
      destruct (Hkeys' (requestKey (request x)))
        as [Hsame | (y & Hy & Hk & _)].
      * rewrite Hsame. by apply Hdone.
      * by destruct (chunk_keys_apart i x y Hx Hy).
Qed.

(** Up to 25 items go out as one batch. *)
Lemma writeChunks_single (w : World) :
  (0 < length items ≤ 25)%nat →
  writeChunks env api request items w
  = match ddbFault env (ops w) with
    | Some msg => mkRun (Throw (ServiceException msg)) (bump w) []
    | None =>
        mkRun (Ok tt)
          (bump (setTable
                   (foldl applyWrite (table w)
                      (filter (λ r, unprocessed api (ops w) (requestKey r) = false)
                         (request <$> items))) w)) []
    end.
Proof.
  intros Hlen. unfold writeChunks.
  destruct (length items) as [| fuel] eqn:Hfuel; [lia |].
  cbn [writeChunksFrom]. rewrite Hfuel.
  destruct (Nat.ltb_spec 0 (S fuel)) as [_ |]; [| lia].
  rewrite bind_run, (chunk_accepted 0 w) by lia.
  rewrite drop_0, take_ge by lia.
  destruct (ddbFault env (ops w)); [reflexivity |].
  cbn [result final effects].
  assert (Hrest : ∀ w', writeChunksFrom env api fuel request items (0 + 25) w'
                        = mkRun (Ok tt) w' []).
  { intros w'. destruct fuel as [| fuel']; [done |].
    cbn [writeChunksFrom]. rewrite Hfuel.
    by destruct (Nat.ltb_spec (0 + 25) (S (S fuel'))); [lia |]. }
  by rewrite Hrest.
Qed.

End Chunks.

(** ** deleteUser *)

Lemma deleteUser_run (env : Env) (api : ApiEnv) (id : string) (w : World) :
  id ≠ "" →
  deleteUser env api (Some id) w =
  match ddbFault env (ops w) with
  | Some msg => mkRun (Throw (ServiceException msg)) (bump w) []
  | None =>
      let items := take (S (pageItems api (ops w)))
                     (partitionOf (table w) (userPK id)) in
      if (length items =? 0)%nat then
        mkRun (Ok (mkResponse 404
                     (ErrorBody ("User with id " +:+ id +:+ " not found"))))
              (bump w) []
      else
        let c := writeChunks env api (λ item : Key * Item.t, DeleteRequest item.1)
                   items (bump w) in
        match result c with
        | Ok _ =>
            mkRun (Ok (mkResponse 200 (MessageOnly "User deleted successfully")))
                  (final c) (effects c)
        | Throw ConditionalCheckFailedException =>
            mkRun (Ok (mkResponse 404
                         (ErrorBody ("User with id " +:+ id +:+ " not found"))))
                  (final c) (effects c)
        | Throw e => mkRun (Throw e) (final c) (effects c)
        end
  end.
Proof.
  intros Hid. unfold deleteUser. cbn [truthy].
  destruct (String.eqb_spec id "") as [-> | _]; [done |].
  rewrite tryCatch_run, bind_run. unfold ddbQueryPartition.
  destruct (ddbFault env (ops w)); [reflexivity |].
  cbn [result final effects]. cbn zeta.
  destruct (length (take (S (pageItems api (ops w)))
                      (partitionOf (table w) (userPK id))) =? 0)%nat;
    [reflexivity |].
  rewrite bind_run.
  generalize (writeChunks env api (λ item : Key * Item.t, DeleteRequest item.1)
                (take (S (pageItems api (ops w)))
                   (partitionOf (table w) (userPK id))) (bump w)).
  intros c. destruct (result c) as [[] | []];
    rewrite ?prepend_ret; unfold prepend, throw;
    cbn [result final effects app]; rewrite ?app_nil_r; try reflexivity.
  all: by destruct c.
Qed.

(** X14. deleteUser deletes within the user's partition, and nothing
    else. A missing id is answered 400 without a call. For an id,
    whatever fails: every item outside the partition USER#id is
    untouched, nothing is created or changed (an item of the table
    afterwards is an item of the table before), and no queue is touched.
    When the handler returns, it is with 200 for a user that had items,
    or with 404 and no write for a user without any. The handler reads
    one page of the partition and does not read what the batch writes
    hand back: after a 200 no item of the user is left when the page
    held the whole partition and every request was processed, and a
    greeter message still queued for the user is then skipped by the
    sender after its read, without a webhook call. With DynamoDB
    answering every call the handler returns, however many items the
    user has: no batch is rejected for its size. *)
Theorem deleteUser_removes_the_user
    (env : Env) (api : ApiEnv) (id : string) (w : World) :
  id ≠ "" →
  let r := deleteUser env api (Some id) w in
  deleteUser env api None w
  = mkRun (Ok (mkResponse 400 (ErrorBody "ID is required"))) w []
  ∧ (∀ k, k.1 ≠ userPK id → table (final r) !! k = table w !! k)
  ∧ (∀ k it, table (final r) !! k = Some it → table w !! k = Some it)
  ∧ queues (final r) = queues w
  ∧ (∀ resp, result r = Ok resp →
       statusCode resp = 200
       ∧ (∃ k it, table w !! k = Some it ∧ k.1 = userPK id)
       ∨ statusCode resp = 404
         ∧ table (final r) = table w
         ∧ (∀ k, k.1 = userPK id → table w !! k = None))
  ∧ (∀ resp, result r = Ok resp →
       (∀ n k, unprocessed api n k = false) →
       (length (partitionOf (table w) (userPK id)) ≤ S (pageItems api (ops w)))%nat →
       (∀ k, k.1 = userPK id → table (final r) !! k = None)
       ∧ (∀ env' message,
            GreeterMessage.pk message = userPK id →
            ddbFault env' (ops (final r)) = None →
            senderRecord env' message (final r)
            = mkRun (Ok EventNotFound) (bump (final r))
                [DdbGet (messageKey message)]))
  ∧ ((∀ n, ddbFault env n = None) → ∃ resp, result r = Ok resp).
Proof.
  intros Hid. cbn zeta. split; [reflexivity |].
  assert (Hskip : ∀ w' : World,
            (∀ k, k.1 = userPK id → table w' !! k = None) →
            ∀ env' message,
              GreeterMessage.pk message = userPK id →
              ddbFault env' (ops w') = None →
              senderRecord env' message w'
              = mkRun (Ok EventNotFound) (bump w') [DdbGet (messageKey message)]).
  { intros w' Hnone env' message Hpk Hfault.
    rewrite senderRecord_run, Hfault. by rewrite (Hnone (messageKey message)). }
  rewrite deleteUser_run by done.
  destruct (ddbFault env (ops w)) as [msg |] eqn:Hfault.
  { cbn. split_and!; try done. intros Hall. by rewrite Hall in Hfault. }
  cbn zeta.
  set (partition := partitionOf (table w) (userPK id)).
  set (items := take (S (pageItems api (ops w))) partition).
  assert (Hpartition : ∀ k it, (k, it) ∈ partition
                               ↔ table w !! k = Some it ∧ k.1 = userPK id)
    by (intros; apply partitionOf_elem).
  assert (Hitems : ∀ kv, kv ∈ items → table w !! kv.1 = Some kv.2
                                      ∧ kv.1.1 = userPK id).
  { intros [k it] Hin. apply Hpartition.
    by apply (subseteq_take (S (pageItems api (ops w)))). }
  destruct (Nat.eqb_spec (length items) 0) as [Hempty | Hsome].
  { assert (Hnil : partition = []).
    { apply nil_length_inv in Hempty. subst items.
      by destruct partition. }
    assert (Hnone : ∀ k, k.1 = userPK id → table w !! k = None).
    { intros k Hk. destruct (table w !! k) as [it |] eqn:Hit; [| done].
      assert (Hin : (k, it) ∈ partition) by (by apply Hpartition).
      rewrite Hnil in Hin. by apply elem_of_nil in Hin. }
    cbn [result final effects bump table queues ops].
    split_and!; try done; [| | by eexists].
    - intros resp [= <-]. right. by split_and!.
    - intros resp _ _ _. split; [done |]. by apply (Hskip (bump w)). }
  assert (Hdistinct : NoDup (requestKey <$>
                               ((λ item : Key * Item.t, DeleteRequest item.1)
                                  <$> items))).
  { rewrite <- list_fmap_compose.
    apply (sublist_NoDup _ partition.*1); [apply partitionOf_NoDup |].
    apply fmap_sublist, sublist_take. }
  destruct (writeChunksFrom_run env api
              (λ item : Key * Item.t, DeleteRequest item.1)
              items Hdistinct (length items) 0 (bump w))
    as (Hq & _ & Hkeys & Hres & Hdone & Hok); [lia |].
  fold (writeChunks env api (λ item : Key * Item.t, DeleteRequest item.1) items)
    in Hq, Hkeys, Hres, Hdone, Hok.
  rewrite drop_0 in Hkeys, Hdone. cbn [bump table queues] in Hq, Hkeys.
  revert Hq Hkeys Hres Hdone Hok.
  generalize (writeChunks env api (λ item : Key * Item.t, DeleteRequest item.1)
                items (bump w)).
  intros c Hq Hkeys Hres Hdone Hok.
  assert (Hhad : ∃ k it, table w !! k = Some it ∧ k.1 = userPK id).
  { destruct items as [| [k it] rest] eqn:Hlist; [done |].
    exists k, it. apply (Hitems (k, it)). by left. }
  assert (Houtside : ∀ k, k.1 ≠ userPK id → table (final c) !! k = table w !! k).
  { intros k Hk. destruct (Hkeys k) as [? | (x & Hx & <- & _)]; [done |].
    by destruct (Hitems x Hx) as [_ ?]. }
  assert (Hkept : ∀ k it, table (final c) !! k = Some it → table w !! k = Some it).
  { intros k it Hk. destruct (Hkeys k) as [Hsame | (x & Hx & _ & Hv)];
      [congruence |].
    rewrite Hk in Hv. done. }
  assert (Hgone : (∀ n k, unprocessed api n k = false) →
                  (length partition ≤ S (pageItems api (ops w)))%nat →
                  result c = Ok tt →
                  ∀ k, k.1 = userPK id → table (final c) !! k = None).
  { intros Hall Hpage Hr k Hk.
    destruct (table w !! k) as [it |] eqn:Hit.
    - assert (Hin : (k, it) ∈ items).
      { subst items. rewrite take_ge by done. by apply Hpartition. }
      apply (Hdone Hr Hall (k, it) Hin).
    - destruct (table (final c) !! k) as [it |] eqn:Hit'; [| done].
      apply Hkept in Hit'. congruence. }
  destruct Hres as [Hr | [msg Hr]]; rewrite Hr; cbn [result final effects].
  - split_and!; try done; [| | by eexists].
    + intros resp [= <-]. by left.
    + intros resp _ Hall Hpage.
      assert (∀ k, k.1 = userPK id → table (final c) !! k = None)
        by (by apply Hgone).
      split; [done |]. by apply Hskip.
  - split_and!; try done.
    intros Hall. rewrite (Hok Hall) in Hr. done.
Qed.

Lemma deleteUser_removes_the_user_witness :
  result (deleteUser Scenario.calm calmApi (Some "u1") Scenario.world0)
  = Ok (mkResponse 200 (MessageOnly "User deleted successfully"))
  ∧ table (final (deleteUser Scenario.calm calmApi (Some "u1") Scenario.world0))
      !! ("USER#u1", "EVENT#birthday") = None.
Proof.
  split; [vm_compute; reflexivity |].
  destruct (deleteUser_removes_the_user Scenario.calm calmApi "u1" Scenario.world0
              ltac:(done)) as (_ & _ & _ & _ & _ & Hgone & _).
  apply (Hgone (mkResponse 200 (MessageOnly "User deleted successfully")));
    [vm_compute; reflexivity | done | vm_compute; lia | reflexivity].
Defined.

(** A batch that hands a request back leaves its item in the table, and
    deleteUser answers 200 all the same. *)
Example deleteUser_answers_200_with_an_item_left :
  result (deleteUser Scenario.calm throttledApi (Some "u1") Scenario.world0)
  = Ok (mkResponse 200 (MessageOnly "User deleted successfully"))
  ∧ table (final (deleteUser Scenario.calm throttledApi (Some "u1")
                    Scenario.world0))
      !! ("USER#u1", "METADATA") = None
  ∧ table (final (deleteUser Scenario.calm throttledApi (Some "u1")
                    Scenario.world0))
      !! ("USER#u1", "EVENT#birthday")
    = table Scenario.world0 !! ("USER#u1", "EVENT#birthday")
  ∧ is_Some (table Scenario.world0 !! ("USER#u1", "EVENT#birthday")).
Proof. vm_compute. split_and!; try reflexivity. by eexists. Qed.

(** ** addUserEvent *)

Lemma addUserEvent_run (env : Env) (userId : string) (incomingEvent : EventPayload)
    (w : World) :
  userId ≠ "" →
  addUserEvent env (Some userId) (SchemaPasses incomingEvent) w =
  let metadataKey := (userPK userId, "METADATA") in
  let eventKey := (userPK userId, eventSK (payloadType incomingEvent)) in
  match ddbFault env (ops w) with
  | Some msg => mkRun (Throw (ServiceException msg)) (bump w) [DdbGet metadataKey]
  | None =>
      match (table w !! metadataKey) ≫= Item.data with
      | None =>
          mkRun (Ok (mkResponse 404
                       (ErrorBody ("User " +:+ userId +:+ " not found"))))
                (bump w) [DdbGet metadataKey]
      | Some user =>
          match ddbFault env (S (ops w)) with
          | Some msg =>
              mkRun (Throw (ServiceException msg)) (bump (bump w))
                    [DdbGet metadataKey; DdbGet eventKey]
          | None =>
              match table w !! eventKey with
              | Some _ =>
                  mkRun (Ok (mkResponse 409
                               (ErrorBody
                                  ("Event " +:+
                                   eventNameString (payloadType incomingEvent) +:+
                                   " already exists for user " +:+
                                   User.firstName user +:+ " " +:+
                                   User.lastName user))))
                        (bump (bump w)) [DdbGet metadataKey; DdbGet eventKey]
              | None =>
                  let eventItem :=
                    addedEvent env (User.timezone user) (clock env (S (S (ops w))))
                      incomingEvent in
                  match ddbFault env (S (S (S (ops w)))) with
                  | Some msg =>
                      mkRun (Throw (ServiceException msg))
                            (bump (bump (bump (bump w))))
                            [DdbGet metadataKey; DdbGet eventKey]
                  | None =>
                      mkRun (Ok (mkResponse 201
                                   (CreatedEvent eventItem
                                      "Event added successfully")))
                            (bump (setTable
                                     (<[eventKey := addedItem eventItem]> (table w))
                                     (bump (bump (bump w)))))
                            [DdbGet metadataKey; DdbGet eventKey]
                  end
              end
          end
      end
  end.
Proof.
  intros Hid. unfold addUserEvent. cbn [truthy].
  destruct (String.eqb_spec userId "") as [-> | _]; [done |].
  cbn zeta. rewrite tryCatch_run, bind_run. unfold ddbGetItem.
  destruct (ddbFault env (ops w)); [reflexivity |].
  cbn [result final effects].
  destruct ((table w !! (userPK userId, "METADATA")) ≫= Item.data) as [user |];
    [| reflexivity].
  rewrite bind_run. unfold ddbGetItem. cbn [bump ops table].
  destruct (ddbFault env (S (ops w))); [reflexivity |].
  cbn [result final effects].
  destruct (table w !! (userPK userId, eventSK (payloadType incomingEvent)))
    eqn:Hnone; [reflexivity |].
  rewrite bind_run. cbn [dateNow result final effects bump ops].
  rewrite prepend_nil, bind_run. unfold ddbPutIfAbsent. cbn [bump ops table].
  destruct (ddbFault env (S (S (S (ops w))))); [reflexivity |].
  rewrite Hnone. reflexivity.
Qed.



(** A date off the calendar is stored as dayjs rolls it over. *)
Example addUserEvent_rolls_the_date_over :
  (table (final (addUserEvent Scenario.calm (Some "u1")
                   (SchemaPasses (mkEventPayload anniversary (mkDate 1990 2 30)
                                    (mkTime 9 0) None))
                   Scenario.world0)) !! ("USER#u1", "EVENT#anniversary"))
    ≫= Item.date
  = Some (mkDate 1990 3 2).
Proof. vm_compute. reflexivity. Qed.

(** ** createUser *)

Lemma createUser_run (env : Env) (api : ApiEnv)
    (data : CreateUserPayload) (w : World) :
  createUser env api (SchemaPasses data) w =
  let now := clock env (S (ops w)) in
  let baseUser :=
    User.mk (uuidv4 api (ops w)) (payloadFirstName data) (payloadLastName data)
      (payloadTimezone data) now now in
  let events := newEvent env (payloadTimezone data) now <$> payloadEvents data in
  let c := writeChunks env api (λ item : Key * Item.t, PutRequest item.1 item.2)
             (flattenUserToDynamoDBItems baseUser events) (bump (bump w)) in
  match result c with
  | Ok _ =>
      mkRun (Ok (mkResponse 201 (CreatedUser baseUser events))) (final c) (effects c)
  | Throw e => mkRun (Throw e) (final c) (effects c)
  end.
Proof.
  unfold createUser. rewrite bind_run.
  cbn [newUuid result final effects]. rewrite prepend_nil, bind_run.
  cbn [dateNow result final effects bump ops]. rewrite prepend_nil, bind_run.
  cbn zeta.
  generalize (writeChunks env api (λ item : Key * Item.t, PutRequest item.1 item.2)
                (flattenUserToDynamoDBItems
                   (User.mk (uuidv4 api (ops w)) (payloadFirstName data)
                      (payloadLastName data) (payloadTimezone data)
                      (clock env (S (ops w))) (clock env (S (ops w))))
                   (newEvent env (payloadTimezone data) (clock env (S (ops w)))
                      <$> payloadEvents data))
                (bump (bump w))).
  intros c. destruct (result c) as [[] | e];
    rewrite ?prepend_ret; unfold prepend;
    cbn [result final effects app]; rewrite ?app_nil_r; reflexivity.
Qed.

Lemma newEvent_types (env : Env) (timezone : string) (now : Z)
    (events : list EventPayload) :
  UserEvent.type <$> (newEvent env timezone now <$> events)
  = payloadType <$> events.
Proof. by rewrite <- list_fmap_compose. Qed.

(** There are two event names. *)
Lemma NoDup_types_length (types : list UserEventName) :
  NoDup types → (length types ≤ 2)%nat.
Proof.
  intros Hnodup.
  apply (submseteq_length types [birthday; anniversary]).
  apply NoDup_submseteq; [done |].
  intros []; set_solver.
Qed.

Lemma flatten_length (user : User.t) (events : list UserEvent.t) :
  length (flattenUserToDynamoDBItems user events) = S (length events).
Proof. unfold flattenUserToDynamoDBItems. cbn. by rewrite length_map. Qed.

Lemma flatten_request_keys (user : User.t) (events : list UserEvent.t) :
  requestKey <$> ((λ item : Key * Item.t, PutRequest item.1 item.2)
                    <$> flattenUserToDynamoDBItems user events)
  = (flattenUserToDynamoDBItems user events).*1.
Proof. by rewrite <- list_fmap_compose. Qed.



(** A batch that hands a request back leaves the item unwritten, and
    createUser answers 201 all the same. *)
Example createUser_answers_201_with_an_item_unwritten :
  statusCode <$>
    match result (createUser Scenario.calm
                    (mkApiEnv (λ _, "u2") (λ _, 99%nat)
                       (λ _ k, bool_decide (k = ("USER#u2", "EVENT#birthday"))))
                    (SchemaPasses
                       (mkCreateUserPayload "Grace" "Hopper" "UTC"
                          [mkEventPayload birthday (mkDate 1906 12 9) (mkTime 9 0)
                             None]))
                    Scenario.world0) with
    | Ok resp => Some resp
    | Throw _ => None
    end = Some 201
  ∧ table (final (createUser Scenario.calm
                    (mkApiEnv (λ _, "u2") (λ _, 99%nat)
                       (λ _ k, bool_decide (k = ("USER#u2", "EVENT#birthday"))))
                    (SchemaPasses
                       (mkCreateUserPayload "Grace" "Hopper" "UTC"
                          [mkEventPayload birthday (mkDate 1906 12 9) (mkTime 9 0)
                             None]))
                    Scenario.world0))
      !! ("USER#u2", "EVENT#birthday") = None.
Proof. vm_compute. by split. Qed.


